(** * ESP32 elevator bank: server and client firmware

    A shallow embedding of the MicroPython sources of the two boards
    (motor.py, elevator.py, websocket.py, pairing.py) together with the
    properties of the wire protocol, the dispatch scheduler and the motion
    engine that the specification states about them.

    Conventions of the embedding:
    - a Python [int] is a [Z]; a [bytes] object is a [list Z] of values
      below 256; a [str] is the [list Z] of its code points;
    - a coroutine is the function of its sequential run; where another task
      can interfere at an [await], the interference is an explicit argument;
    - a raised exception is the [Raise] case of [result]. *)

From Stdlib Require Import ZArith QArith Qround Lia List String Ascii Sorted.
From stdpp Require Import base option list gmap.

Local Open Scope Z_scope.

(** ** Exceptions, coroutines and Python sequences *)

Inductive exn : Type :=
| ValueError (msg : string)
| KeyError
| TypeError
| IndexError
| AttributeError
| UnicodeError
| OverflowError.

(** How a call ends: it returns, it raises, or it waits for ever on a lock
    that nobody will release. *)
Inductive outcome (A : Type) : Type :=
| Ok (a : A)
| Raise (e : exn)
| Blocked.

Arguments Ok {A} a.
Arguments Raise {A} e.
Arguments Blocked {A}.

(** A method of an object with state [S]: the mutations made before an
    exception stay in the state. *)
Definition M (S A : Type) : Type := S -> outcome A * S.

Definition ret {S A : Type} (a : A) : M S A := fun s => (Ok a, s).

Definition bind {S A B : Type} (m : M S A) (k : A -> M S B) : M S B :=
  fun s =>
    match m s with
    | (Ok a, s') => k a s'
    | (Raise e, s') => (Raise e, s')
    | (Blocked, s') => (Blocked, s')
    end.

Notation "'do' x <- r ; k" := (bind r (fun x => k))
  (at level 10, x name, r at level 100, k at level 200).
Notation "'do' ' p <- r ; k" := (bind r (fun x => match x with p => k end))
  (at level 10, p pattern, r at level 100, k at level 200).
Notation "r ;; k" := (bind r (fun _ => k))
  (at level 100, k at level 200, right associativity).

Definition raise {S A : Type} (e : exn) : M S A := fun s => (Raise e, s).
Definition block {S A : Type} : M S A := fun s => (Blocked, s).
Definition get {S : Type} : M S S := fun s => (Ok s, s).
Definition put {S : Type} (s : S) : M S unit := fun _ => (Ok tt, s).
Definition modify {S : Type} (f : S -> S) : M S unit := fun s => (Ok tt, f s).

Definition lift {S A : Type} (r : outcome A) : M S A := fun s => (r, s).

(** [try: m except Exception as e: h e]. *)
Definition try_except {S A : Type} (m : M S A) (h : exn -> M S A) : M S A :=
  fun s =>
    match m s with
    | (Raise e, s') => h e s'
    | r => r
    end.

(** [try: m finally: f]. *)
Definition try_finally {S A : Type} (m : M S A) (f : M S unit) : M S A :=
  fun s =>
    match m s with
    | (Ok a, s') =>
        match f s' with
        | (Ok _, s'') => (Ok a, s'')
        | (Raise e, s'') => (Raise e, s'')
        | (Blocked, s'') => (Blocked, s'')
        end
    | (Raise e, s') =>
        match f s' with
        | (Ok _, s'') => (Raise e, s'')
        | (Raise e', s'') => (Raise e', s'')
        | (Blocked, s'') => (Blocked, s'')
        end
    | (Blocked, s') => (Blocked, s')
    end.

(** Run a method of a component held in a field of the state. *)
Definition zoom {S T A : Type} (proj : S -> T) (upd : S -> T -> S)
    (m : M T A) : M S A :=
  fun s => let '(r, t) := m (proj s) in (r, upd s t).

Definition of_option {A : Type} (e : exn) (o : option A) : outcome A :=
  match o with
  | Some a => Ok a
  | None => Raise e
  end.

(** Python indexing [l[i]]: a negative index counts from the end, an index
    outside [-len, len) raises IndexError. *)
Definition py_norm {A : Type} (l : list A) (i : Z) : option nat :=
  let n := Z.of_nat (length l) in
  if 0 <=? i then (if i <? n then Some (Z.to_nat i) else None)
  else if - n <=? i then Some (Z.to_nat (n + i)) else None.

Definition py_get {A : Type} (l : list A) (i : Z) : outcome A :=
  match py_norm l i with
  | Some n => of_option IndexError (l !! n)
  | None => Raise IndexError
  end.

Definition py_set {A : Type} (l : list A) (i : Z) (x : A) : outcome (list A) :=
  match py_norm l i with
  | Some n => Ok (<[n:=x]> l)
  | None => Raise IndexError
  end.

(** [int(x)] on a float truncates toward zero. *)
Definition py_int (q : Q) : Z :=
  if Qle_bool 0 q then Qfloor q else Qceiling q.

(** A [str] is the list of its code points; [str_of] reads a literal. *)
Definition str_of (s : string) : list Z :=
  map (fun a => Z.of_nat (nat_of_ascii a)) (list_ascii_of_string s).

(** ** motor.py: the motion engine *)

Module Motor.

(** The three output pins of one stepper channel. *)
Record channel : Type := {
  step : bool;
  dir : Z;
  enable : bool
}.

(** What a channel does on its step pin and how long it waits, in order. *)
Inductive event : Type :=
| StepHigh (m : Z)
| StepLow (m : Z)
| DelayUs (us : Z).

(** The fields of [MotorController]; [trace] is not a field of the source,
    it records the pin writes and waits that the methods perform. *)
Record controller : Type := {
  motors : list channel;
  moving_status : list bool;
  stop_request : list bool;
  current_steps : list Z;
  current_floor : list Z;
  STEPS_PER_FLOOR : Z;
  MIN_STEP_DELAY_US : Z;
  ACCELERATION_STEPS : Z;
  MAX_STEP_DELAY_US : Z;
  trace : list event
}.

(** [__init__]: one channel per pin triple, all disabled, all on floor 1. *)
Definition init (motor_pins : list (Z * Z * Z)) : controller :=
  let n := length motor_pins in
  {| motors := map (fun _ => {| step := false; dir := 0; enable := false |}) motor_pins;
     moving_status := replicate n false;
     stop_request := replicate n false;
     current_steps := replicate n 0;
     current_floor := replicate n 1;
     STEPS_PER_FLOOR := 550;
     MIN_STEP_DELAY_US := 500;
     ACCELERATION_STEPS := 50;
     MAX_STEP_DELAY_US := 2000;
     trace := [] |}.

Definition with_motors (ms : list channel) (c : controller) : controller :=
  {| motors := ms;
     moving_status := moving_status c;
     stop_request := stop_request c;
     current_steps := current_steps c;
     current_floor := current_floor c;
     STEPS_PER_FLOOR := STEPS_PER_FLOOR c;
     MIN_STEP_DELAY_US := MIN_STEP_DELAY_US c;
     ACCELERATION_STEPS := ACCELERATION_STEPS c;
     MAX_STEP_DELAY_US := MAX_STEP_DELAY_US c;
     trace := trace c |}.

Definition with_moving (l : list bool) (c : controller) : controller :=
  {| motors := motors c;
     moving_status := l;
     stop_request := stop_request c;
     current_steps := current_steps c;
     current_floor := current_floor c;
     STEPS_PER_FLOOR := STEPS_PER_FLOOR c;
     MIN_STEP_DELAY_US := MIN_STEP_DELAY_US c;
     ACCELERATION_STEPS := ACCELERATION_STEPS c;
     MAX_STEP_DELAY_US := MAX_STEP_DELAY_US c;
     trace := trace c |}.

Definition with_stop (l : list bool) (c : controller) : controller :=
  {| motors := motors c;
     moving_status := moving_status c;
     stop_request := l;
     current_steps := current_steps c;
     current_floor := current_floor c;
     STEPS_PER_FLOOR := STEPS_PER_FLOOR c;
     MIN_STEP_DELAY_US := MIN_STEP_DELAY_US c;
     ACCELERATION_STEPS := ACCELERATION_STEPS c;
     MAX_STEP_DELAY_US := MAX_STEP_DELAY_US c;
     trace := trace c |}.

Definition with_floor (l : list Z) (c : controller) : controller :=
  {| motors := motors c;
     moving_status := moving_status c;
     stop_request := stop_request c;
     current_steps := current_steps c;
     current_floor := l;
     STEPS_PER_FLOOR := STEPS_PER_FLOOR c;
     MIN_STEP_DELAY_US := MIN_STEP_DELAY_US c;
     ACCELERATION_STEPS := ACCELERATION_STEPS c;
     MAX_STEP_DELAY_US := MAX_STEP_DELAY_US c;
     trace := trace c |}.

Definition emit (e : event) : M controller unit :=
  modify (fun c =>
    {| motors := motors c;
       moving_status := moving_status c;
       stop_request := stop_request c;
       current_steps := current_steps c;
       current_floor := current_floor c;
       STEPS_PER_FLOOR := STEPS_PER_FLOOR c;
       MIN_STEP_DELAY_US := MIN_STEP_DELAY_US c;
       ACCELERATION_STEPS := ACCELERATION_STEPS c;
       MAX_STEP_DELAY_US := MAX_STEP_DELAY_US c;
       trace := trace c ++ [e] |}).

(** Write one pin of [self.motors[motor_index]]. *)
Definition write_pin (motor_index : Z) (f : channel -> channel) : M controller unit :=
  do c <- get;
  do m <- lift (py_get (motors c) motor_index);
  do ms <- lift (py_set (motors c) motor_index (f m));
  put (with_motors ms c).

(** [enable_motor]: the enable pin is written with [not enable]. *)
Definition enable_motor (motor_index : Z) (en : bool) : M controller unit :=
  write_pin motor_index
    (fun m => {| step := step m; dir := dir m; enable := negb en |}).

Definition set_dir (motor_index : Z) (d : Z) : M controller unit :=
  write_pin motor_index
    (fun m => {| step := step m; dir := d; enable := enable m |}).

Definition set_step (motor_index : Z) (v : bool) : M controller unit :=
  write_pin motor_index
    (fun m => {| step := v; dir := dir m; enable := enable m |}).

(** [delay_us]: the wait is recorded, time itself is not modelled. *)
Definition delay_us (us : Z) : M controller unit := emit (DelayUs us).

(** [calculate_delay], the closure of [rotate_motor] over [steps].  The
    source divides with [/] (true division) and truncates with [int]; the
    quotient is taken here in the rationals, which is what the floats hold
    for the controller's constants (every intermediate value is an integer
    multiple of 1/50 below 2^24). *)
Definition calculate_delay (c : controller) (steps step : Z) : Z :=
  let acc := ACCELERATION_STEPS c in
  let maxd := MAX_STEP_DELAY_US c in
  let mind := MIN_STEP_DELAY_US c in
  if step <? acc then
    py_int (inject_Z maxd - inject_Z ((maxd - mind) * step) / inject_Z acc)
  else if step >? steps - acc then
    py_int (inject_Z mind
            + inject_Z ((maxd - mind) * (step - (steps - acc))) / inject_Z acc)
  else mind.

(** The first line of [stop_motor]: raise the stop flag of the channel. *)
Definition stop_motor_request (motor_index : Z) : M controller unit :=
  do c <- get;
  do l <- lift (py_set (stop_request c) motor_index true);
  put (with_stop l c).

(** The last line of [stop_motor], reached once [moving_status] is false. *)
Definition stop_motor_release (motor_index : Z) : M controller unit :=
  do c <- get;
  do l <- lift (py_set (stop_request c) motor_index false);
  put (with_stop l c).

(** The [for current_step in range(steps)] loop of [rotate_motor]: [n]
    iterations are left and [cur] is the value of [current_step].
    [stop_at = Some k] is the interference of one concurrent [stop_motor]
    call whose first line runs during the waits of iteration [k]. *)
Fixpoint rotate_loop (motor_index steps : Z) (stop_at : option nat)
    (cur n : nat) : M controller unit :=
  match n with
  | O => ret tt
  | S n' =>
      do c <- get;
      do stop <- lift (py_get (stop_request c) motor_index);
      if (stop : bool) then ret tt
      else
        set_step motor_index true;;
        emit (StepHigh motor_index);;
        delay_us (MIN_STEP_DELAY_US c);;
        set_step motor_index false;;
        emit (StepLow motor_index);;
        delay_us (calculate_delay c steps (Z.of_nat cur));;
        (if decide (stop_at = Some cur)
         then stop_motor_request motor_index else ret tt);;
        rotate_loop motor_index steps stop_at (S cur) n'
  end.

Definition set_moving (motor_index : Z) (v : bool) : M controller unit :=
  do c <- get;
  do l <- lift (py_set (moving_status c) motor_index v);
  put (with_moving l c).

(** [rotate_motor]: the [finally] clause runs on every exit of the loop. *)
Definition rotate_motor (motor_index steps direction : Z)
    (stop_at : option nat) : M controller unit :=
  do c <- get;
  if motor_index >=? Z.of_nat (length (motors c))
  then raise (ValueError "Invalid motor index")
  else if steps =? 0 then ret tt
  else
    set_moving motor_index true;;
    enable_motor motor_index true;;
    try_finally
      (set_dir motor_index direction;;
       rotate_loop motor_index steps stop_at 0 (Z.to_nat steps))
      (set_moving motor_index false;;
       enable_motor motor_index true).

Definition is_moving (motor_index : Z) : M controller bool :=
  do c <- get;
  lift (py_get (moving_status c) motor_index).

(** [move_to_floor].  The debug print on its first line reads
    [current_floor[motor_index]] before any check. *)
Definition move_to_floor (motor_index target_floor : Z)
    (stop_at : option nat) : M controller unit :=
  do c <- get;
  do _ <- lift (py_get (current_floor c) motor_index);
  if motor_index >=? Z.of_nat (length (motors c))
  then raise (ValueError "Invalid motor index")
  else if (target_floor <? 1) || (target_floor >? 3)
  then raise (ValueError "Invalid floor number")
  else
    do cf <- lift (py_get (current_floor c) motor_index);
    if cf =? target_floor then ret tt
    else
      let floor_diff := target_floor - cf in
      let steps := Z.abs floor_diff * STEPS_PER_FLOOR c in
      let direction := if floor_diff >? 0 then 0 else 1 in
      rotate_motor motor_index steps direction stop_at;;
      do c1 <- get;
      do l <- lift (py_set (current_floor c1) motor_index target_floor);
      put (with_floor l c1).

(** The [for i in range(len(self.motors))] loop of [reset_all], from
    channel [i] on, [n] channels being left: every channel that is not on
    floor 1 goes there. *)
Fixpoint reset_from (i : nat) (n : nat) : M controller unit :=
  match n with
  | O => ret tt
  | S n' =>
      do c <- get;
      do cf <- lift (py_get (current_floor c) (Z.of_nat i));
      (if cf =? 1 then ret tt else move_to_floor (Z.of_nat i) 1 None);;
      reset_from (S i) n'
  end.

Definition reset_all : M controller unit :=
  do c <- get;
  reset_from 0 (length (motors c)).

Definition is_pulse (e : event) : bool :=
  match e with
  | StepHigh _ => true
  | _ => false
  end.

(** Number of step pulses in a trace: the motion that really took place. *)
Definition pulses (tr : list event) : nat :=
  length (List.filter is_pulse tr).

End Motor.

(** ** elevator.py: the state store and the dispatch scheduler *)

Module Elevator.

(** The values of the ['status'] entry: ['idle'], ['moving'], ['error']. *)
Inductive status_value : Type := Idle | Moving | Error.

Global Instance status_eq_dec : EqDecision status_value.
Proof. solve_decision. Defined.

(** One entry of [self.elevators]. *)
Record elevator : Type := {
  floor : Z;
  target : option Z;
  status : status_value;
  queue : list Z;
  active : bool
}.

(** [self.elevators] is a dict whose keys, in insertion order, are
    0, 1, 2: the list of its values, the key being the position.
    [lock_held] is the state of [self.lock], an [asyncio.Lock]: it has no
    owner and is not re-entrant. *)
Record manager : Type := {
  motors : Motor.controller;
  elevators : list elevator;
  call_queue : list (Z * option Z);
  lock_held : bool
}.

Definition fresh : elevator :=
  {| floor := 1; target := None; status := Idle; queue := []; active := false |}.

Definition init (motor_controller : Motor.controller) : manager :=
  {| motors := motor_controller;
     elevators := [fresh; fresh; fresh];
     call_queue := [];
     lock_held := false |}.

Definition with_motors (c : Motor.controller) (m : manager) : manager :=
  {| motors := c; elevators := elevators m;
     call_queue := call_queue m; lock_held := lock_held m |}.

Definition with_elevators (l : list elevator) (m : manager) : manager :=
  {| motors := motors m; elevators := l;
     call_queue := call_queue m; lock_held := lock_held m |}.

Definition with_call_queue (q : list (Z * option Z)) (m : manager) : manager :=
  {| motors := motors m; elevators := elevators m;
     call_queue := q; lock_held := lock_held m |}.

Definition with_lock_held (b : bool) (m : manager) : manager :=
  {| motors := motors m; elevators := elevators m;
     call_queue := call_queue m; lock_held := b |}.

(** [async with self.lock: body]: a task that finds the lock taken waits
    until it is released; the lock is released on every exit of the body. *)
Definition acquire : M manager unit :=
  do m <- get;
  if lock_held m then block else put (with_lock_held true m).

Definition release : M manager unit := modify (with_lock_held false).

Definition with_lock {A : Type} (body : M manager A) : M manager A :=
  acquire;; try_finally body release.

(** [elevator_id in self.elevators] and [self.elevators[elevator_id]]. *)
Definition has_key (l : list elevator) (elevator_id : Z) : bool :=
  (0 <=? elevator_id) && (elevator_id <? Z.of_nat (length l)).

Definition dict_get (l : list elevator) (elevator_id : Z) : outcome elevator :=
  if has_key l elevator_id
  then of_option KeyError (l !! Z.to_nat elevator_id)
  else Raise KeyError.

(** The entries of the dict are mutated in place. *)
Definition update (elevator_id : Z) (f : elevator -> elevator) : M manager unit :=
  do m <- get;
  do e <- lift (dict_get (elevators m) elevator_id);
  put (with_elevators (<[Z.to_nat elevator_id := f e]> (elevators m)) m).

Definition set_floor (v : Z) (e : elevator) : elevator :=
  {| floor := v; target := target e; status := status e;
     queue := queue e; active := active e |}.
Definition set_target (v : option Z) (e : elevator) : elevator :=
  {| floor := floor e; target := v; status := status e;
     queue := queue e; active := active e |}.
Definition set_status (v : status_value) (e : elevator) : elevator :=
  {| floor := floor e; target := target e; status := v;
     queue := queue e; active := active e |}.
Definition set_queue (v : list Z) (e : elevator) : elevator :=
  {| floor := floor e; target := target e; status := status e;
     queue := v; active := active e |}.
Definition set_active (v : bool) (e : elevator) : elevator :=
  {| floor := floor e; target := target e; status := status e;
     queue := queue e; active := v |}.

(** [self.elevators.items()]: the pairs of key and entry, in order. *)
Definition items (l : list elevator) : list (Z * elevator) :=
  imap (fun i e => (Z.of_nat i, e)) l.

(** [min(xs, key=...)]: the first element whose key is least. *)
Fixpoint py_min_by {A : Type} (key : A -> Z) (best : A) (xs : list A) : A :=
  match xs with
  | [] => best
  | x :: xs' => py_min_by key (if key x <? key best then x else best) xs'
  end.

(** The body of [_select_best_elevator] under the lock. *)
Definition select_best (l : list elevator) (fl : Z) : outcome (option Z) :=
  match List.find (fun p => (floor (snd p) =? fl) && bool_decide (status (snd p) = Idle))
                  (items l) with
  | Some (elev_id, _) => Ok (Some elev_id)
  | None =>
      let available :=
        map (fun p => (fst p, Z.abs (floor (snd p) - fl)))
            (List.filter (fun p => bool_decide (status (snd p) = Idle)) (items l)) in
      match available with
      | a :: rest => Ok (Some (fst (py_min_by snd a rest)))
      | [] =>
          match map (fun e => Z.of_nat (length (queue e))) l with
          | [] => Raise (ValueError "min() arg is an empty sequence")
          | n :: ns =>
              let min_queue := py_min_by id n ns in
              match List.find (fun p => Z.of_nat (length (queue (snd p))) =? min_queue)
                              (items l) with
              | Some (elev_id, _) => Ok (Some elev_id)
              | None => Ok (Some 0)
              end
          end
      end
  end.

Definition _select_best_elevator (fl : Z) : M manager (option Z) :=
  with_lock (do m <- get; lift (select_best (elevators m) fl)).

(** [call_elevator]; the result is the ['elevator'] entry of the dict it
    returns (the ['floor'] entry is the argument). *)
Definition call_elevator (fl : Z) (preferred_elevator : option Z)
  : M manager (option Z) :=
  with_lock (modify (fun m =>
    with_call_queue (call_queue m ++ [(fl, preferred_elevator)]) m));;
  do m <- get;
  match preferred_elevator with
  | Some p =>
      if has_key (elevators m) p then
        do e <- lift (dict_get (elevators m) p);
        if bool_decide (status e = Idle) then ret (Some p)
        else _select_best_elevator fl
      else _select_best_elevator fl
  | None => _select_best_elevator fl
  end.

Definition lift_motor {A : Type} (m : M Motor.controller A) : M manager A :=
  zoom motors (fun s c => with_motors c s) m.

(** [_assign_floor].  No code of the repository calls [stop_motor], so the
    move runs without a stop request. *)
Definition _assign_floor (elevator_id fl : Z) : M manager unit :=
  do m <- get;
  do elev <- lift (dict_get (elevators m) elevator_id);
  if fl =? floor elev then
    with_lock (update elevator_id (set_active true))
  else
    update elevator_id (set_target (Some fl));;
    update elevator_id (set_status Moving);;
    try_except
      (lift_motor (Motor.move_to_floor elevator_id fl None);;
       with_lock
         (update elevator_id (set_floor fl);;
          update elevator_id (set_target None);;
          update elevator_id (set_status Idle);;
          update elevator_id (set_active true)))
      (fun _ =>
         with_lock
           (update elevator_id (set_status Error);;
            update elevator_id (set_active false))).

(** The ways one turn of the [while True] loop of [_process_queues] ends. *)
Inductive turn : Type :=
| Waited          (* empty queue: sleep(0.1), continue *)
| Requeued        (* no elevator: the call is appended again, sleep(1) *)
| Assigned (elevator_id : Z).

(** One turn of the loop of [_process_queues].  The selection is awaited
    inside [async with self.lock]. *)
Definition _process_queues_turn : M manager turn :=
  do r <- with_lock
    (do m <- get;
     match call_queue m with
     | [] => ret (inl Waited)
     | (fl, preferred) :: rest =>
         put (with_call_queue rest m);;
         do elevator_id <- _select_best_elevator fl;
         match elevator_id with
         | None =>
             modify (fun m' =>
               with_call_queue (call_queue m' ++ [(fl, preferred)]) m');;
             ret (inl Requeued)
         | Some i => ret (inr (i, fl))
         end
     end);
  match r with
  | inl t => ret t
  | inr (i, fl) => _assign_floor i fl;; ret (Assigned i)
  end.

Definition deactivate_elevator (elevator_id : Z) : M manager unit :=
  with_lock (update elevator_id (set_active false)).

(** The loop of [_process_elevator_queue]: each turn pops the head of the
    queue and services it.  [_assign_floor] does not write the queue, so the
    turns are those of the destinations [dests] held at entry. *)
Fixpoint process_destinations (elevator_id : Z) (dests : list Z) : M manager unit :=
  match dests with
  | [] => ret tt
  | fl :: rest =>
      update elevator_id (set_queue rest);;
      _assign_floor elevator_id fl;;
      process_destinations elevator_id rest
  end.

Definition _process_elevator_queue (elevator_id : Z) : M manager unit :=
  do m <- get;
  do e <- lift (dict_get (elevators m) elevator_id);
  process_destinations elevator_id (queue e).

Definition send_elevator (elevator_id fl : Z) : M manager unit :=
  do m <- get;
  if negb (has_key (elevators m) elevator_id)
  then raise (ValueError "Invalid elevator ID")
  else
    update elevator_id (fun e => set_queue (queue e ++ [fl]) e);;
    _process_elevator_queue elevator_id.

(** The [for elev_id in self.elevators] loop of [reset_all], from key [i]
    on, [n] keys being left. *)
Fixpoint reset_from (i : nat) (n : nat) : M manager unit :=
  match n with
  | O => ret tt
  | S n' =>
      let elev_id := Z.of_nat i in
      update elev_id (set_queue []);;
      update elev_id (set_target None);;
      update elev_id (set_status Idle);;
      lift_motor (Motor.move_to_floor elev_id 1 None);;
      update elev_id (set_floor 1);;
      update elev_id (set_active false);;
      reset_from (S i) n'
  end.

Definition reset_all : M manager unit :=
  do m <- get;
  reset_from 0 (length (elevators m)).

End Elevator.

(** ** Bytes and text *)

(** Sequencing of calls that have no state of their own. *)
Definition obind {A B : Type} (r : outcome A) (k : A -> outcome B) : outcome B :=
  match r with
  | Ok a => k a
  | Raise e => Raise e
  | Blocked => Blocked
  end.

Notation "'let?' x := r 'in' k" := (obind r (fun x => k))
  (at level 10, x name, r at level 100, k at level 200).

(** [n.to_bytes(k, "big")]: OverflowError when [n] does not fit. *)
Fixpoint be_bytes (k : nat) (n : Z) : list Z :=
  match k with
  | O => []
  | S k' => be_bytes k' (n / 256) ++ [n mod 256]
  end.

Definition to_bytes (n : Z) (k : nat) : outcome (list Z) :=
  if (0 <=? n) && (n <? 256 ^ Z.of_nat k) then Ok (be_bytes k n)
  else Raise OverflowError.

(** [int.from_bytes(bs, "big")]. *)
Definition from_bytes (bs : list Z) : Z :=
  fold_left (fun acc b => acc * 256 + b) bs 0.

(** The UTF-8 bytes of one code point; the surrogates have none. *)
Definition utf8_char (cp : Z) : outcome (list Z) :=
  if (cp <? 0) || (0x10FFFF <? cp) then Raise UnicodeError
  else if (0xD800 <=? cp) && (cp <=? 0xDFFF) then Raise UnicodeError
  else if cp <? 0x80 then Ok [cp]
  else if cp <? 0x800 then
    Ok [Z.lor 0xC0 (Z.shiftr cp 6); Z.lor 0x80 (Z.land cp 0x3F)]
  else if cp <? 0x10000 then
    Ok [Z.lor 0xE0 (Z.shiftr cp 12);
        Z.lor 0x80 (Z.land (Z.shiftr cp 6) 0x3F);
        Z.lor 0x80 (Z.land cp 0x3F)]
  else
    Ok [Z.lor 0xF0 (Z.shiftr cp 18);
        Z.lor 0x80 (Z.land (Z.shiftr cp 12) 0x3F);
        Z.lor 0x80 (Z.land (Z.shiftr cp 6) 0x3F);
        Z.lor 0x80 (Z.land cp 0x3F)].

(** [s.encode()]. *)
Fixpoint encode (s : list Z) : outcome (list Z) :=
  match s with
  | [] => Ok []
  | cp :: s' =>
      let? bs := utf8_char cp in
      let? rest := encode s' in
      Ok (bs ++ rest)
  end.

Definition is_cont (b : Z) : bool := (0x80 <=? b) && (b <? 0xC0).

Definition cont (acc b : Z) : Z := Z.lor (Z.shiftl acc 6) (Z.land b 0x3F).

(** [bs.decode()]: strict UTF-8; [None] is UnicodeError. *)
Fixpoint utf8_decode (bs : list Z) : option (list Z) :=
  match bs with
  | [] => Some []
  | b0 :: t0 =>
      if (b0 <? 0) || (255 <? b0) then None
      else if b0 <? 0x80 then cons b0 <$> utf8_decode t0
      else if b0 <? 0xC0 then None
      else if b0 <? 0xE0 then
        match t0 with
        | b1 :: t1 =>
            let cp := cont (Z.land b0 0x1F) b1 in
            if is_cont b1 && (0x80 <=? cp)
            then cons cp <$> utf8_decode t1 else None
        | _ => None
        end
      else if b0 <? 0xF0 then
        match t0 with
        | b1 :: b2 :: t2 =>
            let cp := cont (cont (Z.land b0 0x0F) b1) b2 in
            if is_cont b1 && is_cont b2 && (0x800 <=? cp)
               && negb ((0xD800 <=? cp) && (cp <=? 0xDFFF))
            then cons cp <$> utf8_decode t2 else None
        | _ => None
        end
      else if b0 <? 0xF8 then
        match t0 with
        | b1 :: b2 :: b3 :: t3 =>
            let cp := cont (cont (cont (Z.land b0 0x07) b1) b2) b3 in
            if is_cont b1 && is_cont b2 && is_cont b3
               && (0x10000 <=? cp) && (cp <=? 0x10FFFF)
            then cons cp <$> utf8_decode t3 else None
        | _ => None
        end
      else None
  end.

Definition decode (bs : list Z) : outcome (list Z) :=
  of_option UnicodeError (utf8_decode bs).

(** [bytes([data[i] ^ masking_key[i % 4] for i in range(len(data))])],
    from position [i] on. *)
Fixpoint unmask (masking_key data : list Z) (i : Z) : outcome (list Z) :=
  match data with
  | [] => Ok []
  | d :: data' =>
      let? k := py_get masking_key (i mod 4) in
      let? rest := unmask masking_key data' (i + 1) in
      Ok (Z.lxor d k :: rest)
  end.

(** ** hashlib.sha1 and ubinascii.b2a_base64

    Both are functions of the MicroPython library, not of the repository;
    they are written out after FIPS 180-4 and RFC 4648 so that the accept
    value of the handshake can be computed. *)

Module Sha1.

Definition w32 (x : Z) : Z := x mod 2 ^ 32.

Definition rotl (n x : Z) : Z :=
  w32 (Z.lor (Z.shiftl x n) (Z.shiftr x (32 - n))).

(** The message followed by 0x80, zeros, and its length in bits on 8 bytes. *)
Definition pad (msg : list Z) : list Z :=
  let n := Z.of_nat (length msg) in
  let zeros := Z.to_nat ((55 - n) mod 64) in
  msg ++ [0x80] ++ replicate zeros 0 ++ be_bytes 8 (8 * n).

Fixpoint words (bs : list Z) : list Z :=
  match bs with
  | b0 :: b1 :: b2 :: b3 :: t => from_bytes [b0; b1; b2; b3] :: words t
  | _ => []
  end.

(** The message schedule, latest word first. *)
Fixpoint extend (n : nat) (w : list Z) : list Z :=
  match n with
  | O => w
  | S n' =>
      let x := Z.lxor (Z.lxor (nth 2 w 0) (nth 7 w 0))
                      (Z.lxor (nth 13 w 0) (nth 15 w 0)) in
      extend n' (rotl 1 x :: w)
  end.

Definition schedule (block : list Z) : list Z :=
  rev (extend 64 (rev (words block))).

Definition f (t : nat) (b c d : Z) : Z :=
  if (t <? 20)%nat then Z.lor (Z.land b c) (Z.land (Z.lxor b 0xFFFFFFFF) d)
  else if (t <? 40)%nat then Z.lxor (Z.lxor b c) d
  else if (t <? 60)%nat then
    Z.lor (Z.lor (Z.land b c) (Z.land b d)) (Z.land c d)
  else Z.lxor (Z.lxor b c) d.

Definition k (t : nat) : Z :=
  if (t <? 20)%nat then 0x5A827999
  else if (t <? 40)%nat then 0x6ED9EBA1
  else if (t <? 60)%nat then 0x8F1BBCDC
  else 0xCA62C1D6.

Definition hash : Type := Z * Z * Z * Z * Z.

Fixpoint rounds (t : nat) (w : list Z) (h : hash) : hash :=
  match w with
  | [] => h
  | wt :: w' =>
      let '(a, b, c, d, e) := h in
      let temp := w32 (rotl 5 a + f t b c d + e + k t + wt) in
      rounds (S t) w' (temp, a, rotl 30 b, c, d)
  end.

Definition compress (h : hash) (block : list Z) : hash :=
  let '(h0, h1, h2, h3, h4) := h in
  let '(a, b, c, d, e) := rounds 0 (schedule block) h in
  (w32 (h0 + a), w32 (h1 + b), w32 (h2 + c), w32 (h3 + d), w32 (h4 + e)).

Fixpoint blocks (n : nat) (bs : list Z) (h : hash) : hash :=
  match n with
  | O => h
  | S n' =>
      match bs with
      | [] => h
      | _ => blocks n' (drop 64 bs) (compress h (take 64 bs))
      end
  end.

Definition sha1 (msg : list Z) : list Z :=
  let p := pad msg in
  let '(h0, h1, h2, h3, h4) :=
    blocks (length p) p
      (0x67452301, 0xEFCDAB89, 0x98BADCFE, 0x10325476, 0xC3D2E1F0) in
  be_bytes 4 h0 ++ be_bytes 4 h1 ++ be_bytes 4 h2 ++ be_bytes 4 h3 ++ be_bytes 4 h4.

End Sha1.

Module Base64.

Definition alphabet : list Z :=
  str_of "ABCDEFGHIJKLMNOPQRSTUVWXYZabcdefghijklmnopqrstuvwxyz0123456789+/".

Definition digit (n : Z) : Z := nth (Z.to_nat n) alphabet 0.

Definition pad_char : Z := 61.

Fixpoint b64 (bs : list Z) : list Z :=
  match bs with
  | [] => []
  | [b0] =>
      [digit (Z.shiftr b0 2); digit (Z.shiftl (Z.land b0 3) 4); pad_char; pad_char]
  | [b0; b1] =>
      [digit (Z.shiftr b0 2);
       digit (Z.lor (Z.shiftl (Z.land b0 3) 4) (Z.shiftr b1 4));
       digit (Z.shiftl (Z.land b1 15) 2); pad_char]
  | b0 :: b1 :: b2 :: t =>
      [digit (Z.shiftr b0 2);
       digit (Z.lor (Z.shiftl (Z.land b0 3) 4) (Z.shiftr b1 4));
       digit (Z.lor (Z.shiftl (Z.land b1 15) 2) (Z.shiftr b2 6));
       digit (Z.land b2 63)] ++ b64 t
  end.

(** [ubinascii.b2a_base64(bs)]: the encoding followed by a newline. *)
Definition b2a_base64 (bs : list Z) : list Z := b64 bs ++ [10].

End Base64.

(** ** JSON documents *)

(** The values that [json.loads] builds and [json.dumps] prints. *)
#[local] Unset Elimination Schemes.
Inductive json : Type :=
| JNull
| JBool (b : bool)
| JInt (n : Z)
| JFloat (q : Q)
| JStr (s : list Z)
| JList (l : list json)
| JDict (d : list (list Z * json)).
#[local] Set Elimination Schemes.

Fixpoint assoc {A : Type} (key : list Z) (d : list (list Z * A)) : option A :=
  match d with
  | [] => None
  | (k, v) :: d' => if bool_decide (k = key) then Some v else assoc key d'
  end.

(** [sub in s] on two strings. *)
Fixpoint starts_with (sub s : list Z) : bool :=
  match sub, s with
  | [], _ => true
  | c :: sub', d :: s' => (c =? d) && starts_with sub' s'
  | _ :: _, [] => false
  end.

Fixpoint contains (sub s : list Z) : bool :=
  starts_with sub s ||
  match s with
  | [] => false
  | _ :: s' => contains sub s'
  end.

(** [key in data] for a string [key]. *)
Definition py_in (key : list Z) (data : json) : outcome bool :=
  match data with
  | JDict d => Ok (bool_decide (is_Some (assoc key d)))
  | JList l =>
      Ok (existsb (fun v => match v with
                            | JStr s => bool_decide (s = key)
                            | _ => false
                            end) l)
  | JStr s => Ok (contains key s)
  | _ => Raise TypeError
  end.

(** [data[key]] for a string [key]. *)
Definition py_item (data : json) (key : list Z) : outcome json :=
  match data with
  | JDict d => of_option KeyError (assoc key d)
  | _ => Raise TypeError
  end.

(** [data.get(key, default)]. *)
Definition py_dict_get (data : json) (key : list Z) (default : json) : outcome json :=
  match data with
  | JDict d => Ok (match assoc key d with Some v => v | None => default end)
  | _ => Raise AttributeError
  end.

(** Whether a value can be the key of a dict. *)
Definition hashable (v : json) : bool :=
  match v with
  | JList _ | JDict _ => false
  | _ => true
  end.

Definition number (v : json) : option Q :=
  match v with
  | JBool b => Some (if b then 1%Q else 0%Q)
  | JInt n => Some (inject_Z n)
  | JFloat q => Some q
  | _ => None
  end.

(** [a == b] on hashable values: numbers compare by value. *)
Definition key_eqb (a b : json) : bool :=
  match number a, number b with
  | Some x, Some y => Qeq_bool x y
  | None, None =>
      match a, b with
      | JNull, JNull => true
      | JStr s, JStr t => bool_decide (s = t)
      | _, _ => false
      end
  | _, _ => false
  end.

Fixpoint lookup_key (key : json) (d : list (json * json)) : option json :=
  match d with
  | [] => None
  | (k, v) :: d' => if key_eqb k key then Some v else lookup_key key d'
  end.

(** ** Byte streams *)

(** A [StreamReader] whose peer has sent [buf] and closed: [read(n)]
    returns the next [n] bytes, fewer at the end of the stream. *)
Definition read (n : Z) : M (list Z) (list Z) :=
  fun buf => (Ok (take (Z.to_nat n) buf), drop (Z.to_nat n) buf).

(** The bytes of [buf] up to and including the first newline. *)
Fixpoint line_of (buf : list Z) : list Z :=
  match buf with
  | [] => []
  | b :: buf' => if b =? 10 then [b] else b :: line_of buf'
  end.

(** [readline()]: one line with its newline, what is left at the end of
    the stream, [b""] once the stream is exhausted. *)
Definition readline : M (list Z) (list Z) :=
  fun buf => let l := line_of buf in (Ok l, drop (length l) buf).

(** [s.strip()]: MicroPython strips the ASCII white space. *)
Definition is_space (c : Z) : bool :=
  (c =? 32) || ((9 <=? c) && (c <=? 13)).

Fixpoint lstrip (s : list Z) : list Z :=
  match s with
  | c :: s' => if is_space c then lstrip s' else s
  | [] => []
  end.

Definition strip (s : list Z) : list Z := rev (lstrip (rev (lstrip s))).

(** [s.split(sep, 1)] for a separator of two characters [c1 c2]: the text
    before and after the first occurrence, [None] when there is none (the
    list then has the single element [s]). *)
Fixpoint split_once (c1 c2 : Z) (s : list Z) : option (list Z * list Z) :=
  match s with
  | [] => None
  | a :: s' =>
      match s' with
      | b :: s'' =>
          if (a =? c1) && (b =? c2) then Some ([], s'')
          else (fun '(l, r) => (a :: l, r)) <$> split_once c1 c2 s'
      | [] => None
      end
  end.

(** ** server/websocket.py *)

Module WebSocketServer.

Definition WS_MAGIC_STRING : list Z := str_of "258EAFA5-E914-47DA-95CA-C5AB0DC85B11".
Definition WS_OPCODE_TEXT : Z := 0x1.

(** What the server hands to the writer: raw bytes (the handshake
    response), [send_frame(writer, json.dumps(doc))], and the same for the
    document [{"error": str(e)}]. *)
Inductive wire : Type :=
| Raw (bs : list Z)
| Doc (doc : json)
| ErrorDoc (e : exn).

(** The fields of [WebSocketServer] ([self.motors] is the controller held
    by [self.elevator]), the modes given to [self.led.set_mode], the
    coroutines handed to [asyncio.create_task] and not yet run, and the
    reader and writer of the connection being served. *)
Record server : Type := {
  elevator : Elevator.manager;
  tasks : list (json * json);
  client_connected : bool;
  led : list string;
  spawned : list (option Z * Z);
  reader : list Z;
  written : list wire;
  writer_closed : bool
}.

Definition init (mgr : Elevator.manager) : server :=
  {| elevator := mgr; tasks := []; client_connected := false; led := [];
     spawned := []; reader := []; written := []; writer_closed := false |}.

(** A client connects and sends [input]. *)
Definition accept (input : list Z) (s : server) : server :=
  {| elevator := elevator s; tasks := tasks s;
     client_connected := client_connected s; led := led s;
     spawned := spawned s; reader := input; written := [];
     writer_closed := false |}.

Definition with_elevator (m : Elevator.manager) (s : server) : server :=
  {| elevator := m; tasks := tasks s;
     client_connected := client_connected s; led := led s;
     spawned := spawned s; reader := reader s; written := written s;
     writer_closed := writer_closed s |}.

Definition with_reader (r : list Z) (s : server) : server :=
  {| elevator := elevator s; tasks := tasks s;
     client_connected := client_connected s; led := led s;
     spawned := spawned s; reader := r; written := written s;
     writer_closed := writer_closed s |}.

Definition set_client_connected (b : bool) : M server unit :=
  modify (fun s =>
    {| elevator := elevator s; tasks := tasks s;
       client_connected := b; led := led s;
       spawned := spawned s; reader := reader s; written := written s;
       writer_closed := writer_closed s |}).

Definition set_mode (name : string) : M server unit :=
  modify (fun s =>
    {| elevator := elevator s; tasks := tasks s;
       client_connected := client_connected s; led := led s ++ [name];
       spawned := spawned s; reader := reader s; written := written s;
       writer_closed := writer_closed s |}).

Definition create_task (t : option Z * Z) : M server unit :=
  modify (fun s =>
    {| elevator := elevator s; tasks := tasks s;
       client_connected := client_connected s; led := led s;
       spawned := spawned s ++ [t]; reader := reader s; written := written s;
       writer_closed := writer_closed s |}).

Definition write (w : wire) : M server unit :=
  modify (fun s =>
    {| elevator := elevator s; tasks := tasks s;
       client_connected := client_connected s; led := led s;
       spawned := spawned s; reader := reader s; written := written s ++ [w];
       writer_closed := writer_closed s |}).

Definition close : M server unit :=
  modify (fun s =>
    {| elevator := elevator s; tasks := tasks s;
       client_connected := client_connected s; led := led s;
       spawned := spawned s; reader := reader s; written := written s;
       writer_closed := true |}).

Definition on_reader {A : Type} (m : M (list Z) A) : M server A :=
  zoom reader (fun s r => with_reader r s) m.

Definition on_elevator {A : Type} (m : M Elevator.manager A) : M server A :=
  zoom elevator (fun s e => with_elevator e s) m.

(** The header loop of [handshake]; [fuel] bounds the number of lines. *)
Fixpoint read_headers (fuel : nat) (headers : gmap (list Z) (list Z))
  : M (list Z) (gmap (list Z) (list Z)) :=
  match fuel with
  | O => block
  | S fuel' =>
      do line <- readline;
      if bool_decide (line = [13; 10]) || bool_decide (line = [])
      then ret headers
      else
        do text <- lift (decode line);
        match split_once 58 32 (strip text) with
        | Some (key, value) => read_headers fuel' (<[key := value]> headers)
        | None => raise (ValueError "not enough values to unpack")
        end
  end.

(** The accept value for a key, as bytes. *)
Definition accept_key (key : list Z) : outcome (list Z) :=
  let? bs := encode (key ++ WS_MAGIC_STRING) in
  Ok (strip (Base64.b2a_base64 (Sha1.sha1 bs))).

Definition response (accept : list Z) : list Z :=
  str_of "HTTP/1.1 101 Switching Protocols" ++ [13; 10]
  ++ str_of "Upgrade: websocket" ++ [13; 10]
  ++ str_of "Connection: Upgrade" ++ [13; 10]
  ++ str_of "Sec-WebSocket-Accept: " ++ accept ++ [13; 10; 13; 10].

(** [handshake]. *)
Definition handshake : M server unit :=
  do request_line <- on_reader readline;
  do s <- get;
  do headers <- on_reader (read_headers (S (length (reader s))) ∅);
  match headers !! str_of "Sec-WebSocket-Key" with
  | None => raise (ValueError "Invalid WebSocket handshake")
  | Some key =>
      do accept <- lift (accept_key key);
      do text <- lift (decode accept);
      do bs <- lift (encode (response text));
      write (Raw bs)
  end.

(** [receive_frame]: [Ok None] is the [return None] of the source. *)
Definition receive_frame : M (list Z) (option (list Z)) :=
  do header <- read 2;
  match header with
  | [] => ret None
  | _ =>
      do h0 <- lift (py_get header 0);
      let fin := Z.shiftr (Z.land h0 0x80) 7 in
      let opcode := Z.land h0 0x0F in
      do h1 <- lift (py_get header 1);
      let mask := Z.shiftr (Z.land h1 0x80) 7 in
      let length := Z.land h1 0x7F in
      do length <-
        (if length =? 126 then do b <- read 2; ret (from_bytes b)
         else if length =? 127 then do b <- read 8; ret (from_bytes b)
         else ret length);
      do masking_key <- (if mask =? 0 then ret [] else read 4);
      do data <- read length;
      do data <- (if mask =? 0 then ret data
                  else lift (unmask masking_key data 0));
      if opcode =? WS_OPCODE_TEXT
      then do text <- lift (decode data); ret (Some text)
      else ret None
  end.

(** [send_frame] on a writer that keeps the bytes written: the header,
    whose length field is [len(data)], then [data.encode()]. *)
Definition send_frame (data : list Z) : M (list Z) unit :=
  let n := Z.of_nat (length data) in
  do header <-
    (if n <? 126 then ret [Z.lor 0x80 WS_OPCODE_TEXT; n]
     else if n <? 65536 then
       do b <- lift (to_bytes n 2); ret ([Z.lor 0x80 WS_OPCODE_TEXT; 126] ++ b)
     else
       do b <- lift (to_bytes n 8); ret ([Z.lor 0x80 WS_OPCODE_TEXT; 127] ++ b));
  modify (fun w => w ++ header);;
  do payload <- lift (encode data);
  modify (fun w => w ++ payload).

Section Session.

(** [json.loads] and [int] on a string are functions of the MicroPython
    library; [None] is the ValueError they raise. *)
Variable loads : list Z -> option json.
Variable int_of_str : list Z -> option Z.

Definition json_loads (text : list Z) : outcome json :=
  of_option (ValueError "syntax error in JSON") (loads text).

(** [int(v)]. *)
Definition to_int (v : json) : outcome Z :=
  match v with
  | JBool b => Ok (if b then 1 else 0)
  | JInt n => Ok n
  | JFloat q => Ok (py_int q)
  | JStr s => of_option (ValueError "invalid syntax for integer") (int_of_str s)
  | _ => Raise TypeError
  end.

(** The document [{"response": {"type": .., "floor": .., "elevator": ..,
    "status": ..}}]. *)
Definition call_response (floor elevator_id : Z) (status : string) : json :=
  JDict [(str_of "response",
          JDict [(str_of "type", JStr (str_of "call"));
                 (str_of "floor", JInt floor);
                 (str_of "elevator", JInt elevator_id);
                 (str_of "status", JStr (str_of status))])].

Definition task_response (elevator_id floor : Z) (status : string) : json :=
  JDict [(str_of "response",
          JDict [(str_of "type", JStr (str_of "task"));
                 (str_of "elevator", JInt elevator_id);
                 (str_of "floor", JInt floor);
                 (str_of "status", JStr (str_of status))])].

Definition reset_response (status : string) : json :=
  JDict [(str_of "response",
          JDict [(str_of "type", JStr (str_of "reset"));
                 (str_of "elevator", JInt 6);
                 (str_of "floor", JInt 1);
                 (str_of "status", JStr (str_of status))])].

Definition not_found_response (task_id : json) : json :=
  JDict [(str_of "response",
          JDict [(str_of "task_id", task_id);
                 (str_of "status", JStr (str_of "not_found"))])].

Definition invalid_request : json :=
  JDict [(str_of "error", JStr (str_of "Invalid request"))].

(** [handle_call]. *)
Definition handle_call (call_data : json) : M server unit :=
  do v <- lift (py_item call_data (str_of "floor"));
  do floor <- lift (to_int v);
  do v <- lift (py_dict_get call_data (str_of "elevator") (JInt 0));
  do elevator_id <- lift (to_int v);
  write (Doc (call_response floor elevator_id "processing"));;
  do result <- on_elevator (Elevator.call_elevator floor (Some elevator_id));
  write (Doc (call_response floor elevator_id "completed"));;
  create_task (result, floor).

(** [handle_task]. *)
Definition handle_task (task_data : json) : M server unit :=
  do v <- lift (py_dict_get task_data (str_of "motor") (JInt 0));
  do elevator_id <- lift (to_int v);
  do v <- lift (py_item task_data (str_of "floor"));
  do floor <- lift (to_int v);
  write (Doc (task_response elevator_id floor "processing"));;
  on_elevator (Elevator.send_elevator elevator_id floor);;
  write (Doc (task_response elevator_id floor "completed")).

(** [handle_status]. *)
Definition handle_status (status_data : json) : M server unit :=
  do task_id <- lift (py_item status_data (str_of "task_id"));
  do s <- get;
  if negb (hashable task_id) then raise TypeError
  else
    match lookup_key task_id (tasks s) with
    | Some task =>
        do motor <- lift (py_item task (str_of "motor"));
        do floor <- lift (py_item task (str_of "floor"));
        do action <- lift (py_item task (str_of "action"));
        do status <- lift (py_item task (str_of "status"));
        write (Doc (JDict [(str_of "response",
                            JDict [(str_of "task_id", task_id);
                                   (str_of "motor", motor);
                                   (str_of "floor", floor);
                                   (str_of "action", action);
                                   (str_of "status", status)])]))
    | None => write (Doc (not_found_response task_id))
    end.

(** [handle_reset]. *)
Definition handle_reset : M server unit :=
  write (Doc (reset_response "processing"));;
  on_elevator Elevator.reset_all;;
  write (Doc (reset_response "completed")).

(** [process_message]. *)
Definition process_message (message : list Z) : M server unit :=
  try_except
    (do data <- lift (json_loads message);
     do c <- lift (py_in (str_of "call") data);
     if (c : bool) then
       do d <- lift (py_item data (str_of "call")); handle_call d
     else
       do c <- lift (py_in (str_of "task") data);
       if (c : bool) then
         do d <- lift (py_item data (str_of "task")); handle_task d
       else
         do c <- lift (py_in (str_of "status") data);
         if (c : bool) then
           do d <- lift (py_item data (str_of "status")); handle_status d
         else
           do c <- lift (py_in (str_of "reset") data);
           if (c : bool) then handle_reset
           else write (Doc invalid_request))
    (fun e => write (ErrorDoc e)).

(** The [while True] loop of [handle_client]; a turn reads at least two
    bytes or leaves the loop, [fuel] bounds the number of turns. *)
Fixpoint receive_loop (fuel : nat) : M server unit :=
  match fuel with
  | O => block
  | S fuel' =>
      do data <- on_reader receive_frame;
      match data with
      | None | Some [] => ret tt
      | Some message => process_message message;; receive_loop fuel'
      end
  end.

(** [handle_client]. *)
Definition handle_client : M server unit :=
  set_client_connected true;;
  set_mode "connected";;
  try_finally
    (try_except
       (handshake;;
        do s <- get;
        receive_loop (S (length (reader s))))
       (fun _ => set_mode "not_connected"))
    (set_client_connected false;;
     set_mode "connecting";;
     close).

(** The state of the server once it has processed [messages] in order,
    whatever the outcome of each. *)
Fixpoint after_messages (messages : list (list Z)) (s : server) : server :=
  match messages with
  | [] => s
  | m :: rest => after_messages rest (snd (process_message m s))
  end.

End Session.

(** The server after it has handed [ws] to the writer. *)
Definition wrote (ws : list wire) (s : server) : server :=
  {| elevator := elevator s; tasks := tasks s;
     client_connected := client_connected s; led := led s;
     spawned := spawned s; reader := reader s; written := written s ++ ws;
     writer_closed := writer_closed s |}.

(** A document of the form [{"error": text}]. *)
Definition is_error_response (w : wire) : bool :=
  match w with
  | ErrorDoc _ => true
  | Doc (JDict [(k, JStr _)]) => bool_decide (k = str_of "error")
  | _ => false
  end.

End WebSocketServer.

(** ** client/websocket.py *)

Module WebSocketClient.

(** [send_frame] on a writer that keeps the bytes written. *)
Definition send_frame (data : list Z) : M (list Z) unit :=
  let n := Z.of_nat (length data) in
  do header <-
    (if n <? 126 then ret [Z.lor 0x80 0x1; n]
     else if n <? 65536 then
       do b <- lift (to_bytes n 2); ret ([Z.lor 0x80 0x1; 126] ++ b)
     else
       do b <- lift (to_bytes n 8); ret ([Z.lor 0x80 0x1; 127] ++ b));
  modify (fun w => w ++ header);;
  do payload <- lift (encode data);
  modify (fun w => w ++ payload).

(** The length of the header that [send_frame] writes for [n] characters. *)
Definition header_length (n : Z) : nat :=
  if n <? 126 then 2 else if n <? 65536 then 4 else 10.

(** The two ends of the connection that [start] opens: what the server
    has sent and the client has not read yet, and what the client has
    written. *)
Record connection : Type := {
  reader : list Z;
  writer : list Z
}.

Definition on_reader {A : Type} (m : M (list Z) A) : M connection A :=
  zoom reader (fun c r => {| reader := r; writer := writer c |}) m.

Definition write (bs : list Z) : M connection unit :=
  modify (fun c => {| reader := reader c; writer := writer c ++ bs |}).

(** The request of [handshake], formatted with [self.server_ip]. *)
Definition request (server_ip : list Z) : list Z :=
  str_of "GET / HTTP/1.1" ++ [13; 10]
  ++ str_of "Host: " ++ server_ip ++ [13; 10]
  ++ str_of "Upgrade: websocket" ++ [13; 10]
  ++ str_of "Connection: Upgrade" ++ [13; 10]
  ++ str_of "Sec-WebSocket-Key: dGhlIHNhbXBsZSBub25jZQ==" ++ [13; 10]
  ++ str_of "Sec-WebSocket-Version: 13" ++ [13; 10; 13; 10].

(** [handshake]: [b"101 Switching Protocols" in response] is the search of
    a byte string in another. *)
Definition handshake (server_ip : list Z) : M connection unit :=
  do bs <- lift (encode (request server_ip));
  write bs;;
  do response <- on_reader (read 1024);
  if contains (str_of "101 Switching Protocols") response then ret tt
  else raise (ValueError "WebSocket handshake failed").

(** [receive_frame]: [Ok None] is the [return None] of the source. *)
Definition receive_frame : M (list Z) (option (list Z)) :=
  do header <- read 2;
  match header with
  | [] => ret None
  | _ =>
      do h0 <- lift (py_get header 0);
      let fin := Z.shiftr (Z.land h0 0x80) 7 in
      let opcode := Z.land h0 0x0F in
      do h1 <- lift (py_get header 1);
      let mask := Z.shiftr (Z.land h1 0x80) 7 in
      let length := Z.land h1 0x7F in
      do length <-
        (if length =? 126 then do b <- read 2; ret (from_bytes b)
         else if length =? 127 then do b <- read 8; ret (from_bytes b)
         else ret length);
      do masking_key <- (if mask =? 0 then ret [] else read 4);
      do data <- read length;
      do data <- (if mask =? 0 then ret data
                  else lift (unmask masking_key data 0));
      if opcode =? 0x1
      then do text <- lift (decode data); ret (Some text)
      else ret None
  end.

End WebSocketClient.

(** ** client/pairing.py *)

Module Pairing.

(** What one call of the non-blocking [recvfrom] finds: nothing (it
    raises), or a datagram and the address of its sender. *)
Inductive poll : Type :=
| NoData
| Datagram (data : list Z) (addr : list Z).

Inductive event : Type :=
| SetMode (name : string)
| SendTo (doc : json) (host : list Z) (port : Z)
| Recv
| Sleep (seconds : Z).

(** The LED and the socket of a [Pairing] object: [inbox] holds what the
    successive calls of [recvfrom] will find, [events] what the object has
    done so far; [ip] and [mac] are the answers of [get_ip] and [get_mac]. *)
Record pairing : Type := {
  ip : list Z;
  mac : list Z;
  inbox : list poll;
  events : list event
}.

Definition emit (e : event) : M pairing unit :=
  modify (fun p =>
    {| ip := ip p; mac := mac p; inbox := inbox p; events := events p ++ [e] |}).

(** [self.sock.recvfrom(1024)]: OSError when nothing has arrived. *)
Definition recvfrom : M pairing (list Z * list Z) :=
  emit Recv;;
  do p <- get;
  match inbox p with
  | [] => raise (ValueError "EAGAIN")
  | x :: rest =>
      put {| ip := ip p; mac := mac p; inbox := rest; events := events p |};;
      match x with
      | NoData => raise (ValueError "EAGAIN")
      | Datagram data addr => ret (data, addr)
      end
  end.

(** [self.sock.sendto(json.dumps(doc).encode(), (host, port))]. *)
Definition sendto (doc : json) (host : json) (port : Z) : M pairing unit :=
  match host with
  | JStr h => emit (SendTo doc h port)
  | _ => raise TypeError
  end.

(** The truth value of a Python object. *)
Definition truthy (v : json) : bool :=
  match v with
  | JNull => false
  | JBool b => b
  | JInt n => negb (n =? 0)
  | JFloat q => negb (Qeq_bool q 0)
  | JStr s => negb (bool_decide (s = []))
  | JList l => negb (bool_decide (length l = 0%nat))
  | JDict d => negb (bool_decide (length d = 0%nat))
  end.

Section Discovery.

(** [json.loads]; [None] is the ValueError it raises. *)
Variable loads : list Z -> option json.

Definition json_loads (text : list Z) : outcome json :=
  of_option (ValueError "syntax error in JSON") (loads text).

(** The pairing request that [start] broadcasts. *)
Definition pairing_request (p : pairing) : json :=
  JDict [(str_of "type", JStr (str_of "pairing"));
         (str_of "ip", JStr (ip p));
         (str_of "hostname", JStr (str_of "esp32-client"));
         (str_of "mac", JStr (mac p))].

(** The [try] block of one round of [_wait_for_response]: [Some v] when it
    returns [message["ip"]]. *)
Definition poll_once : M pairing (option json) :=
  do '(data, addr) <- recvfrom;
  do text <- lift (decode data);
  do message <- lift (json_loads text);
  do t <- lift (py_dict_get message (str_of "type") JNull);
  if key_eqb t (JStr (str_of "hello"))
  then do v <- lift (py_item message (str_of "ip")); ret (Some v)
  else ret None.

(** [_wait_for_response]: [n] rounds are left of the ten. *)
Fixpoint wait_rounds (n : nat) : M pairing (option json) :=
  match n with
  | O => ret None
  | S n' =>
      do r <- try_except poll_once (fun _ => ret None);
      match r with
      | Some v => ret (Some v)
      | None => emit (Sleep 1);; wait_rounds n'
      end
  end.

Definition _wait_for_response : M pairing (option json) := wait_rounds 10.

Definition _send_paired_confirmation (server_ip : json) : M pairing unit :=
  sendto (JDict [(str_of "type", JStr (str_of "paired"));
                 (str_of "ip", server_ip)])
         server_ip 5000.

(** The [for i in range(5)] loop of [start]. *)
Fixpoint broadcast (n : nat) : M pairing unit :=
  match n with
  | O => ret tt
  | S n' =>
      do p <- get;
      sendto (pairing_request p) (JStr (str_of "255.255.255.255")) 5000;;
      emit (Sleep 1);;
      broadcast n'
  end.

(** [start]: [Ok None] is the [return None] of the source. *)
Definition start : M pairing (option json) :=
  emit (SetMode "pairing");;
  broadcast 5;;
  do server_ip <- _wait_for_response;
  match server_ip with
  | Some v =>
      if truthy v then _send_paired_confirmation v;; ret (Some v)
      else ret None
  | None => ret None
  end.

(** A datagram that the client takes for the server's hello. *)
Definition is_hello (x : poll) : bool :=
  match x with
  | NoData => false
  | Datagram data _ =>
      match obind (decode data) json_loads with
      | Ok (JDict d) =>
          match assoc (str_of "type") d with
          | Some t => key_eqb t (JStr (str_of "hello"))
          | None => false
          end
      | _ => false
      end
  end.

End Discovery.

End Pairing.

(** ** Inputs and reference definitions used by the properties *)

(** [MOTOR_PINS] of server/main.py. *)
Definition MOTOR_PINS : list (Z * Z * Z) :=
  [(21, 13, 12); (14, 27, 26); (25, 15, 32)].

(** An elevator on floor 1 that has been sent to [fl] and is on its way. *)
Definition moving_to (fl : Z) : Elevator.elevator :=
  {| Elevator.floor := 1; Elevator.target := Some fl;
     Elevator.status := Elevator.Moving;
     Elevator.queue := []; Elevator.active := false |}.

(** The manager with its three elevators moving and one pending call for
    floor 2. *)
Definition all_moving : Elevator.manager :=
  {| Elevator.motors := Motor.init MOTOR_PINS;
     Elevator.elevators := [moving_to 3; moving_to 2; moving_to 3];
     Elevator.call_queue := [(2, None)];
     Elevator.lock_held := false |}.

(** A text all of whose characters are ASCII. *)
Definition ascii_text (s : list Z) : Prop := Forall (fun c => 0 <= c < 128) s.

(** The header that the frame encoders write for a text of [n] characters. *)
Definition frame_header (n : Z) : list Z :=
  if n <? 126 then [0x81; n]
  else if n <? 65536 then [0x81; 126] ++ be_bytes 2 n
  else [0x81; 127] ++ be_bytes 8 n.

(** Following the specification's words for the client-to-server
    direction, for a payload shorter than 126 bytes: the mask bit is set, a
    4-byte key follows the header, and byte [i] of the payload is XORed with
    [key[i mod 4]]. *)
Definition spec_masked_frame (key payload : list Z) : list Z :=
  [0x81; Z.lor 0x80 (Z.of_nat (length payload))] ++ key
  ++ imap (fun i b => Z.lxor b (nth (i mod 4) key 0)) payload.

(** The commands of the wire protocol, as [json.loads] builds them. *)
Definition call_command (floor elevator_id : Z) : json :=
  JDict [(str_of "call",
          JDict [(str_of "floor", JInt floor); (str_of "elevator", JInt elevator_id)])].

Definition task_command (id motor floor : Z) : json :=
  JDict [(str_of "task",
          JDict [(str_of "id", JInt id); (str_of "motor", JInt motor);
                 (str_of "floor", JInt floor);
                 (str_of "action", JStr (str_of "move"))])].

Definition status_command (task_id : json) : json :=
  JDict [(str_of "status", JDict [(str_of "task_id", task_id)])].

(** The inbound commands that the server answers with an error document,
    and what it writes for each: a text that is not JSON; a JSON object with
    none of the four command keys; a task for an elevator that is not a key
    of the scheduler's table. *)
Inductive invalid_command (loads : list Z -> option json)
    (s : WebSocketServer.server) (message : list Z)
  : list WebSocketServer.wire -> Prop :=
| Unparsable :
    loads message = None ->
    invalid_command loads s message
      [WebSocketServer.ErrorDoc (ValueError "syntax error in JSON")]
| UnknownShape (d : list (list Z * json)) :
    loads message = Some (JDict d) ->
    assoc (str_of "call") d = None -> assoc (str_of "task") d = None ->
    assoc (str_of "status") d = None -> assoc (str_of "reset") d = None ->
    invalid_command loads s message
      [WebSocketServer.Doc WebSocketServer.invalid_request]
| UnknownElevator (id motor floor : Z) :
    loads message = Some (task_command id motor floor) ->
    Elevator.has_key (Elevator.elevators (WebSocketServer.elevator s)) motor = false ->
    invalid_command loads s message
      [WebSocketServer.Doc (WebSocketServer.task_response motor floor "processing");
       WebSocketServer.ErrorDoc (ValueError "Invalid elevator ID")].

(** A method leaves the part [f] of the state as it found it. *)
Definition keeps {S T A : Type} (f : S -> T) (m : M S A) : Prop :=
  forall s, f (snd (m s)) = f s.

(** The pairing object after one fruitless call of [recvfrom], and after it
    has logged the events [es]. *)
Definition polled (p : Pairing.pairing) : Pairing.pairing :=
  {| Pairing.ip := Pairing.ip p; Pairing.mac := Pairing.mac p;
     Pairing.inbox := tail (Pairing.inbox p);
     Pairing.events := Pairing.events p ++ [Pairing.Recv] |}.

Definition logged (es : list Pairing.event) (p : Pairing.pairing) : Pairing.pairing :=
  {| Pairing.ip := Pairing.ip p; Pairing.mac := Pairing.mac p;
     Pairing.inbox := Pairing.inbox p;
     Pairing.events := Pairing.events p ++ es |}.




(** The upgrade request that client/websocket.py sends to 192.168.4.1. *)
Definition upgrade_request : list Z :=
  str_of "GET / HTTP/1.1" ++ [13; 10]
  ++ str_of "Host: 192.168.4.1" ++ [13; 10]
  ++ str_of "Upgrade: websocket" ++ [13; 10]
  ++ str_of "Connection: Upgrade" ++ [13; 10]
  ++ str_of "Sec-WebSocket-Key: dGhlIHNhbXBsZSBub25jZQ==" ++ [13; 10]
  ++ str_of "Sec-WebSocket-Version: 13" ++ [13; 10; 13; 10].

(** The server as server/main.py builds it. *)
Definition server0 : WebSocketServer.server :=
  WebSocketServer.init (Elevator.init (Motor.init MOTOR_PINS)).

(** The server when [handle_client] has marked the client connected, and
    when its [finally] clause has run. *)
Definition entered (s : WebSocketServer.server) : WebSocketServer.server :=
  snd ((WebSocketServer.set_client_connected true;;
        WebSocketServer.set_mode "connected") s).

Definition left (s : WebSocketServer.server) : WebSocketServer.server :=
  snd ((WebSocketServer.set_client_connected false;;
        WebSocketServer.set_mode "connecting";;
        WebSocketServer.close) s).

(** A binary frame without payload, and the text frame of "reset". *)
Definition binary_frame : list Z := [0x82; 0].
Definition reset_frame : list Z := [0x81; 5] ++ str_of "reset".

(** ** Predicates used by the properties of the runs *)

(** The lists of a controller have one entry per channel. *)
Definition motor_consistent (c : Motor.controller) : Prop :=
  length (Motor.moving_status c) = length (Motor.motors c)
  /\ length (Motor.stop_request c) = length (Motor.motors c)
  /\ length (Motor.current_floor c) = length (Motor.motors c).

(** The pin writes and waits of step [i] of a rotation of [steps] steps. *)
Definition step_events (c : Motor.controller) (motor_index steps : Z) (i : nat)
  : list Motor.event :=
  [Motor.StepHigh motor_index; Motor.DelayUs (Motor.MIN_STEP_DELAY_US c);
   Motor.StepLow motor_index;
   Motor.DelayUs (Motor.calculate_delay c steps (Z.of_nat i))].

(** Two controllers with the same constants and the same bookkeeping lists,
    apart from the pins and the trace. *)
Definition same_books (c c' : Motor.controller) : Prop :=
  Motor.moving_status c' = Motor.moving_status c
  /\ Motor.current_steps c' = Motor.current_steps c
  /\ Motor.current_floor c' = Motor.current_floor c
  /\ Motor.STEPS_PER_FLOOR c' = Motor.STEPS_PER_FLOOR c
  /\ Motor.MIN_STEP_DELAY_US c' = Motor.MIN_STEP_DELAY_US c
  /\ Motor.ACCELERATION_STEPS c' = Motor.ACCELERATION_STEPS c
  /\ Motor.MAX_STEP_DELAY_US c' = Motor.MAX_STEP_DELAY_US c
  /\ length (Motor.motors c') = length (Motor.motors c).

(** Whether the stop request lands during one of the [k] steps that are
    left from step [cur] on. *)
Definition stop_lands (stop_at : option nat) (cur k : nat) : bool :=
  match stop_at with
  | Some j => bool_decide (cur <= j < cur + k)%nat
  | None => false
  end.

(** The number of steps that the loop of [rotate_motor] performs from step
    [cur] on when [k] steps are left: the stop request that lands during
    step [j] lets step [j] finish and ends the loop. *)
Definition steps_run (stop_at : option nat) (cur k : nat) : nat :=
  match stop_at with
  | Some j => if stop_lands stop_at cur k then (j + 1 - cur)%nat else k
  | None => k
  end.

(** No channel has a stop request pending. *)
Definition no_stop_pending (c : Motor.controller) : Prop :=
  Forall (fun b => b = false) (Motor.stop_request c).

(** The state of the scheduler between two of its methods: the lock is
    free, the controller is in order, every elevator has a channel, its queue
    is empty and its floor is a floor of the building and the one that the
    controller records for its channel. *)
Definition manager_sound (m : Elevator.manager) : Prop :=
  Elevator.lock_held m = false
  /\ motor_consistent (Elevator.motors m)
  /\ no_stop_pending (Elevator.motors m)
  /\ 0 < Motor.STEPS_PER_FLOOR (Elevator.motors m)
  /\ length (Elevator.elevators m) = length (Motor.motors (Elevator.motors m))
  /\ forall i e, Elevator.elevators m !! i = Some e ->
       Elevator.queue e = []
       /\ 1 <= Elevator.floor e <= 3
       /\ Motor.current_floor (Elevator.motors m) !! i = Some (Elevator.floor e).

(** The number of floors that a car on floor [from] passes when it visits
    the floors [dests] in order. *)
Fixpoint travel (from : Z) (dests : list Z) : Z :=
  match dests with
  | [] => 0
  | d :: rest => Z.abs (d - from) + travel d rest
  end.

(** What [_process_elevator_queue] needs of the scheduler for elevator [n],
    whose entry is [e]: the lock is free, the controller is in order and
    records the floor of the entry. *)
Definition ready_for (n : nat) (e : Elevator.elevator) (m : Elevator.manager) : Prop :=
  Elevator.lock_held m = false
  /\ motor_consistent (Elevator.motors m)
  /\ no_stop_pending (Elevator.motors m)
  /\ 0 < Motor.STEPS_PER_FLOOR (Elevator.motors m)
  /\ Elevator.elevators m !! n = Some e
  /\ Motor.current_floor (Elevator.motors m) !! n = Some (Elevator.floor e).

(** Two entries of [items()] in the order of their keys. *)
Definition by_key {B : Type} (a b : Z * B) : Prop := fst a < fst b.

(** A step of the server on a scheduler at rest: it ends without waiting,
    the scheduler is at rest again with as many elevators, and the writer
    has received [ws] more; [answering] when a step that returns has written
    something. *)
Definition steady {A : Type} (m : M WebSocketServer.server A) : Prop :=
  forall s, manager_sound (WebSocketServer.elevator s) ->
    exists r s' ws,
      m s = (r, s') /\ r <> Blocked
      /\ WebSocketServer.written s' = WebSocketServer.written s ++ ws
      /\ manager_sound (WebSocketServer.elevator s')
      /\ length (Elevator.elevators (WebSocketServer.elevator s'))
         = length (Elevator.elevators (WebSocketServer.elevator s)).

Definition answering {A : Type} (m : M WebSocketServer.server A) : Prop :=
  forall s, manager_sound (WebSocketServer.elevator s) ->
    exists r s' ws,
      m s = (r, s') /\ r <> Blocked
      /\ WebSocketServer.written s' = WebSocketServer.written s ++ ws
      /\ manager_sound (WebSocketServer.elevator s')
      /\ length (Elevator.elevators (WebSocketServer.elevator s'))
         = length (Elevator.elevators (WebSocketServer.elevator s))
      /\ (forall a, r = Ok a -> ws <> []).


(** A text of printable characters other than the space. *)
Definition printable (s : list Z) : Prop := Forall (fun c => 32 < c < 127) s.

(** A header line without its line end: ASCII, no newline, no white space
    at either end. *)
Definition header_line (l : list Z) : Prop :=
  ascii_text l
  /\ Forall (fun c => c <> 10) l
  /\ (exists c s, l = c :: s /\ is_space c = false)
  /\ (exists y, last l = Some y /\ is_space y = false).

(** The server's answer to the key that the client always sends. *)
Definition switching_protocols : list Z :=
  WebSocketServer.response (str_of "s3pPLMBiTxaQ9kYGzzhZRbK+xOo=").

(** * Properties *)

(** ** The motion profile *)






Section Profile.

Import Motor.

Variable c : controller.
Let acc := ACCELERATION_STEPS c.
Let maxd := MAX_STEP_DELAY_US c.
Let mind := MIN_STEP_DELAY_US c.

Hypothesis acc_pos : 0 < acc.
Hypothesis mind_nonneg : 0 <= mind.
Hypothesis mind_le_maxd : mind <= maxd.








End Profile.



(** ** The motor: an aborted move *)

Lemma py_norm_lt {A : Type} (l : list A) (i : Z) (n : nat) :
  py_norm l i = Some n -> (n < length l)%nat.
Proof.
  unfold py_norm. intros H.
  destruct (Z.leb_spec 0 i).
  - destruct (Z.ltb_spec i (Z.of_nat (length l))); [|done].
    injection H as <-. lia.
  - destruct (Z.leb_spec (- Z.of_nat (length l)) i); [|done].
    injection H as <-. lia.
Qed.

Lemma py_norm_insert {A : Type} (l : list A) (i : Z) (n : nat) (x : A) :
  py_norm (<[n:=x]> l) i = py_norm l i.
Proof. unfold py_norm. by rewrite length_insert. Qed.

Lemma py_get_set_same {A : Type} (l l' : list A) (i : Z) (x : A) :
  py_set l i x = Ok l' -> py_get l' i = Ok x.
Proof.
  unfold py_set, py_get. destruct (py_norm l i) as [n|] eqn:Hn; [|done].
  intros [= <-]. rewrite py_norm_insert, Hn.
  rewrite list_lookup_insert_eq; [done|]. by eapply py_norm_lt.
Qed.

(** Whatever the stop request did to the rotation, a move that returns
    has recorded the requested floor. *)
Lemma move_to_floor_records_target (c c' : Motor.controller)
    (motor_index target_floor : Z) (stop_at : option nat) :
  Motor.move_to_floor motor_index target_floor stop_at c = (Ok tt, c') ->
  py_get (Motor.current_floor c') motor_index = Ok target_floor.
Proof.
  unfold Motor.move_to_floor, bind, get, lift, ret, raise.
  destruct (py_get (Motor.current_floor c) motor_index) as [cf| |] eqn:Hcf; try done.
  destruct (motor_index >=? _); [done|].
  destruct ((target_floor <? 1) || (target_floor >? 3)); [done|].
  destruct (Z.eqb_spec cf target_floor) as [->|Hne].
  - by intros [= <-].
  - destruct (Motor.rotate_motor _ _ _ _ c) as [[[]| |] c1]; try done.
    destruct (py_set (Motor.current_floor c1) motor_index target_floor)
      as [l| |] eqn:Hset; try done.
    unfold put. intros [= <-]. simpl. by eapply py_get_set_same.
Qed.

(** C1.  Evaluation at the failing input: channel 0 is on floor 1 and is
    sent to floor 3 (1100 steps); a stop request arrives during the first
    step.  The rotation ends after one pulse, the request is still pending,
    and [move_to_floor] has recorded floor 3 for the channel. *)
Theorem move_to_floor_aborted_records_target :
  exists c',
    Motor.move_to_floor 0 3 (Some 0%nat) (Motor.init MOTOR_PINS) = (Ok tt, c')
    /\ Motor.pulses (Motor.trace c') = 1%nat
    /\ (Z.to_nat (Z.abs (3 - 1) * Motor.STEPS_PER_FLOOR c') = 1100)%nat
    /\ Motor.stop_request c' = [true; false; false]
    /\ Motor.current_floor c' = [3; 1; 1].
Proof.
  eexists. split; [vm_compute; reflexivity|]. vm_compute. done.
Qed.

(** ** The scheduler: a call while every elevator is moving *)

Lemma select_best_never_none (l : list Elevator.elevator) (fl : Z) :
  Elevator.select_best l fl <> Ok None.
Proof.
  unfold Elevator.select_best.
  destruct (List.find _ _) as [[]|]; [done|].
  destruct (map _ (List.filter _ _)); [|done].
  destruct (map _ l); [done|].
  destruct (List.find _ _) as [[]|]; done.
Qed.

Lemma items_lookup (l : list Elevator.elevator) (i : Z) (e : Elevator.elevator) :
  In (i, e) (Elevator.items l) -> 0 <= i /\ l !! Z.to_nat i = Some e.
Proof.
  unfold Elevator.items. intros H. apply list_elem_of_In in H.
  apply elem_of_lookup_imap in H as (n & e' & [= -> ->] & Hl).
  split; [lia|]. by rewrite Nat2Z.id.
Qed.

Lemma select_best_all_moving (l : list Elevator.elevator) (fl : Z) :
  l <> [] ->
  Forall (fun e => Elevator.status e = Elevator.Moving) l ->
  exists i e, Elevator.select_best l fl = Ok (Some i)
              /\ Elevator.dict_get l i = Ok e
              /\ Elevator.status e = Elevator.Moving.
Proof.
  intros Hne Hall. unfold Elevator.select_best.
  assert (Hidle : forall p, In p (Elevator.items l) ->
            bool_decide (Elevator.status (snd p) = Elevator.Idle) = false).
  { intros [i e] Hin. apply items_lookup in Hin as [_ Hl].
    rewrite Forall_lookup in Hall. specialize (Hall _ _ Hl). simpl.
    apply bool_decide_eq_false. congruence. }
  destruct (List.find _ _) as [[i e]|] eqn:Hfind.
  { apply find_some in Hfind as [Hin Hc]. rewrite (Hidle _ Hin) in Hc.
    by rewrite andb_false_r in Hc. }
  clear Hfind.
  assert (Hnil : List.filter (fun p => bool_decide (Elevator.status (snd p) = Elevator.Idle))
                   (Elevator.items l) = []).
  { induction (Elevator.items l) as [|p ps IH]; [done|]. simpl.
    rewrite (Hidle p) by (by left). apply IH. intros q Hq. apply Hidle. by right. }
  rewrite Hnil. simpl.
  destruct l as [|e0 l']; [done|]. simpl map.
  generalize (Elevator.py_min_by id (Z.of_nat (length (Elevator.queue e0)))
    (map (fun e => Z.of_nat (length (Elevator.queue e))) l')). intros mq.
  destruct (List.find _ _) as [[i e]|] eqn:Hfind.
  - apply find_some in Hfind as [Hin _].
    pose proof (items_lookup _ _ _ Hin) as [Hi Hl].
    exists i, e. split; [done|]. split.
    + unfold Elevator.dict_get, Elevator.has_key.
      pose proof (lookup_lt_Some _ _ _ Hl).
      destruct (Z.leb_spec 0 i); [|lia].
      destruct (Z.ltb_spec i (Z.of_nat (length (e0 :: l')))); [|lia].
      simpl. by rewrite Hl.
    + rewrite Forall_lookup in Hall. by eapply Hall.
  - exists 0, e0. split; [done|]. split; [done|].
    by inversion Hall.
Qed.

(** A turn of the queue loop that finds a call never gets past the
    selection: it holds the lock that the selection asks for. *)
Lemma process_queues_turn_blocks (m : Elevator.manager) (fl : Z)
    (preferred : option Z) (rest : list (Z * option Z)) :
  Elevator.lock_held m = false ->
  Elevator.call_queue m = (fl, preferred) :: rest ->
  Elevator._process_queues_turn m
  = (Blocked, Elevator.with_call_queue rest (Elevator.with_lock_held true m)).
Proof.
  intros Hlock Hq. destruct m as [mc els cq lk]. cbn in Hlock, Hq. subst lk cq.
  reflexivity.
Qed.

(** On an empty queue the turn sleeps and gives the lock back. *)
Lemma process_queues_turn_waits (m : Elevator.manager) :
  Elevator.lock_held m = false ->
  Elevator.call_queue m = [] ->
  Elevator._process_queues_turn m = (Ok Elevator.Waited, m).
Proof.
  intros Hlock Hq. destruct m as [mc els cq lk]. cbn in Hlock, Hq. subst lk cq.
  reflexivity.
Qed.

(** C2.  Evaluation at the failing input: the three elevators are moving
    and one call for floor 2 is pending.  The selection returns elevator 0,
    which is moving, never [None]; the turn of the queue loop takes the call
    off the queue and then waits for ever on the lock it already holds: the
    call is neither appended again nor retried. *)
Theorem process_queues_turn_all_moving :
  Elevator.select_best (Elevator.elevators all_moving) 2 = Ok (Some 0)
  /\ (Elevator.status <$> Elevator.elevators all_moving !! 0%nat) = Some Elevator.Moving
  /\ exists m',
       Elevator._process_queues_turn all_moving = (Blocked, m')
       /\ Elevator.call_queue m' = []
       /\ Elevator.lock_held m' = true.
Proof.
  split; [vm_compute; reflexivity|]. split; [reflexivity|].
  eexists. split; [vm_compute; reflexivity|]. done.
Qed.

(** ** The frame codec *)

Lemma encode_ascii (s : list Z) : ascii_text s -> encode s = Ok s.
Proof.
  induction 1 as [|c s Hc _ IH]; [done|].
  simpl. unfold utf8_char.
  destruct (Z.ltb_spec c 0); [lia|].
  destruct (Z.ltb_spec 0x10FFFF c); [lia|]. simpl.
  destruct (Z.leb_spec 0xD800 c); [lia|]. simpl.
  destruct (Z.ltb_spec c 0x80); [|lia]. simpl. by rewrite IH.
Qed.

Lemma utf8_decode_ascii (s : list Z) : ascii_text s -> utf8_decode s = Some s.
Proof.
  induction 1 as [|c s Hc _ IH]; [done|].
  simpl.
  destruct (Z.ltb_spec c 0); [lia|].
  destruct (Z.ltb_spec 255 c); [lia|]. simpl.
  destruct (Z.ltb_spec c 0x80); [|lia]. by rewrite IH.
Qed.

Lemma decode_ascii (s : list Z) : ascii_text s -> decode s = Ok s.
Proof. intros H. unfold decode. by rewrite utf8_decode_ascii. Qed.

Lemma length_be_bytes (k : nat) (n : Z) : length (be_bytes k n) = k.
Proof.
  revert n. induction k as [|k IH]; intros n; [done|].
  simpl. rewrite length_app, IH. simpl. lia.
Qed.

Lemma from_bytes_app (bs : list Z) (b : Z) :
  from_bytes (bs ++ [b]) = from_bytes bs * 256 + b.
Proof. unfold from_bytes. by rewrite fold_left_app. Qed.

Lemma from_bytes_be_bytes (k : nat) (n : Z) :
  0 <= n -> from_bytes (be_bytes k n) = n mod 256 ^ Z.of_nat k.
Proof.
  revert n. induction k as [|k IH]; intros n Hn.
  - simpl. by rewrite Z.mod_1_r.
  - cbn [be_bytes]. rewrite from_bytes_app, IH by (apply Z.div_pos; lia).
    rewrite Nat2Z.inj_succ, Z.pow_succ_r by lia.
    rewrite (Z.rem_mul_r n 256 (256 ^ Z.of_nat k)) by lia. lia.
Qed.

Lemma land_mask_bit_clear (n : Z) : 0 <= n < 128 -> Z.land n 0x80 = 0.
Proof.
  intros Hn. apply Z.bits_inj'. intros i Hi.
  rewrite Z.land_spec, Z.bits_0.
  change 0x80 with (2 ^ 7). rewrite Z.pow2_bits_eqb by lia.
  destruct (Z.eqb_spec 7 i) as [<-|]; [|by rewrite andb_false_r].
  rewrite andb_true_r. apply Z.bits_above_log2; [lia|].
  destruct (Z.eq_dec n 0) as [->|]; [done|].
  apply Z.log2_lt_pow2; lia.
Qed.

Lemma land_low7 (n : Z) : 0 <= n < 128 -> Z.land n 0x7F = n.
Proof.
  intros Hn. change 0x7F with (Z.ones 7). rewrite Z.land_ones by lia.
  apply Z.mod_small. lia.
Qed.

Lemma read_exact (n : Z) (l rest : list Z) :
  Z.to_nat n = length l -> read n (l ++ rest) = (Ok l, rest).
Proof.
  intros H. unfold read. rewrite H.
  by rewrite take_app_length, drop_app_length.
Qed.

Lemma py_get_0 {A : Type} (a : A) (l : list A) : py_get (a :: l) 0 = Ok a.
Proof.
  unfold py_get, py_norm. cbn [length].
  destruct (Z.ltb_spec 0 (Z.of_nat (S (length l)))); [done | lia].
Qed.

Lemma py_get_1 {A : Type} (a b : A) (l : list A) : py_get (a :: b :: l) 1 = Ok b.
Proof.
  unfold py_get, py_norm. cbn [length].
  destruct (Z.ltb_spec 1 (Z.of_nat (S (S (length l))))); [done | lia].
Qed.

(** The run of [WebSocketServer.receive_frame] on a stream that holds at least the two
    header bytes. *)
Lemma receive_frame_header (h0 h1 : Z) (rest : list Z) :
  WebSocketServer.receive_frame (h0 :: h1 :: rest) =
  (do length <-
     (if Z.land h1 0x7F =? 126 then do b <- read 2; ret (from_bytes b)
      else if Z.land h1 0x7F =? 127 then do b <- read 8; ret (from_bytes b)
      else ret (Z.land h1 0x7F));
   do masking_key <- (if Z.shiftr (Z.land h1 0x80) 7 =? 0 then ret [] else read 4);
   do data <- read length;
   do data <- (if Z.shiftr (Z.land h1 0x80) 7 =? 0 then ret data
               else lift (unmask masking_key data 0));
   if Z.land h0 0x0F =? WebSocketServer.WS_OPCODE_TEXT
   then do text <- lift (decode data); ret (Some text)
   else ret None) rest.
Proof.
  unfold WebSocketServer.receive_frame. unfold bind at 1. unfold read at 1.
  change (Z.to_nat 2) with 2%nat. cbn [take drop app].
  rewrite take_0, drop_0.
  unfold bind at 1. unfold lift at 1. rewrite py_get_0.
  unfold bind at 1. unfold lift at 1. rewrite py_get_1.
  reflexivity.
Qed.

Lemma receive_frame_short (n : Z) (payload text : list Z) :
  0 <= n < 126 -> Z.of_nat (length payload) = n -> decode payload = Ok text ->
  WebSocketServer.receive_frame ([0x81; n] ++ payload) = (Ok (Some text), []).
Proof.
  intros Hn Hlen Hdec. cbn [app]. rewrite receive_frame_header.
  rewrite land_low7, land_mask_bit_clear by lia.
  destruct (Z.eqb_spec n 126); [lia|]. destruct (Z.eqb_spec n 127); [lia|].
  change (Z.shiftr 0 7 =? 0) with true. change (Z.land 0x81 0x0F =? WebSocketServer.WS_OPCODE_TEXT) with true.
  cbv beta iota.
  unfold bind, ret, lift.
  rewrite <- (app_nil_r payload) at 1. rewrite read_exact by lia.
  by rewrite Hdec.
Qed.

Lemma receive_frame_medium (n : Z) (payload text : list Z) :
  126 <= n < 65536 -> Z.of_nat (length payload) = n -> decode payload = Ok text ->
  WebSocketServer.receive_frame ([0x81; 126] ++ be_bytes 2 n ++ payload) = (Ok (Some text), []).
Proof.
  intros Hn Hlen Hdec. cbn [app]. rewrite receive_frame_header.
  change (Z.land 126 0x7F =? 126) with true.
  change (Z.shiftr (Z.land 126 0x80) 7 =? 0) with true.
  change (Z.land 0x81 0x0F =? WebSocketServer.WS_OPCODE_TEXT) with true.
  cbv beta iota.
  unfold bind, ret, lift.
  rewrite read_exact by (by rewrite length_be_bytes).
  rewrite from_bytes_be_bytes by lia.
  change (256 ^ Z.of_nat 2) with 65536. rewrite Z.mod_small by lia.
  rewrite <- (app_nil_r payload) at 1. rewrite read_exact by lia.
  by rewrite Hdec.
Qed.

Lemma receive_frame_long (n : Z) (payload text : list Z) :
  65536 <= n < 2 ^ 64 -> Z.of_nat (length payload) = n -> decode payload = Ok text ->
  WebSocketServer.receive_frame ([0x81; 127] ++ be_bytes 8 n ++ payload) = (Ok (Some text), []).
Proof.
  intros Hn Hlen Hdec. cbn [app]. rewrite receive_frame_header.
  change (Z.land 127 0x7F =? 126) with false.
  change (Z.land 127 0x7F =? 127) with true.
  change (Z.shiftr (Z.land 127 0x80) 7 =? 0) with true.
  change (Z.land 0x81 0x0F =? WebSocketServer.WS_OPCODE_TEXT) with true.
  cbv beta iota.
  unfold bind, ret, lift.
  rewrite read_exact by (by rewrite length_be_bytes).
  rewrite from_bytes_be_bytes by lia.
  change (256 ^ Z.of_nat 8) with (2 ^ 64). rewrite Z.mod_small by lia.
  rewrite <- (app_nil_r payload) at 1. rewrite read_exact by lia.
  by rewrite Hdec.
Qed.

(** The frame of a text whose characters are all ASCII decodes to the
    text, whatever its length below 2^64: the character count that
    [WebSocketServer.send_frame] puts in the header is then the byte count. *)
Lemma frame_roundtrip_ascii (m : list Z) :
  ascii_text m -> Z.of_nat (length m) < 2 ^ 64 ->
  exists frame,
    WebSocketServer.send_frame m [] = (Ok tt, frame)
    /\ WebSocketServer.receive_frame frame = (Ok (Some m), []).
Proof.
  intros Hm Hlen. unfold WebSocketServer.send_frame.
  set (n := Z.of_nat (length m)) in *.
  assert (0 <= n) by lia.
  destruct (Z.ltb_spec n 126).
  - eexists. split.
    + unfold bind, ret, modify, lift. rewrite encode_ascii by done. reflexivity.
    + apply receive_frame_short; [lia | done | by apply decode_ascii].
  - destruct (Z.ltb_spec n 65536).
    + eexists. split.
      * unfold bind, ret, modify, lift, to_bytes.
        destruct (Z.leb_spec 0 n); [|lia].
        destruct (Z.ltb_spec n (256 ^ Z.of_nat 2)); [|lia].
        cbn [andb]. rewrite encode_ascii by done. reflexivity.
      * cbn [app]. apply (receive_frame_medium n); [lia | done | by apply decode_ascii].
    + eexists. split.
      * unfold bind, ret, modify, lift, to_bytes.
        destruct (Z.leb_spec 0 n); [|lia].
        destruct (Z.ltb_spec n (256 ^ Z.of_nat 8)); [|lia].
        cbn [andb]. rewrite encode_ascii by done. reflexivity.
      * cbn [app]. apply (receive_frame_long n); [lia | done | by apply decode_ascii].
Qed.

(** C3.  Evaluation at the failing input, the one-character text U+00E9:
    [send_frame] writes the character count 1 in the header and the two
    bytes of the character after it; [receive_frame] reads one payload byte
    and fails to decode it, leaving the second byte in the stream. *)
Theorem frame_roundtrip_fails_on_non_ascii :
  WebSocketServer.send_frame [0xE9] [] = (Ok tt, [0x81; 1; 0xC3; 0xA9])
  /\ encode [0xE9] = Ok [0xC3; 0xA9]
  /\ WebSocketServer.receive_frame [0x81; 1; 0xC3; 0xA9] = (Raise UnicodeError, [0xA9]).
Proof. vm_compute. done. Qed.

(** ** The client's frame encoder *)

Lemma client_send_frame_bytes (data payload w : list Z) :
  encode data = Ok payload -> Z.of_nat (length data) < 2 ^ 64 ->
  WebSocketClient.send_frame data w
  = (Ok tt, w ++ frame_header (Z.of_nat (length data)) ++ payload).
Proof.
  intros Henc Hlen. unfold WebSocketClient.send_frame, frame_header.
  set (n := Z.of_nat (length data)) in *.
  assert (0 <= n) by lia.
  unfold bind, ret, modify, lift, to_bytes.
  destruct (Z.ltb_spec n 126).
  - rewrite Henc. by rewrite <- app_assoc.
  - destruct (Z.ltb_spec n 65536).
    + destruct (Z.leb_spec 0 n); [|lia].
      destruct (Z.ltb_spec n (256 ^ Z.of_nat 2)); [|lia].
      cbn [andb]. rewrite Henc. by rewrite <- app_assoc.
    + destruct (Z.leb_spec 0 n); [|lia].
      destruct (Z.ltb_spec n (256 ^ Z.of_nat 8)); [|lia].
      cbn [andb]. rewrite Henc. by rewrite <- app_assoc.
Qed.

(** C9, as amended.  For every text the client sends, [send_frame] writes
    a header of 2, 4 or 10 bytes whose first byte is 0x81 and whose second
    byte has the mask bit clear, and directly after it the UTF-8 bytes of
    the text, unchanged: there is no masking key. *)
Theorem client_frame_is_unmasked (data payload w : list Z) :
  encode data = Ok payload -> Z.of_nat (length data) < 2 ^ 64 ->
  exists header b,
    WebSocketClient.send_frame data w = (Ok tt, w ++ header ++ payload)
    /\ length header = WebSocketClient.header_length (Z.of_nat (length data))
    /\ header !! 0%nat = Some 0x81
    /\ header !! 1%nat = Some b
    /\ Z.land b 0x80 = 0.
Proof.
  intros Henc Hlen.
  pose proof (client_send_frame_bytes data payload w Henc Hlen) as Hsend.
  unfold frame_header in Hsend. unfold WebSocketClient.header_length.
  set (n := Z.of_nat (length data)) in *.
  destruct (Z.ltb_spec n 126).
  - exists [0x81; n], n. repeat split; try done.
    apply land_mask_bit_clear. lia.
  - destruct (Z.ltb_spec n 65536).
    + exists ([0x81; 126] ++ be_bytes 2 n), 126. repeat split; try done.
      all: rewrite length_app, length_be_bytes; done.
    + exists ([0x81; 127] ++ be_bytes 8 n), 127. repeat split; try done.
      all: rewrite length_app, length_be_bytes; done.
Qed.

Lemma client_frame_is_unmasked_witness :
  encode (str_of "reset") = Ok (str_of "reset")
  /\ exists header b,
    WebSocketClient.send_frame (str_of "reset") []
    = (Ok tt, [] ++ header ++ str_of "reset")
    /\ length header = WebSocketClient.header_length 5
    /\ header !! 0%nat = Some 0x81
    /\ header !! 1%nat = Some b
    /\ Z.land b 0x80 = 0.
Proof.
  split; [reflexivity|].
  apply (client_frame_is_unmasked (str_of "reset") (str_of "reset") []).
  - reflexivity.
  - vm_compute. reflexivity.
Defined.

(** C9, counterexample.  The frame the client writes for the text "A" has
    the mask bit clear and is not the masked frame of the specification,
    whatever the key. *)
Lemma client_frame_mask_bit_counterexample :
  WebSocketClient.send_frame [65] [] = (Ok tt, [0x81; 1; 65])
  /\ Z.land 1 0x80 = 0
  /\ forall key, length key = 4%nat -> [0x81; 1; 65] <> spec_masked_frame key [65].
Proof.
  split; [reflexivity|]. split; [reflexivity|].
  intros key Hkey. unfold spec_masked_frame. simpl. intros [=].
Qed.

(** ** Discovery: the client without an answer *)

Section PairingTimeout.

Import Pairing.

Variable loads : list Z -> option json.

Lemma poll_round_without_hello (p : pairing) :
  Forall (fun x => is_hello loads x = false) (inbox p) ->
  try_except (poll_once loads) (fun _ => ret None) p = (Ok None, polled p).
Proof.
  intros Hin. unfold try_except, poll_once, recvfrom, bind, emit, modify, get, put,
    raise, ret, lift. simpl.
  destruct (inbox p) as [|x rest] eqn:Hbox; [unfold polled; rewrite Hbox; reflexivity|].
  apply Forall_cons in Hin as [Hx _].
  unfold polled. rewrite Hbox. simpl.
  destruct x as [|data addr]; [done|].
  unfold is_hello, obind, decode, json_loads in *.
  destruct (utf8_decode data) as [text|]; simpl in *; try reflexivity.
  destruct (loads text) as [message|]; simpl in *; try reflexivity.
  destruct message; simpl; try reflexivity.
  destruct (assoc (str_of "type") d) as [t|]; simpl.
  - rewrite Hx. reflexivity.
  - reflexivity.
Qed.

Lemma wait_rounds_without_hello (n : nat) (p : pairing) :
  Forall (fun x => is_hello loads x = false) (inbox p) ->
  exists p',
    wait_rounds loads n p = (Ok None, p')
    /\ ip p' = ip p /\ mac p' = mac p
    /\ inbox p' = drop n (inbox p)
    /\ events p' = events p ++ concat (replicate n [Recv; Sleep 1]).
Proof.
  revert p. induction n as [|n IH]; intros p Hin.
  - exists p. simpl. unfold ret. rewrite drop_0, app_nil_r. done.
  - cbn [wait_rounds]. unfold bind at 1.
    rewrite poll_round_without_hello by done.
    unfold bind at 1. unfold emit, modify.
    set (p1 := {| ip := _ |}).
    destruct (IH p1) as (p' & Hrun & Hip & Hmac & Hbox & Hev).
    { subst p1. simpl. destruct (inbox p); [done|]. by apply Forall_cons in Hin as [_ ?]. }
    exists p'. rewrite Hrun. subst p1. simpl in *.
    split; [reflexivity|]. split; [assumption|]. split; [assumption|]. split.
    + rewrite Hbox. destruct (inbox p); [simpl; by rewrite drop_nil | reflexivity].
    + rewrite Hev. rewrite <- !app_assoc. reflexivity.
Qed.

Lemma broadcast_events (n : nat) (p : pairing) :
  broadcast n p
  = (Ok tt, logged (concat (replicate n
                      [SendTo (pairing_request p) (str_of "255.255.255.255") 5000;
                       Sleep 1])) p).
Proof.
  revert p. induction n as [|n IH]; intros p.
  - simpl. unfold ret, logged. rewrite app_nil_r. by destruct p.
  - cbn [broadcast]. unfold bind, get, sendto, emit, modify. simpl.
    rewrite IH. unfold logged, pairing_request. simpl.
    by rewrite <- !app_assoc.
Qed.

(** C5.  When none of the datagrams that arrive is a hello, [start]
    returns [None] (the pairing has timed out) after the five broadcasts and
    exactly ten polling rounds, each a [recvfrom] followed by a sleep of one
    second. *)
Theorem pairing_times_out_after_ten_rounds (p : pairing) :
  Forall (fun x => is_hello loads x = false) (inbox p) ->
  exists p',
    start loads p = (Ok None, p')
    /\ events p' =
         events p ++ [SetMode "pairing"]
         ++ concat (replicate 5 [SendTo (pairing_request p) (str_of "255.255.255.255") 5000;
                                 Sleep 1])
         ++ concat (replicate 10 [Recv; Sleep 1])
    /\ inbox p' = drop 10 (inbox p).
Proof.
  intros Hin. unfold start. unfold bind at 1. unfold emit at 1, modify.
  unfold bind at 1. rewrite broadcast_events.
  unfold bind at 1. unfold _wait_for_response.
  set (p1 := logged _ _).
  destruct (wait_rounds_without_hello 10 p1) as (p' & Hrun & _ & _ & Hbox & Hev).
  { done. }
  exists p'. rewrite Hrun. unfold ret. split; [done|].
  rewrite Hev, Hbox. subst p1. simpl. by rewrite <- !app_assoc.
Qed.

End PairingTimeout.

(** A socket on which nothing but noise arrives. *)
Lemma pairing_times_out_witness :
  Forall (fun x => Pairing.is_hello (fun _ => None) x = false)
    [Pairing.NoData; Pairing.Datagram [104; 105] (str_of "192.168.4.1")]
  /\ exists p',
    Pairing.start (fun _ => None)
      {| Pairing.ip := str_of "192.168.4.2"; Pairing.mac := str_of "3c71bf5a5414";
         Pairing.inbox := [Pairing.NoData;
                           Pairing.Datagram [104; 105] (str_of "192.168.4.1")];
         Pairing.events := [] |}
    = (Ok None, p')
    /\ Pairing.events p' =
         [] ++ [Pairing.SetMode "pairing"]
         ++ concat (replicate 5
              [Pairing.SendTo
                 (Pairing.pairing_request
                    {| Pairing.ip := str_of "192.168.4.2";
                       Pairing.mac := str_of "3c71bf5a5414";
                       Pairing.inbox := [Pairing.NoData;
                                         Pairing.Datagram [104; 105] (str_of "192.168.4.1")];
                       Pairing.events := [] |})
                 (str_of "255.255.255.255") 5000;
               Pairing.Sleep 1])
         ++ concat (replicate 10 [Pairing.Recv; Pairing.Sleep 1])
    /\ Pairing.inbox p' = drop 10 [Pairing.NoData;
                                   Pairing.Datagram [104; 105] (str_of "192.168.4.1")].
Proof.
  split; [repeat constructor|].
  apply (pairing_times_out_after_ten_rounds (fun _ => None)
           {| Pairing.ip := str_of "192.168.4.2"; Pairing.mac := str_of "3c71bf5a5414";
              Pairing.inbox := [Pairing.NoData;
                                Pairing.Datagram [104; 105] (str_of "192.168.4.1")];
              Pairing.events := [] |}).
  repeat constructor.
Defined.

(** ** The session: what the handlers leave untouched *)

Section Keeps.

Context {S T : Type} (f : S -> T).

Lemma keeps_ret {A : Type} (a : A) : keeps f (ret a).
Proof. by intros s. Qed.

Lemma keeps_raise {A : Type} (e : exn) : keeps f (raise (A := A) e).
Proof. by intros s. Qed.

Lemma keeps_block {A : Type} : keeps f (block (A := A)).
Proof. by intros s. Qed.

Lemma keeps_lift {A : Type} (r : outcome A) : keeps f (lift r).
Proof. by intros s. Qed.

Lemma keeps_get : keeps f get.
Proof. by intros s. Qed.

Lemma keeps_bind {A B : Type} (m : M S A) (k : A -> M S B) :
  keeps f m -> (forall a, keeps f (k a)) -> keeps f (bind m k).
Proof.
  intros Hm Hk s. unfold bind. specialize (Hm s).
  destruct (m s) as [[a| |] s']; simpl in *; try done.
  by rewrite Hk.
Qed.

Lemma keeps_try_except {A : Type} (m : M S A) (h : exn -> M S A) :
  keeps f m -> (forall e, keeps f (h e)) -> keeps f (try_except m h).
Proof.
  intros Hm Hh s. unfold try_except. specialize (Hm s).
  destruct (m s) as [[a| |] s']; simpl in *; try done.
  by rewrite Hh.
Qed.

Lemma keeps_try_finally {A : Type} (m : M S A) (fin : M S unit) :
  keeps f m -> keeps f fin -> keeps f (try_finally m fin).
Proof.
  intros Hm Hf s. unfold try_finally. specialize (Hm s).
  destruct (m s) as [[a| |] s']; simpl in *; try done;
    specialize (Hf s'); destruct (fin s') as [[| |] s'']; simpl in *; congruence.
Qed.

End Keeps.

Lemma keeps_modify {S T : Type} (f : S -> T) (g : S -> S) :
  (forall s, f (g s) = f s) -> keeps f (modify g).
Proof. intros H s. apply H. Qed.

Lemma keeps_zoom {S T U A : Type} (f : S -> U) (proj : S -> T) (upd : S -> T -> S)
    (m : M T A) :
  (forall s t, f (upd s t) = f s) -> keeps f (zoom proj upd m).
Proof. intros H s. unfold zoom. destruct (m (proj s)). apply H. Qed.

Ltac keeps_step :=
  first
    [ apply keeps_ret | apply keeps_raise | apply keeps_block | apply keeps_lift
    | apply keeps_get
    | apply keeps_modify; intros; reflexivity
    | apply keeps_zoom; intros; reflexivity
    | apply keeps_bind; [| intros ?]
    | apply keeps_try_except; [| intros ?]
    | apply keeps_try_finally
    | match goal with
      | |- keeps _ (if ?b then _ else _) => destruct b
      | |- keeps _ (match ?x with _ => _ end) => destruct x
      end ].

Ltac keeps_auto := repeat keeps_step.

Section Status.

Import WebSocketServer.

Variable loads : list Z -> option json.
Variable int_of_str : list Z -> option Z.

Lemma handle_call_keeps_tasks (d : json) : keeps tasks (handle_call int_of_str d).
Proof. unfold handle_call, write, create_task, on_elevator. keeps_auto. Qed.

Lemma handle_task_keeps_tasks (d : json) : keeps tasks (handle_task int_of_str d).
Proof. unfold handle_task, write, on_elevator. keeps_auto. Qed.

Lemma handle_status_keeps_tasks (d : json) : keeps tasks (handle_status d).
Proof. unfold handle_status, write. keeps_auto. Qed.

Lemma handle_reset_keeps_tasks : keeps tasks handle_reset.
Proof. unfold handle_reset, write, on_elevator. keeps_auto. Qed.

(** No handler writes the task table. *)
Lemma process_message_keeps_tasks (message : list Z) :
  keeps tasks (process_message loads int_of_str message).
Proof.
  unfold process_message.
  apply keeps_try_except; [| intros e; unfold write; keeps_auto].
  apply keeps_bind; [keeps_auto | intros data].
  repeat (apply keeps_bind; [keeps_auto | intros ?];
          match goal with |- keeps _ (if ?b then _ else _) => destruct b end).
  - apply keeps_bind; [keeps_auto | intros ?]. apply handle_call_keeps_tasks.
  - apply keeps_bind; [keeps_auto | intros ?]. apply handle_task_keeps_tasks.
  - apply keeps_bind; [keeps_auto | intros ?]. apply handle_status_keeps_tasks.
  - apply handle_reset_keeps_tasks.
  - unfold write. keeps_auto.
Qed.

Lemma after_messages_tasks (messages : list (list Z)) (s : server) :
  tasks (after_messages loads int_of_str messages s) = tasks s.
Proof.
  revert s. induction messages as [|m rest IH]; intros s; [done|].
  simpl. rewrite IH. apply process_message_keeps_tasks.
Qed.

Lemma status_not_found_when_empty (message : list Z) (task_id : json) (s : server) :
  loads message = Some (status_command task_id) ->
  hashable task_id = true ->
  tasks s = [] ->
  process_message loads int_of_str message s
  = (Ok tt, wrote [Doc (not_found_response task_id)] s).
Proof.
  intros Hloads Hhash Htasks.
  unfold process_message, try_except, bind, lift, json_loads. rewrite Hloads.
  cbn [of_option].
  change (py_in (str_of "call") (status_command task_id)) with (Ok (A := bool) false).
  change (py_in (str_of "task") (status_command task_id)) with (Ok (A := bool) false).
  change (py_in (str_of "status") (status_command task_id)) with (Ok (A := bool) true).
  change (py_item (status_command task_id) (str_of "status"))
    with (Ok (JDict [(str_of "task_id", task_id)])).
  cbv beta iota. unfold handle_status, bind, lift, get.
  change (py_item (JDict [(str_of "task_id", task_id)]) (str_of "task_id"))
    with (Ok task_id).
  cbv beta iota. rewrite Hhash, Htasks. reflexivity.
Qed.

(** C10.  Whatever messages the server has processed since it was
    created, its task table is empty, and a status command for a task id
    (any value that can be the key of a dict) is answered with the document
    [{"response": {"task_id": t, "status": "not_found"}}] and nothing else. *)
Theorem status_is_always_not_found (mgr : Elevator.manager)
    (earlier : list (list Z)) (message : list Z) (task_id : json) :
  loads message = Some (status_command task_id) ->
  hashable task_id = true ->
  tasks (after_messages loads int_of_str earlier (init mgr)) = []
  /\ process_message loads int_of_str message (after_messages loads int_of_str earlier (init mgr))
     = (Ok tt, wrote [Doc (not_found_response task_id)]
                 (after_messages loads int_of_str earlier (init mgr))).
Proof.
  intros Hloads Hhash.
  assert (Htasks : tasks (after_messages loads int_of_str earlier (init mgr)) = [])
    by (by rewrite after_messages_tasks).
  split; [done|]. by apply status_not_found_when_empty.
Qed.

End Status.

Lemma status_is_always_not_found_witness :
  (fun _ : list Z => Some (status_command (JInt 417))) (str_of "status")
    = Some (status_command (JInt 417))
  /\ hashable (JInt 417) = true
  /\ WebSocketServer.tasks
       (WebSocketServer.after_messages
          (fun _ => Some (status_command (JInt 417))) (fun _ => None)
          [str_of "status"]
          server0) = []
  /\ WebSocketServer.process_message
       (fun _ => Some (status_command (JInt 417))) (fun _ => None)
       (str_of "status")
       (WebSocketServer.after_messages
          (fun _ => Some (status_command (JInt 417))) (fun _ => None)
          [str_of "status"]
          server0)
     = (Ok tt,
        WebSocketServer.wrote
          [WebSocketServer.Doc (WebSocketServer.not_found_response (JInt 417))]
          (WebSocketServer.after_messages
             (fun _ => Some (status_command (JInt 417))) (fun _ => None)
             [str_of "status"]
             server0)).
Proof.
  split; [reflexivity|]. split; [reflexivity|].
  apply (status_is_always_not_found
           (fun _ => Some (status_command (JInt 417))) (fun _ => None)
           (Elevator.init (Motor.init MOTOR_PINS)) [str_of "status"]
           (str_of "status") (JInt 417)); reflexivity.
Defined.

(** ** The session: invalid commands *)

Lemma select_best_some (l : list Elevator.elevator) (fl : Z) :
  l <> [] -> exists i, Elevator.select_best l fl = Ok (Some i).
Proof.
  intros Hne. unfold Elevator.select_best.
  destruct (List.find _ _) as [[i e]|]; [by eexists|].
  destruct (map _ (List.filter _ _)); [|by eexists].
  destruct l as [|e0 l']; [done|]. cbn [map].
  match goal with
  | |- context [List.find ?f ?l] => destruct (List.find f l) as [[i e]|]
  end; by eexists.
Qed.

Section Commands.

Import WebSocketServer.

Variable loads : list Z -> option json.
Variable int_of_str : list Z -> option Z.

Lemma unparsable_is_answered_with_error (message : list Z) (s : server) :
  loads message = None ->
  process_message loads int_of_str message s
  = (Ok tt, wrote [ErrorDoc (ValueError "syntax error in JSON")] s).
Proof.
  intros Hloads.
  unfold process_message, try_except, bind, lift, json_loads. rewrite Hloads.
  reflexivity.
Qed.

Lemma unknown_shape_is_answered_with_error (message : list Z)
    (d : list (list Z * json)) (s : server) :
  loads message = Some (JDict d) ->
  assoc (str_of "call") d = None -> assoc (str_of "task") d = None ->
  assoc (str_of "status") d = None -> assoc (str_of "reset") d = None ->
  process_message loads int_of_str message s
  = (Ok tt, wrote [Doc invalid_request] s).
Proof.
  intros Hloads Hc Ht Hs Hr.
  unfold process_message, try_except, bind, lift, json_loads. rewrite Hloads.
  cbn [of_option py_in]. rewrite Hc, Ht, Hs, Hr. reflexivity.
Qed.

Lemma task_for_unknown_elevator (message : list Z) (id motor floor : Z) (s : server) :
  loads message = Some (task_command id motor floor) ->
  Elevator.has_key (Elevator.elevators (elevator s)) motor = false ->
  process_message loads int_of_str message s
  = (Ok tt, wrote [Doc (task_response motor floor "processing");
                   ErrorDoc (ValueError "Invalid elevator ID")] s).
Proof.
  intros Hloads Hkey.
  unfold process_message, try_except, bind, lift, json_loads. rewrite Hloads.
  cbn [of_option].
  change (py_in (str_of "call") (task_command id motor floor)) with (Ok (A := bool) false).
  change (py_in (str_of "task") (task_command id motor floor)) with (Ok (A := bool) true).
  change (py_item (task_command id motor floor) (str_of "task"))
    with (Ok (JDict [(str_of "id", JInt id); (str_of "motor", JInt motor);
                     (str_of "floor", JInt floor);
                     (str_of "action", JStr (str_of "move"))])).
  cbv beta iota. unfold handle_task, bind, lift.
  change (py_dict_get (JDict _) (str_of "motor") (JInt 0)) with (Ok (JInt motor)).
  change (py_item (JDict _) (str_of "floor")) with (Ok (JInt floor)).
  cbn [to_int]. destruct s as [mgr tk cc ld sp rd wr wc]. cbn [elevator] in Hkey.
  unfold write, modify, on_elevator, zoom, Elevator.send_elevator, bind, get, raise, wrote.
  cbn [elevator tasks client_connected led spawned reader written writer_closed].
  rewrite Hkey. cbn [negb with_elevator elevator tasks client_connected led spawned
                     reader written writer_closed].
  by rewrite <- app_assoc.
Qed.

Lemma call_for_unknown_elevator (message : list Z) (floor elevator_id : Z) (s : server) :
  loads message = Some (call_command floor elevator_id) ->
  1 <= floor <= 3 ->
  Elevator.has_key (Elevator.elevators (elevator s)) elevator_id = false ->
  Elevator.elevators (elevator s) <> [] ->
  Elevator.lock_held (elevator s) = false ->
  exists i s',
    process_message loads int_of_str message s = (Ok tt, s')
    /\ written s' = written s ++ [Doc (call_response floor elevator_id "processing");
                                  Doc (call_response floor elevator_id "completed")]
    /\ spawned s' = spawned s ++ [(Some i, floor)]
    /\ writer_closed s' = writer_closed s.
Proof.
  intros Hloads _ Hkey Hne Hlock.
  destruct (select_best_some _ floor Hne) as [i Hsel].
  exists i.
  unfold process_message, try_except, bind, lift, json_loads. rewrite Hloads.
  cbn [of_option].
  change (py_in (str_of "call") (call_command floor elevator_id)) with (Ok (A := bool) true).
  change (py_item (call_command floor elevator_id) (str_of "call"))
    with (Ok (JDict [(str_of "floor", JInt floor); (str_of "elevator", JInt elevator_id)])).
  cbv beta iota. unfold handle_call, bind, lift.
  change (py_item (JDict _) (str_of "floor")) with (Ok (JInt floor)).
  change (py_dict_get (JDict _) (str_of "elevator") (JInt 0)) with (Ok (JInt elevator_id)).
  cbn [to_int]. destruct s as [mgr tk cc ld sp rd wr wc].
  destruct mgr as [mc els cq lk]. cbn in Hkey, Hne, Hlock, Hsel. subst lk.
  unfold write, create_task, on_elevator, zoom.
  unfold Elevator.call_elevator, Elevator._select_best_elevator, Elevator.with_lock,
    Elevator.acquire, Elevator.release, try_finally, bind, get, put, modify, lift.
  cbn [elevator tasks client_connected led spawned reader written writer_closed
       with_elevator Elevator.lock_held Elevator.with_lock_held Elevator.elevators
       Elevator.with_call_queue Elevator.motors Elevator.call_queue].
  rewrite Hkey.
  cbn [elevator tasks client_connected led spawned reader written writer_closed
       with_elevator Elevator.lock_held Elevator.with_lock_held Elevator.elevators
       Elevator.with_call_queue Elevator.motors Elevator.call_queue].
  rewrite Hsel.
  cbn [elevator tasks client_connected led spawned reader written writer_closed
       with_elevator Elevator.lock_held Elevator.with_lock_held Elevator.elevators
       Elevator.with_call_queue Elevator.motors Elevator.call_queue].
  eexists. split; [reflexivity|].
  cbn [elevator tasks client_connected led spawned reader written writer_closed].
  by rewrite <- app_assoc.
Qed.

(** C6, as amended.  A message that is not JSON, a JSON object with none
    of the keys call, task, status and reset, and a task naming an elevator
    that the scheduler does not have are each answered with an error
    document, the last thing written for the message; [process_message]
    returns normally and the writer stays open. *)
Theorem invalid_command_is_answered_with_error (message : list Z) (s : server)
    (ws : list wire) :
  invalid_command loads s message ws ->
  process_message loads int_of_str message s = (Ok tt, wrote ws s)
  /\ writer_closed (wrote ws s) = writer_closed s
  /\ exists w, last ws = Some w /\ is_error_response w = true.
Proof.
  intros [Hloads | d Hloads Hc Ht Hs Hr | id motor floor Hloads Hkey].
  - split; [by apply unparsable_is_answered_with_error|].
    split; [done|]. by eexists.
  - split; [by eapply unknown_shape_is_answered_with_error|].
    split; [done|]. by eexists.
  - split; [by eapply task_for_unknown_elevator|].
    split; [done|]. by eexists.
Qed.

End Commands.

Lemma invalid_command_is_answered_with_error_witness :
  invalid_command (fun _ => Some (task_command 417 7 2))
    server0 (str_of "task")
    [WebSocketServer.Doc (WebSocketServer.task_response 7 2 "processing");
     WebSocketServer.ErrorDoc (ValueError "Invalid elevator ID")]
  /\ WebSocketServer.process_message (fun _ => Some (task_command 417 7 2))
       (fun _ => None) (str_of "task")
       server0
     = (Ok tt,
        WebSocketServer.wrote
          [WebSocketServer.Doc (WebSocketServer.task_response 7 2 "processing");
           WebSocketServer.ErrorDoc (ValueError "Invalid elevator ID")]
          server0).
Proof.
  assert (H : invalid_command (fun _ => Some (task_command 417 7 2))
                server0
                (str_of "task")
                [WebSocketServer.Doc (WebSocketServer.task_response 7 2 "processing");
                 WebSocketServer.ErrorDoc (ValueError "Invalid elevator ID")]).
  { apply (UnknownElevator _ _ _ 417 7 2); reflexivity. }
  split; [exact H|].
  exact (proj1 (invalid_command_is_answered_with_error
                  (fun _ => Some (task_command 417 7 2)) (fun _ => None)
                  (str_of "task") _ _ H)).
Defined.

(** C6, counterexample.  A call for floor 2 that names elevator 7 is
    answered with a processing and a completed response and no error
    document; the scheduler hands the call to elevator 0. *)
Lemma call_for_unknown_elevator_counterexample :
  exists s',
    WebSocketServer.process_message (fun _ => Some (call_command 2 7)) (fun _ => None)
      (str_of "call") server0
    = (Ok tt, s')
    /\ WebSocketServer.written s'
       = [WebSocketServer.Doc (WebSocketServer.call_response 2 7 "processing");
          WebSocketServer.Doc (WebSocketServer.call_response 2 7 "completed")]
    /\ existsb WebSocketServer.is_error_response (WebSocketServer.written s') = false
    /\ WebSocketServer.spawned s' = [(Some 0, 2)].
Proof.
  eexists. split; [vm_compute; reflexivity|]. repeat split.
Qed.

(** What the server does with a call for a floor that does not exist: it
    answers processing and completed; the assignment it has spawned then
    fails inside the motor controller, which rejects the floor, and leaves
    elevator 0 in the error state. *)
Lemma call_for_missing_floor :
  exists s' m',
    WebSocketServer.process_message (fun _ => Some (call_command 99 0)) (fun _ => None)
      (str_of "call") server0
    = (Ok tt, s')
    /\ WebSocketServer.written s'
       = [WebSocketServer.Doc (WebSocketServer.call_response 99 0 "processing");
          WebSocketServer.Doc (WebSocketServer.call_response 99 0 "completed")]
    /\ WebSocketServer.spawned s' = [(Some 0, 99)]
    /\ Motor.move_to_floor 0 99 None (Elevator.motors (WebSocketServer.elevator s'))
       = (Raise (ValueError "Invalid floor number"),
          Elevator.motors (WebSocketServer.elevator s'))
    /\ Elevator._assign_floor 0 99 (WebSocketServer.elevator s') = (Ok tt, m')
    /\ (Elevator.status <$> Elevator.elevators m' !! 0%nat) = Some Elevator.Error.
Proof.
  eexists _, _. split; [vm_compute; reflexivity|].
  split; [reflexivity|]. split; [reflexivity|]. split; [reflexivity|].
  split; [vm_compute; reflexivity|]. reflexivity.
Qed.

(** ** The handshake *)

Section Handshake.

Import WebSocketServer.















Lemma ascii_text_check (s : list Z) :
  forallb (fun c => (0 <=? c) && (c <? 128)) s = true -> ascii_text s.
Proof.
  intros H. apply Forall_forall. intros c Hc.
  rewrite forallb_forall in H. apply list_elem_of_In in Hc.
  specialize (H c Hc). apply andb_prop in H as [H1 H2].
  apply Z.leb_le in H1. apply Z.ltb_lt in H2. lia.
Qed.









(** The request of the repository's own client carries the sample key of
    RFC 6455 and is answered with the accept value given there. *)
Lemma handshake_of_client_request :
  handshake (accept upgrade_request server0)
  = (Ok tt, wrote [Raw (response (str_of "s3pPLMBiTxaQ9kYGzzhZRbK+xOo="))]
              (accept [] server0)).
Proof. vm_compute. reflexivity. Qed.

Lemma handshake_without_key :
  handshake (accept (str_of "GET / HTTP/1.1" ++ [13; 10]
                     ++ str_of "Host: 192.168.4.1" ++ [13; 10; 13; 10]) server0)
  = (Raise (ValueError "Invalid WebSocket handshake"), accept [] server0).
Proof. vm_compute. reflexivity. Qed.

Lemma unmask_total (key data : list Z) (i : Z) :
  length key = 4%nat \/ data = [] -> exists out, unmask key data i = Ok out.
Proof.
  intros [Hkey | ->]; [|by eexists].
  revert i. induction data as [|d data IH]; intros i; [by eexists|].
  cbn [unmask].
  assert (Hget : exists k, py_get key (i mod 4) = Ok k).
  { unfold py_get, py_norm. rewrite Hkey.
    pose proof (Z.mod_pos_bound i 4 ltac:(lia)).
    destruct (Z.leb_spec 0 (i mod 4)); [|lia].
    destruct (Z.ltb_spec (i mod 4) (Z.of_nat 4)); [|lia].
    destruct (key !! Z.to_nat (i mod 4)) as [k|] eqn:Hk; [by eexists|].
    apply lookup_ge_None in Hk. lia. }
  destruct Hget as [k ->]. destruct (IH (i + 1)) as [out ->]. by eexists.
Qed.

Lemma key_complete_or_no_data (r : list Z) (n : nat) :
  length (take 4 r) = 4%nat \/ take n (drop 4 r) = [].
Proof.
  destruct (Nat.le_gt_cases 4 (length r)).
  - left. rewrite length_take. lia.
  - right. rewrite drop_ge by lia. by rewrite take_nil.
Qed.

(** A frame whose opcode is not the text opcode gives no message. *)
Lemma receive_frame_nontext (h0 h1 : Z) (rest : list Z) :
  Z.land h0 0x0F <> WS_OPCODE_TEXT ->
  exists rest', receive_frame (h0 :: h1 :: rest) = (Ok None, rest').
Proof.
  intros Hop. rewrite receive_frame_header.
  destruct (Z.eqb_spec (Z.land h0 0x0F) WS_OPCODE_TEXT) as [|_]; [done|].
  destruct (Z.land h1 127 =? 126), (Z.land h1 127 =? 127),
    (Z.shiftr (Z.land h1 0x80) 7 =? 0);
    unfold bind, ret, read, lift;
    change (Z.to_nat 4) with 4%nat;
    try (by eexists);
    match goal with
    | |- context [unmask (take 4 ?r) (take ?n (drop 4 ?r)) 0] =>
        destruct (unmask_total (take 4 r) (take n (drop 4 r)) 0
                    (key_complete_or_no_data r n)) as [out ->]
    end; by eexists.
Qed.

End Handshake.

(** ** The receive loop and frames that are not text *)

Section NonText.

Import WebSocketServer.

Lemma handshake_keeps_led : keeps led handshake.
Proof. unfold handshake, on_reader, write. keeps_auto. Qed.

Section ReceiveLoop.

Variable loads : list Z -> option json.
Variable int_of_str : list Z -> option Z.

Lemma nontext_frame_ends_the_turn (s : server) (h0 h1 : Z) (rest : list Z) (fuel : nat) :
  reader s = h0 :: h1 :: rest ->
  Z.land h0 0x0F <> WS_OPCODE_TEXT ->
  exists rest',
    receive_frame (reader s) = (Ok None, rest')
    /\ receive_loop loads int_of_str (S fuel) s = (Ok tt, with_reader rest' s).
Proof.
  intros Hr Hop. destruct (receive_frame_nontext h0 h1 rest Hop) as [rest' Hrecv].
  exists rest'. rewrite Hr. split; [done|].
  cbn [receive_loop]. unfold bind, on_reader, zoom. by rewrite Hr, Hrecv.
Qed.

Lemma handle_client_after_loop (s s1 s2 : server) :
  handshake (entered s) = (Ok tt, s1) ->
  receive_loop loads int_of_str (S (length (reader s1))) s1 = (Ok tt, s2) ->
  handle_client loads int_of_str s = (Ok tt, left s2).
Proof.
  intros Hhs Hloop. unfold handle_client, entered in *.
  unfold bind at 1. unfold set_client_connected at 1. unfold modify at 1.
  unfold bind at 1. unfold set_mode at 1. unfold modify at 1.
  unfold bind, set_client_connected, set_mode, modify in Hhs. cbn [snd] in Hhs.
  unfold try_finally, try_except. unfold bind at 1. rewrite Hhs.
  unfold bind at 1, get at 1. rewrite Hloop. reflexivity.
Qed.

(** C4, as amended.  A frame whose opcode is not the text opcode gives no
    message, and the turn of the receive loop that reads it leaves the loop:
    nothing of the stream behind the frame is read.  No exception is raised;
    when the frame is the first after the handshake, [handle_client] returns
    normally after its [finally] clause has set the LED to "connecting" and
    closed the writer, with nothing written since the handshake. *)
Theorem nontext_frame_ends_the_session (h0 h1 : Z) (rest : list Z) :
  Z.land h0 0x0F <> WS_OPCODE_TEXT ->
  (forall (s : server) (fuel : nat),
     reader s = h0 :: h1 :: rest ->
     exists rest',
       receive_frame (reader s) = (Ok None, rest')
       /\ receive_loop loads int_of_str (S fuel) s = (Ok tt, with_reader rest' s))
  /\ (forall s s1 : server,
        handshake (entered s) = (Ok tt, s1) ->
        reader s1 = h0 :: h1 :: rest ->
        exists rest',
          handle_client loads int_of_str s = (Ok tt, left (with_reader rest' s1))
          /\ written (left (with_reader rest' s1)) = written s1
          /\ led (left (with_reader rest' s1)) = led s ++ ["connected"%string; "connecting"%string]
          /\ writer_closed (left (with_reader rest' s1)) = true).
Proof.
  intros Hop. split.
  - intros s fuel Hr. by eapply nontext_frame_ends_the_turn.
  - intros s s1 Hhs Hr.
    destruct (nontext_frame_ends_the_turn s1 h0 h1 rest (length (reader s1)) Hr Hop)
      as (rest' & _ & Hloop).
    exists rest'. split; [by eapply handle_client_after_loop|].
    split; [reflexivity|]. split; [|reflexivity].
    assert (Hled : led s1 = led (entered s)).
    { pose proof (handshake_keeps_led (entered s)) as H. by rewrite Hhs in H. }
    cbn. rewrite Hled. cbn. by rewrite <- app_assoc.
Qed.

End ReceiveLoop.

Lemma nontext_frame_ends_the_session_witness :
  Z.land 0x82 0x0F <> WS_OPCODE_TEXT
  /\ exists rest',
       receive_frame (reader (accept (binary_frame ++ reset_frame) server0))
       = (Ok None, rest')
       /\ receive_loop (fun _ => None) (fun _ => None) 1 (accept (binary_frame ++ reset_frame) server0)
          = (Ok tt, with_reader rest' (accept (binary_frame ++ reset_frame) server0)).
Proof.
  split; [by vm_compute|].
  apply (proj1 (nontext_frame_ends_the_session (fun _ => None) (fun _ => None) 0x82 0 reset_frame ltac:(by vm_compute))
           (accept (binary_frame ++ reset_frame) server0) 0%nat).
  reflexivity.
Defined.



(** C4, counterexample.  A binary frame followed by the text frame of a
    reset command: the session ends with the text frame unread and nothing
    written but the handshake response, and the writer is closed; without
    the binary frame the reset is processed and answered. *)
Lemma nontext_frame_counterexample :
  exists s',
    handle_client (fun _ => Some (JDict [(str_of "reset", JDict [])])) (fun _ => None)
      (accept (upgrade_request ++ binary_frame ++ reset_frame) server0)
    = (Ok tt, s')
    /\ reader s' = reset_frame
    /\ written s' = [Raw (response (str_of "s3pPLMBiTxaQ9kYGzzhZRbK+xOo="))]
    /\ writer_closed s' = true
    /\ exists s'',
         handle_client (fun _ => Some (JDict [(str_of "reset", JDict [])])) (fun _ => None)
           (accept (upgrade_request ++ reset_frame) server0)
         = (Ok tt, s'')
         /\ written s''
            = [Raw (response (str_of "s3pPLMBiTxaQ9kYGzzhZRbK+xOo="));
               Doc (reset_response "processing"); Doc (reset_response "completed")].
Proof.
  eexists. split; [vm_compute; reflexivity|].
  split; [reflexivity|]. split; [reflexivity|]. split; [reflexivity|].
  eexists. split; [vm_compute; reflexivity|]. reflexivity.
Qed.


End NonText.

(** * Runs, invariants and round trips *)

(** ** Runs of the motion engine *)

Lemma py_norm_nat {A : Type} (l : list A) (n : nat) :
  (n < length l)%nat -> py_norm l (Z.of_nat n) = Some n.
Proof.
  intros H. unfold py_norm.
  destruct (Z.leb_spec 0 (Z.of_nat n)); [|lia].
  destruct (Z.ltb_spec (Z.of_nat n) (Z.of_nat (length l))); [|lia].
  by rewrite Nat2Z.id.
Qed.

Lemma py_get_nat {A : Type} (l : list A) (n : nat) (x : A) :
  l !! n = Some x -> py_get l (Z.of_nat n) = Ok x.
Proof.
  intros H. unfold py_get. rewrite py_norm_nat by (by eapply lookup_lt_Some).
  by rewrite H.
Qed.

Lemma py_set_nat {A : Type} (l : list A) (n : nat) (x : A) :
  (n < length l)%nat -> py_set l (Z.of_nat n) x = Ok (<[n:=x]> l).
Proof. intros H. unfold py_set. by rewrite py_norm_nat. Qed.

Lemma calculate_delay_same (c c' : Motor.controller) (steps i : Z) :
  same_books c c' -> Motor.calculate_delay c' steps i = Motor.calculate_delay c steps i.
Proof.
  intros (_ & _ & _ & _ & Hmin & Hacc & Hmax & _).
  unfold Motor.calculate_delay. by rewrite Hmin, Hacc, Hmax.
Qed.

Lemma write_pin_nat (c : Motor.controller) (n : nat) (m : Motor.channel)
    (f : Motor.channel -> Motor.channel) :
  Motor.motors c !! n = Some m ->
  Motor.write_pin (Z.of_nat n) f c
  = (Ok tt, Motor.with_motors (<[n := f m]> (Motor.motors c)) c).
Proof.
  intros H. unfold Motor.write_pin, bind, get, lift, put.
  rewrite (py_get_nat _ _ _ H), py_set_nat by (by eapply lookup_lt_Some). done.
Qed.

(** One turn of the loop of [rotate_motor] when no stop is pending. *)
Lemma rotate_turn (c : Motor.controller) (n : nat) (m : Motor.channel)
    (steps : Z) (stop_at : option nat) (cur k : nat) :
  Motor.motors c !! n = Some m ->
  Motor.stop_request c !! n = Some false ->
  exists c1,
    Motor.rotate_loop (Z.of_nat n) steps stop_at cur (S k) c
    = Motor.rotate_loop (Z.of_nat n) steps stop_at (S cur) k c1
    /\ same_books c c1
    /\ Motor.motors c1
       = <[n := {| Motor.step := false; Motor.dir := Motor.dir m;
                   Motor.enable := Motor.enable m |}]> (Motor.motors c)
    /\ Motor.stop_request c1
       = (if decide (stop_at = Some cur) then <[n := true]> (Motor.stop_request c)
          else Motor.stop_request c)
    /\ Motor.trace c1 = Motor.trace c ++ step_events c (Z.of_nat n) steps cur.
Proof.
  intros Hm Hstop.
  cbn [Motor.rotate_loop]. unfold bind at 1, get at 1. unfold bind at 1, lift at 1.
  rewrite (py_get_nat _ _ _ Hstop).
  unfold Motor.set_step, Motor.delay_us.
  unfold bind at 1. rewrite (write_pin_nat _ _ _ _ Hm).
  unfold bind at 1. unfold Motor.emit at 1, modify at 1.
  unfold bind at 1. unfold Motor.emit at 1, modify at 1.
  unfold bind at 1.
  erewrite write_pin_nat; last first.
  { cbn. apply list_lookup_insert_eq. by eapply lookup_lt_Some. }
  unfold bind at 1. unfold Motor.emit at 1, modify at 1.
  unfold bind at 1. unfold Motor.emit at 1, modify at 1.
  cbn [Motor.motors Motor.with_motors Motor.moving_status Motor.stop_request
       Motor.current_steps Motor.current_floor Motor.STEPS_PER_FLOOR
       Motor.MIN_STEP_DELAY_US Motor.ACCELERATION_STEPS Motor.MAX_STEP_DELAY_US
       Motor.trace Motor.step Motor.dir Motor.enable].
  rewrite list_insert_insert_eq.
  unfold bind at 1.
  destruct (decide (stop_at = Some cur)) as [Heq|Hne].
  - unfold Motor.stop_motor_request, bind, get, lift, put. cbn [Motor.stop_request].
    rewrite py_set_nat by (by eapply lookup_lt_Some).
    eexists. split; [reflexivity|].
    repeat split; cbn; try done.
    + by rewrite length_insert.
    + by rewrite <- !app_assoc.
  - unfold ret. eexists. split; [reflexivity|].
    repeat split; cbn; try done.
    + by rewrite length_insert.
    + by rewrite <- !app_assoc.
Qed.

Lemma same_books_refl (c : Motor.controller) : same_books c c.
Proof. by repeat split. Qed.

Lemma same_books_trans (c1 c2 c3 : Motor.controller) :
  same_books c1 c2 -> same_books c2 c3 -> same_books c1 c3.
Proof.
  intros (?&?&?&?&?&?&?&?) (?&?&?&?&?&?&?&?). repeat split; congruence.
Qed.

Lemma step_events_same (c c' : Motor.controller) (idx steps : Z) (i : nat) :
  same_books c c' -> step_events c' idx steps i = step_events c idx steps i.
Proof.
  intros H. unfold step_events. rewrite (calculate_delay_same _ _ _ _ H).
  destruct H as (_ & _ & _ & _ & -> & _). done.
Qed.

Lemma rotate_loop_stopped (c : Motor.controller) (n : nat) (steps : Z)
    (stop_at : option nat) (cur k : nat) :
  Motor.stop_request c !! n = Some true ->
  Motor.rotate_loop (Z.of_nat n) steps stop_at cur k c = (Ok tt, c).
Proof.
  intros H. destruct k; [done|].
  cbn [Motor.rotate_loop]. unfold bind, get, lift.
  by rewrite (py_get_nat _ _ _ H).
Qed.

(** The loop of [rotate_motor], whatever the interference. *)
Lemma rotate_loop_run (n : nat) (steps : Z) (stop_at : option nat) (k : nat) :
  forall (cur : nat) (c : Motor.controller) (m : Motor.channel),
    Motor.motors c !! n = Some m ->
    Motor.stop_request c !! n = Some false ->
    (length (Motor.stop_request c) = length (Motor.motors c)) ->
    exists c',
      Motor.rotate_loop (Z.of_nat n) steps stop_at cur k c = (Ok tt, c')
      /\ same_books c c'
      /\ Motor.trace c'
         = Motor.trace c
           ++ flat_map (step_events c (Z.of_nat n) steps)
                (seq cur (steps_run stop_at cur k))
      /\ Motor.stop_request c'
         = (if stop_lands stop_at cur k
            then <[n := true]> (Motor.stop_request c) else Motor.stop_request c)
      /\ (exists m', Motor.motors c' !! n = Some m'
                     /\ Motor.dir m' = Motor.dir m
                     /\ Motor.enable m' = Motor.enable m
                     /\ (Motor.step m = false -> Motor.step m' = false))
      /\ (forall i, i <> n -> Motor.motors c' !! i = Motor.motors c !! i).
Proof.
  induction k as [|k IH]; intros cur c m Hm Hstop Hlen.
  - exists c. split; [done|]. split; [apply same_books_refl|].
    assert (Hrun : steps_run stop_at cur 0 = 0%nat).
    { unfold steps_run, stop_lands. destruct stop_at as [j|]; [|done].
      case_bool_decide; [lia | done]. }
    rewrite Hrun. cbn. rewrite app_nil_r. split; [done|].
    split.
    { unfold stop_lands. destruct stop_at as [j|]; [|done].
      case_bool_decide; [lia | done]. }
    split; [by exists m | done].
  - destruct (rotate_turn c n m steps stop_at cur k Hm Hstop)
      as (c1 & Hturn & Hbooks & Hmotors & Hsr & Htrace).
    rewrite Hturn.
    assert (Hm1 : Motor.motors c1 !! n
                  = Some {| Motor.step := false; Motor.dir := Motor.dir m;
                            Motor.enable := Motor.enable m |}).
    { rewrite Hmotors. apply list_lookup_insert_eq. by eapply lookup_lt_Some. }
    assert (Hother : forall i, i <> n -> Motor.motors c1 !! i = Motor.motors c !! i).
    { intros i Hi. rewrite Hmotors. by apply list_lookup_insert_ne. }
    destruct (decide (stop_at = Some cur)) as [->|Hne].
    + assert (Hst : Motor.stop_request c1 !! n = Some true).
      { rewrite Hsr. apply list_lookup_insert_eq. by eapply lookup_lt_Some. }
      rewrite (rotate_loop_stopped _ _ _ _ _ _ Hst).
      exists c1. split; [done|]. split; [done|].
      assert (Hrun : steps_run (Some cur) cur (S k) = 1%nat).
      { unfold steps_run, stop_lands. case_bool_decide; lia. }
      rewrite Hrun. cbn [seq flat_map]. rewrite app_nil_r. split; [done|].
      split.
      { unfold stop_lands. case_bool_decide; [done | lia]. }
      split; [|done]. eexists. by split; [exact Hm1|].
    +
      destruct (IH (S cur) c1 _ Hm1) as (c' & Hrun & Hb' & Htr' & Hsr' & Hpin & Hoth).
      { by rewrite Hsr. }
      { rewrite Hsr, Hmotors, length_insert. done. }
      exists c'. split; [done|]. split; [by eapply same_books_trans|].
      assert (Hcount : steps_run stop_at cur (S k) = S (steps_run stop_at (S cur) k)).
      { unfold steps_run, stop_lands. destruct stop_at as [j|]; [|done].
        assert (j <> cur) by congruence.
        repeat case_bool_decide; lia. }
      rewrite Hcount. cbn [seq flat_map]. split.
      { rewrite Htr', Htrace, <- app_assoc. f_equal. f_equal.
        apply flat_map_ext. intros i. by apply step_events_same. }
      split.
      { rewrite Hsr', Hsr. unfold stop_lands. destruct stop_at as [j|]; [|done].
        assert (j <> cur) by congruence.
        repeat case_bool_decide; done || lia. }
      split.
      { destruct Hpin as (m' & ? & ? & ? & ?). exists m'. cbn in *. auto. }
      intros i Hi. rewrite Hoth by done. by apply Hother.
Qed.

Lemma set_moving_nat (c : Motor.controller) (n : nat) (v : bool) :
  (n < length (Motor.moving_status c))%nat ->
  Motor.set_moving (Z.of_nat n) v c
  = (Ok tt, Motor.with_moving (<[n := v]> (Motor.moving_status c)) c).
Proof.
  intros H. unfold Motor.set_moving, bind, get, lift, put.
  by rewrite py_set_nat.
Qed.

(** [rotate_motor] on a channel that exists, for a positive number of
    steps and with no stop pending at entry. *)
Lemma rotate_motor_run (c : Motor.controller) (n : nat) (m : Motor.channel)
    (steps direction : Z) (stop_at : option nat) :
  motor_consistent c ->
  Motor.motors c !! n = Some m ->
  Motor.stop_request c !! n = Some false ->
  steps <> 0 ->
  exists c',
    Motor.rotate_motor (Z.of_nat n) steps direction stop_at c = (Ok tt, c')
    /\ Motor.trace c'
       = Motor.trace c
         ++ flat_map (step_events c (Z.of_nat n) steps)
              (seq 0 (steps_run stop_at 0 (Z.to_nat steps)))
    /\ Motor.moving_status c' = <[n := false]> (Motor.moving_status c)
    /\ Motor.stop_request c'
       = (if stop_lands stop_at 0 (Z.to_nat steps)
          then <[n := true]> (Motor.stop_request c) else Motor.stop_request c)
    /\ Motor.current_floor c' = Motor.current_floor c
    /\ Motor.current_steps c' = Motor.current_steps c
    /\ Motor.STEPS_PER_FLOOR c' = Motor.STEPS_PER_FLOOR c
    /\ length (Motor.motors c') = length (Motor.motors c)
    /\ (exists m', Motor.motors c' !! n = Some m'
                   /\ Motor.dir m' = direction /\ Motor.enable m' = false
                   /\ (Motor.step m = false -> Motor.step m' = false))
    /\ (forall i, i <> n -> Motor.motors c' !! i = Motor.motors c !! i).
Proof.
  intros (Hl1 & Hl2 & Hl3) Hm Hstop Hsteps.
  pose proof (lookup_lt_Some _ _ _ Hm) as Hn.
  unfold Motor.rotate_motor. unfold bind at 1, get at 1.
  destruct (Z.geb_spec (Z.of_nat n) (Z.of_nat (length (Motor.motors c)))); [lia|].
  destruct (Z.eqb_spec steps 0); [done|].
  unfold bind at 1. rewrite set_moving_nat by lia.
  unfold bind at 1. unfold Motor.enable_motor at 1.
  erewrite write_pin_nat by (cbn; exact Hm).
  unfold try_finally. unfold bind at 1. unfold Motor.set_dir.
  erewrite write_pin_nat; last first.
  { cbn. apply list_lookup_insert_eq. lia. }
  cbn [Motor.motors Motor.with_motors Motor.with_moving Motor.moving_status
       Motor.stop_request Motor.current_steps Motor.current_floor
       Motor.STEPS_PER_FLOOR Motor.MIN_STEP_DELAY_US Motor.ACCELERATION_STEPS
       Motor.MAX_STEP_DELAY_US Motor.trace Motor.step Motor.dir Motor.enable negb].
  rewrite list_insert_insert_eq.
  set (c0 := Motor.with_motors _ _).
  destruct (rotate_loop_run n steps stop_at (Z.to_nat steps) 0 c0
              {| Motor.step := Motor.step m; Motor.dir := direction;
                 Motor.enable := false |})
    as (c1 & Hrun & Hbooks & Htrace & Hsr & (m1 & Hm1 & Hdir & Hen & Hstep) & Hoth).
  { subst c0. cbn. apply list_lookup_insert_eq. lia. }
  { subst c0. cbn. done. }
  { subst c0. cbn. rewrite length_insert. lia. }
  rewrite Hrun.
  destruct Hbooks as (Hms & Hcs & Hcf & Hspf & Hmin & Hacc & Hmax & Hlen).
  unfold bind at 1. rewrite set_moving_nat; last first.
  { rewrite Hms. subst c0. cbn. rewrite length_insert. lia. }
  unfold Motor.enable_motor.
  erewrite write_pin_nat by (cbn; exact Hm1).
  eexists. split; [reflexivity|].
  cbn [Motor.motors Motor.with_motors Motor.with_moving Motor.moving_status
       Motor.stop_request Motor.current_steps Motor.current_floor
       Motor.STEPS_PER_FLOOR Motor.MIN_STEP_DELAY_US Motor.ACCELERATION_STEPS
       Motor.MAX_STEP_DELAY_US Motor.trace].
  split.
  { rewrite Htrace. reflexivity. }
  split. { rewrite Hms. subst c0. cbn. by rewrite list_insert_insert_eq. }
  split. { rewrite Hsr. subst c0. done. }
  split. { rewrite Hcf. subst c0. done. }
  split. { rewrite Hcs. subst c0. done. }
  split. { rewrite Hspf. subst c0. done. }
  split. { rewrite length_insert, Hlen. subst c0. cbn. by rewrite length_insert. }
  split.
  { eexists. split; [apply list_lookup_insert_eq; rewrite Hlen; subst c0; cbn;
                     rewrite length_insert; lia|].
    cbn. split; [done|]. split; [done|]. cbn in Hstep. done. }
  intros i Hi. rewrite list_lookup_insert_ne by done. rewrite Hoth by done.
  subst c0. cbn. by rewrite list_lookup_insert_ne.
Qed.

Lemma pulses_app (a b : list Motor.event) :
  Motor.pulses (a ++ b) = (Motor.pulses a + Motor.pulses b)%nat.
Proof. unfold Motor.pulses. by rewrite List.filter_app, length_app. Qed.

Lemma pulses_steps (c : Motor.controller) (idx steps : Z) (l : list nat) :
  Motor.pulses (flat_map (step_events c idx steps) l) = length l.
Proof.
  induction l as [|i l IH]; [done|].
  cbn [flat_map]. rewrite pulses_app, IH. done.
Qed.

(** [move_to_floor] towards another floor, on a channel that exists and
    has no stop pending at entry. *)
Lemma move_to_floor_run (c : Motor.controller) (n : nat) (m : Motor.channel)
    (cf target_floor : Z) (stop_at : option nat) :
  motor_consistent c ->
  Motor.motors c !! n = Some m ->
  Motor.current_floor c !! n = Some cf ->
  Motor.stop_request c !! n = Some false ->
  0 < Motor.STEPS_PER_FLOOR c ->
  1 <= target_floor <= 3 ->
  target_floor <> cf ->
  let steps := Z.abs (target_floor - cf) * Motor.STEPS_PER_FLOOR c in
  exists c',
    Motor.move_to_floor (Z.of_nat n) target_floor stop_at c = (Ok tt, c')
    /\ Motor.trace c'
       = Motor.trace c
         ++ flat_map (step_events c (Z.of_nat n) steps)
              (seq 0 (steps_run stop_at 0 (Z.to_nat steps)))
    /\ Motor.current_floor c' = <[n := target_floor]> (Motor.current_floor c)
    /\ Motor.moving_status c' = <[n := false]> (Motor.moving_status c)
    /\ Motor.stop_request c'
       = (if stop_lands stop_at 0 (Z.to_nat steps)
          then <[n := true]> (Motor.stop_request c) else Motor.stop_request c)
    /\ Motor.STEPS_PER_FLOOR c' = Motor.STEPS_PER_FLOOR c
    /\ length (Motor.motors c') = length (Motor.motors c)
    /\ (exists m', Motor.motors c' !! n = Some m'
                   /\ Motor.dir m' = (if target_floor - cf >? 0 then 0 else 1)
                   /\ Motor.enable m' = false
                   /\ (Motor.step m = false -> Motor.step m' = false))
    /\ (forall i, i <> n -> Motor.motors c' !! i = Motor.motors c !! i).
Proof.
  intros Hcons Hm Hcf Hstop Hspf Ht Hne steps.
  pose proof Hcons as (Hl1 & Hl2 & Hl3).
  pose proof (lookup_lt_Some _ _ _ Hm) as Hn.
  unfold Motor.move_to_floor, bind, get, lift, put. cbv beta iota.
  rewrite (py_get_nat _ _ _ Hcf).
  destruct (Z.geb_spec (Z.of_nat n) (Z.of_nat (length (Motor.motors c)))); [lia|].
  destruct (Z.ltb_spec target_floor 1); [lia|].
  destruct (Z.gtb_spec target_floor 3); [lia|]. cbn [orb].
  destruct (Z.eqb_spec cf target_floor); [congruence|].
  destruct (rotate_motor_run c n m steps
              (if target_floor - cf >? 0 then 0 else 1) stop_at Hcons Hm Hstop)
    as (c1 & Hrun & Htr & Hms & Hsr & Hfl & Hcs & Hs & Hlen & Hpin & Hoth).
  { subst steps. nia. }
  fold steps. rewrite Hrun.
  rewrite py_set_nat by (rewrite Hfl; lia).
  eexists. split; [reflexivity|]. cbn.
  rewrite Hfl. repeat split; try done.
Qed.

Lemma move_to_floor_bad_floor (c : Motor.controller) (n : nat)
    (cf target_floor : Z) (stop_at : option nat) :
  Motor.current_floor c !! n = Some cf ->
  (n < length (Motor.motors c))%nat ->
  target_floor < 1 \/ 3 < target_floor ->
  Motor.move_to_floor (Z.of_nat n) target_floor stop_at c
  = (Raise (ValueError "Invalid floor number"), c).
Proof.
  intros Hcf Hn Ht.
  unfold Motor.move_to_floor, bind, get, lift. cbv beta iota.
  rewrite (py_get_nat _ _ _ Hcf).
  destruct (Z.geb_spec (Z.of_nat n) (Z.of_nat (length (Motor.motors c)))); [lia|].
  destruct (Z.ltb_spec target_floor 1), (Z.gtb_spec target_floor 3); done || lia.
Qed.

(** X1.  A move to another floor of the building that no stop request
    interrupts: on a controller whose lists have one entry per channel,
    [move_to_floor] returns normally after exactly |target - current| *
    STEPS_PER_FLOOR step pulses, each followed by the delay that
    [calculate_delay] gives for its index; it records the target floor,
    leaves the channel marked not moving and its stop flag as it was, the
    direction pin at 0 for a move up and 1 for a move down, and the enable
    pin at 0. *)
Theorem move_to_floor_completes (c : Motor.controller) (n : nat)
    (cf target_floor : Z) :
  motor_consistent c ->
  Motor.current_floor c !! n = Some cf ->
  Motor.stop_request c !! n = Some false ->
  0 < Motor.STEPS_PER_FLOOR c ->
  1 <= target_floor <= 3 ->
  target_floor <> cf ->
  exists c',
    Motor.move_to_floor (Z.of_nat n) target_floor None c = (Ok tt, c')
    /\ Motor.trace c'
       = Motor.trace c
         ++ flat_map
              (step_events c (Z.of_nat n)
                 (Z.abs (target_floor - cf) * Motor.STEPS_PER_FLOOR c))
              (seq 0 (Z.to_nat (Z.abs (target_floor - cf) * Motor.STEPS_PER_FLOOR c)))
    /\ Motor.pulses (Motor.trace c')
       = (Motor.pulses (Motor.trace c)
          + Z.to_nat (Z.abs (target_floor - cf) * Motor.STEPS_PER_FLOOR c))%nat
    /\ Motor.current_floor c' = <[n := target_floor]> (Motor.current_floor c)
    /\ Motor.moving_status c' !! n = Some false
    /\ Motor.stop_request c' = Motor.stop_request c
    /\ exists m', Motor.motors c' !! n = Some m'
                  /\ Motor.dir m' = (if target_floor >? cf then 0 else 1)
                  /\ Motor.enable m' = false.
Proof.
  intros Hcons Hcf Hstop Hspf Ht Hne.
  pose proof Hcons as (Hl1 & Hl2 & Hl3).
  pose proof (lookup_lt_Some _ _ _ Hcf) as Hn.
  destruct (lookup_lt_is_Some_2 (Motor.motors c) n ltac:(lia)) as [m Hm].
  destruct (move_to_floor_run c n m cf target_floor None Hcons Hm Hcf Hstop Hspf Ht Hne)
    as (c' & Hrun & Htr & Hfl & Hms & Hsr & _ & _ & (m' & Hm' & Hdir & Hen & _) & _).
  exists c'. split; [done|]. split; [done|].
  split. { rewrite Htr, pulses_app, pulses_steps, length_seq. done. }
  split; [done|].
  split. { rewrite Hms. apply list_lookup_insert_eq. lia. }
  split; [done|].
  exists m'. split; [done|]. split; [|done].
  rewrite Hdir. destruct (Z.gtb_spec (target_floor - cf) 0), (Z.gtb_spec target_floor cf);
    done || lia.
Qed.

Lemma move_to_floor_completes_witness :
  exists c',
    Motor.move_to_floor 0 3 None (Motor.init MOTOR_PINS) = (Ok tt, c')
    /\ Motor.pulses (Motor.trace c') = 1100%nat
    /\ Motor.current_floor c' = [3; 1; 1].
Proof.
  destruct (move_to_floor_completes (Motor.init MOTOR_PINS) 0 1 3)
    as (c' & Hrun & _ & Hp & Hfl & _); try (repeat split; reflexivity || lia).
  exists c'. split; [exact Hrun|]. split; [exact Hp | exact Hfl].
Defined.

(** X2.  A stop request that is raised during step [j] of a move: the motor
    makes [j + 1] of the pulses and the loop ends, and [move_to_floor] still
    returns normally and records the target floor; the stop flag stays
    raised and the channel is marked not moving. *)
Theorem move_to_floor_interrupted (c : Motor.controller) (n j : nat)
    (cf target_floor : Z) :
  motor_consistent c ->
  Motor.current_floor c !! n = Some cf ->
  Motor.stop_request c !! n = Some false ->
  0 < Motor.STEPS_PER_FLOOR c ->
  1 <= target_floor <= 3 ->
  target_floor <> cf ->
  (j < Z.to_nat (Z.abs (target_floor - cf) * Motor.STEPS_PER_FLOOR c))%nat ->
  exists c',
    Motor.move_to_floor (Z.of_nat n) target_floor (Some j) c = (Ok tt, c')
    /\ Motor.pulses (Motor.trace c') = (Motor.pulses (Motor.trace c) + (j + 1))%nat
    /\ Motor.current_floor c' !! n = Some target_floor
    /\ Motor.stop_request c' !! n = Some true
    /\ Motor.moving_status c' !! n = Some false.
Proof.
  intros Hcons Hcf Hstop Hspf Ht Hne Hj.
  pose proof Hcons as (Hl1 & Hl2 & Hl3).
  pose proof (lookup_lt_Some _ _ _ Hcf) as Hn.
  destruct (lookup_lt_is_Some_2 (Motor.motors c) n ltac:(lia)) as [m Hm].
  destruct (move_to_floor_run c n m cf target_floor (Some j) Hcons Hm Hcf Hstop Hspf Ht Hne)
    as (c' & Hrun & Htr & Hfl & Hms & Hsr & _).
  exists c'. split; [done|].
  assert (Hland : stop_lands (Some j) 0
                    (Z.to_nat (Z.abs (target_floor - cf) * Motor.STEPS_PER_FLOOR c)) = true).
  { unfold stop_lands. apply bool_decide_eq_true. lia. }
  split.
  { rewrite Htr, pulses_app, pulses_steps, length_seq. unfold steps_run.
    rewrite Hland. f_equal. lia. }
  split. { rewrite Hfl. apply list_lookup_insert_eq. lia. }
  split. { rewrite Hsr, Hland. apply list_lookup_insert_eq. lia. }
  rewrite Hms. apply list_lookup_insert_eq. lia.
Qed.

Lemma move_to_floor_interrupted_witness :
  exists c',
    Motor.move_to_floor 1 2 (Some 99%nat) (Motor.init MOTOR_PINS) = (Ok tt, c')
    /\ Motor.pulses (Motor.trace c') = 100%nat
    /\ Motor.current_floor c' !! 1%nat = Some 2.
Proof.
  destruct (move_to_floor_interrupted (Motor.init MOTOR_PINS) 1 99 1 2)
    as (c' & Hrun & Hp & Hfl & _); try (repeat split; reflexivity || lia).
  { vm_compute. lia. }
  exists c'. split; [exact Hrun|]. split; [exact Hp | exact Hfl].
Defined.

(** X3.  For a channel of the controller, a target floor below 1 or above 3
    is refused with ValueError before anything is written: the controller is
    left as it was, whether or not a stop is to come. *)
Theorem move_to_floor_rejects_unknown_floor (c : Motor.controller) (n : nat)
    (cf target_floor : Z) (stop_at : option nat) :
  Motor.current_floor c !! n = Some cf ->
  (n < length (Motor.motors c))%nat ->
  target_floor < 1 \/ 3 < target_floor ->
  Motor.move_to_floor (Z.of_nat n) target_floor stop_at c
  = (Raise (ValueError "Invalid floor number"), c).
Proof.
  intros Hcf Hn Ht. by eapply move_to_floor_bad_floor.
Qed.

Lemma move_to_floor_rejects_unknown_floor_witness :
  Motor.move_to_floor 2 4 None (Motor.init MOTOR_PINS)
  = (Raise (ValueError "Invalid floor number"), Motor.init MOTOR_PINS).
Proof.
  apply (move_to_floor_rejects_unknown_floor (Motor.init MOTOR_PINS) 2 1 4 None);
    [reflexivity | simpl; lia | lia].
Defined.

(** X4.  A channel index below -len or not below len, where len is the
    number of channels, makes [move_to_floor] raise IndexError, not the
    ValueError of its explicit check: the debug print on its first line
    indexes [current_floor] before the check is reached.  The controller is
    left as it was. *)
Theorem move_to_floor_index_out_of_range (c : Motor.controller)
    (motor_index target_floor : Z) (stop_at : option nat) :
  motor_index < - Z.of_nat (length (Motor.current_floor c))
  \/ Z.of_nat (length (Motor.current_floor c)) <= motor_index ->
  Motor.move_to_floor motor_index target_floor stop_at c = (Raise IndexError, c).
Proof.
  intros H. unfold Motor.move_to_floor, bind, get, lift. cbv beta iota.
  unfold py_get, py_norm.
  destruct (Z.leb_spec 0 motor_index).
  - destruct (Z.ltb_spec motor_index (Z.of_nat (length (Motor.current_floor c))));
      [lia | done].
  - destruct (Z.leb_spec (- Z.of_nat (length (Motor.current_floor c))) motor_index);
      [lia | done].
Qed.

Lemma move_to_floor_index_out_of_range_witness :
  Motor.move_to_floor 3 2 None (Motor.init MOTOR_PINS)
  = (Raise IndexError, Motor.init MOTOR_PINS).
Proof.
  apply (move_to_floor_index_out_of_range (Motor.init MOTOR_PINS) 3 2 None).
  right. simpl. lia.
Defined.

Lemma no_stop_lookup (c : Motor.controller) (n : nat) :
  no_stop_pending c -> (n < length (Motor.stop_request c))%nat ->
  Motor.stop_request c !! n = Some false.
Proof.
  intros H Hn. destruct (lookup_lt_is_Some_2 _ _ Hn) as [b Hb].
  unfold no_stop_pending in H. rewrite Forall_lookup in H. by rewrite (H _ _ Hb) in Hb.
Qed.

(** An uninterrupted move keeps the controller in order. *)
Lemma move_to_floor_keeps_order (c : Motor.controller) (n : nat)
    (cf target_floor : Z) :
  motor_consistent c -> no_stop_pending c ->
  Motor.current_floor c !! n = Some cf ->
  0 < Motor.STEPS_PER_FLOOR c ->
  1 <= target_floor <= 3 ->
  exists c',
    Motor.move_to_floor (Z.of_nat n) target_floor None c = (Ok tt, c')
    /\ motor_consistent c' /\ no_stop_pending c'
    /\ Motor.STEPS_PER_FLOOR c' = Motor.STEPS_PER_FLOOR c
    /\ length (Motor.motors c') = length (Motor.motors c)
    /\ Motor.current_floor c' = <[n := target_floor]> (Motor.current_floor c).
Proof.
  intros Hcons Hns Hcf Hspf Ht.
  pose proof Hcons as (Hl1 & Hl2 & Hl3).
  pose proof (lookup_lt_Some _ _ _ Hcf) as Hn.
  destruct (Z.eq_dec target_floor cf) as [->|Hne].
  - exists c. split.
    + unfold Motor.move_to_floor, bind, get, lift, ret. cbv beta iota.
      rewrite (py_get_nat _ _ _ Hcf).
      destruct (Z.geb_spec (Z.of_nat n) (Z.of_nat (length (Motor.motors c)))); [lia|].
      destruct (Z.ltb_spec cf 1); [lia|]. destruct (Z.gtb_spec cf 3); [lia|].
      cbn [orb]. by rewrite Z.eqb_refl.
    + repeat split; try done. by rewrite list_insert_id.
  - destruct (lookup_lt_is_Some_2 (Motor.motors c) n ltac:(lia)) as [m Hm].
    destruct (move_to_floor_run c n m cf target_floor None Hcons Hm Hcf
                (no_stop_lookup c n Hns ltac:(lia)) Hspf Ht Hne)
      as (c' & Hrun & _ & Hfl & Hms & Hsr & Hs & Hlen & _).
    exists c'. split; [done|]. cbn in Hsr.
    split.
    { unfold motor_consistent. rewrite Hms, Hsr, Hfl, !length_insert, Hlen. done. }
    split; [unfold no_stop_pending; by rewrite Hsr|]. done.
Qed.

Lemma motor_reset_from_run (k : nat) :
  forall (i : nat) (c : Motor.controller),
    motor_consistent c -> no_stop_pending c ->
    0 < Motor.STEPS_PER_FLOOR c ->
    (i + k = length (Motor.motors c))%nat ->
    exists c',
      Motor.reset_from i k c = (Ok tt, c')
      /\ motor_consistent c' /\ no_stop_pending c'
      /\ length (Motor.motors c') = length (Motor.motors c)
      /\ Motor.current_floor c' = take i (Motor.current_floor c) ++ replicate k 1.
Proof.
  induction k as [|k IH]; intros i c Hcons Hns Hspf Hik.
  - exists c. split; [done|]. repeat split; try apply Hcons; try done.
    cbn. rewrite app_nil_r, take_ge; [done|]. destruct Hcons as (_ & _ & ->). lia.
  - pose proof Hcons as (Hl1 & Hl2 & Hl3).
    destruct (lookup_lt_is_Some_2 (Motor.current_floor c) i ltac:(lia)) as [cf Hcf].
    destruct (move_to_floor_keeps_order c i cf 1 Hcons Hns Hcf Hspf ltac:(lia))
      as (c1 & Hmove & Hcons1 & Hns1 & Hs1 & Hlen1 & Hfl1).
    assert (Hstep : exists c1',
               ((if cf =? 1 then ret tt else Motor.move_to_floor (Z.of_nat i) 1 None) c
                = (Ok tt, c1'))
               /\ motor_consistent c1' /\ no_stop_pending c1'
               /\ Motor.STEPS_PER_FLOOR c1' = Motor.STEPS_PER_FLOOR c
               /\ length (Motor.motors c1') = length (Motor.motors c)
               /\ Motor.current_floor c1' = <[i := 1]> (Motor.current_floor c)).
    { destruct (Z.eqb_spec cf 1) as [->|]; [|by exists c1].
      exists c. repeat split; try apply Hcons; try done. by rewrite list_insert_id. }
    destruct Hstep as (c1' & Hstep & Hc & Hn & Hs & Hl & Hf).
    destruct (IH (S i) c1' Hc Hn ltac:(lia) ltac:(lia))
      as (c' & Hrun & Hc' & Hn' & Hl' & Hfl).
    exists c'. split.
    + cbn [Motor.reset_from]. unfold bind at 1, get at 1. unfold bind at 1, lift at 1.
      rewrite (py_get_nat _ _ _ Hcf). unfold bind at 1. rewrite Hstep. done.
    + split; [done|]. split; [done|]. split; [lia|].
      rewrite Hfl, Hf.
      rewrite (take_S_r _ _ 1) by (apply list_lookup_insert_eq; lia).
      rewrite take_insert_ge by lia. rewrite <- app_assoc. done.
Qed.

(** X5.  [MotorController.reset_all] on a controller whose lists have one
    entry per channel and where no stop is pending: it returns normally,
    every channel is recorded on floor 1, and the controller is in order
    again. *)
Theorem motor_reset_all_returns_to_floor_one (c : Motor.controller) :
  motor_consistent c -> no_stop_pending c ->
  0 < Motor.STEPS_PER_FLOOR c ->
  exists c',
    Motor.reset_all c = (Ok tt, c')
    /\ Motor.current_floor c' = replicate (length (Motor.motors c)) 1
    /\ motor_consistent c' /\ no_stop_pending c'.
Proof.
  intros Hcons Hns Hspf.
  destruct (motor_reset_from_run (length (Motor.motors c)) 0 c Hcons Hns Hspf eq_refl)
    as (c' & Hrun & ? & ? & ? & Hfl).
  exists c'. split; [done|]. by rewrite Hfl, take_0.
Qed.

(** ** The scheduler at rest *)

Lemma dict_get_nat (l : list Elevator.elevator) (n : nat) (e : Elevator.elevator) :
  l !! n = Some e -> Elevator.dict_get l (Z.of_nat n) = Ok e.
Proof.
  intros H. pose proof (lookup_lt_Some _ _ _ H).
  unfold Elevator.dict_get, Elevator.has_key.
  destruct (Z.leb_spec 0 (Z.of_nat n)); [|lia].
  destruct (Z.ltb_spec (Z.of_nat n) (Z.of_nat (length l))); [|lia].
  cbn. by rewrite Nat2Z.id, H.
Qed.

Lemma has_key_nat (l : list Elevator.elevator) (n : nat) :
  (n < length l)%nat -> Elevator.has_key l (Z.of_nat n) = true.
Proof.
  intros H. unfold Elevator.has_key.
  destruct (Z.leb_spec 0 (Z.of_nat n)); [|lia].
  destruct (Z.ltb_spec (Z.of_nat n) (Z.of_nat (length l))); [done|lia].
Qed.

Lemma has_key_inv (l : list Elevator.elevator) (i : Z) :
  Elevator.has_key l i = true -> exists n, i = Z.of_nat n /\ (n < length l)%nat.
Proof.
  unfold Elevator.has_key. intros H. apply andb_prop in H as [H1 H2].
  apply Z.leb_le in H1. apply Z.ltb_lt in H2.
  exists (Z.to_nat i). lia.
Qed.

Lemma dict_get_missing (l : list Elevator.elevator) (i : Z) :
  Elevator.has_key l i = false -> Elevator.dict_get l i = Raise KeyError.
Proof. intros H. unfold Elevator.dict_get. by rewrite H. Qed.

Lemma update_nat (m : Elevator.manager) (n : nat) (e : Elevator.elevator)
    (f : Elevator.elevator -> Elevator.elevator) :
  Elevator.elevators m !! n = Some e ->
  Elevator.update (Z.of_nat n) f m
  = (Ok tt, Elevator.with_elevators (<[n := f e]> (Elevator.elevators m)) m).
Proof.
  intros H. unfold Elevator.update, bind, get, lift, put.
  rewrite (dict_get_nat _ _ _ H). by rewrite Nat2Z.id.
Qed.

(** [_assign_floor] for the floor the elevator is on. *)
Lemma assign_same_floor (m : Elevator.manager) (n : nat) (e : Elevator.elevator) :
  Elevator.lock_held m = false ->
  Elevator.elevators m !! n = Some e ->
  Elevator._assign_floor (Z.of_nat n) (Elevator.floor e) m
  = (Ok tt,
     Elevator.with_elevators
       (<[n := Elevator.set_active true e]> (Elevator.elevators m)) m).
Proof.
  intros Hlock He. unfold Elevator._assign_floor. unfold bind at 1, get at 1.
  unfold bind at 1, lift at 1. rewrite (dict_get_nat _ _ _ He).
  rewrite Z.eqb_refl.
  unfold Elevator.with_lock, Elevator.acquire, Elevator.release, try_finally,
    bind, get, put, modify.
  rewrite Hlock. erewrite update_nat by (cbn; exact He).
  destruct m as [mc els cq lk]. cbn in *. by subst lk.
Qed.

(** [_assign_floor] for another floor of the building. *)
Lemma assign_other_floor (m : Elevator.manager) (n : nat) (e : Elevator.elevator)
    (fl : Z) :
  manager_sound m ->
  Elevator.elevators m !! n = Some e ->
  1 <= fl <= 3 -> fl <> Elevator.floor e ->
  exists c',
    Motor.move_to_floor (Z.of_nat n) fl None (Elevator.motors m) = (Ok tt, c')
    /\ Elevator._assign_floor (Z.of_nat n) fl m
       = (Ok tt,
          Elevator.with_motors c'
            (Elevator.with_elevators
               (<[n := {| Elevator.floor := fl; Elevator.target := None;
                          Elevator.status := Elevator.Idle;
                          Elevator.queue := Elevator.queue e;
                          Elevator.active := true |}]> (Elevator.elevators m)) m)).
Proof.
  intros (Hlock & Hcons & Hns & Hspf & Hlen & Hels) He Hfl Hne.
  destruct (Hels n e He) as (Hq & Hfe & Hcf).
  destruct (move_to_floor_keeps_order _ n _ fl Hcons Hns Hcf Hspf Hfl)
    as (c' & Hmove & _).
  exists c'. split; [done|].
  pose proof (lookup_lt_Some _ _ _ He) as Hn.
  unfold Elevator._assign_floor. unfold bind at 1, get at 1.
  unfold bind at 1, lift at 1. rewrite (dict_get_nat _ _ _ He).
  destruct (Z.eqb_spec fl (Elevator.floor e)); [done|].
  unfold bind at 1. rewrite (update_nat _ _ _ _ He).
  unfold bind at 1. erewrite update_nat; last first.
  { cbn. apply list_lookup_insert_eq. lia. }
  unfold try_except. unfold bind at 1.
  unfold Elevator.lift_motor, zoom. cbn [Elevator.motors Elevator.with_elevators].
  rewrite Hmove.
  unfold Elevator.with_lock, Elevator.acquire, Elevator.release, try_finally.
  unfold bind at 1. unfold bind at 1, get at 1.
  cbn [Elevator.lock_held Elevator.with_motors Elevator.with_elevators]. rewrite Hlock.
  unfold put at 1. unfold bind.
  repeat (erewrite update_nat;
          [| cbn; rewrite ?list_insert_insert_eq; apply list_lookup_insert_eq; lia]).
  unfold modify. cbn. rewrite !list_insert_insert_eq.
  destruct m as [mc els cq lk]. cbn in *. by subst lk.
Qed.

(** [_assign_floor] for a floor that the building does not have. *)
Lemma assign_unknown_floor (m : Elevator.manager) (n : nat) (e : Elevator.elevator)
    (fl : Z) :
  manager_sound m ->
  Elevator.elevators m !! n = Some e ->
  fl < 1 \/ 3 < fl ->
  Elevator._assign_floor (Z.of_nat n) fl m
  = (Ok tt,
     Elevator.with_elevators
       (<[n := {| Elevator.floor := Elevator.floor e; Elevator.target := Some fl;
                  Elevator.status := Elevator.Error;
                  Elevator.queue := Elevator.queue e;
                  Elevator.active := false |}]> (Elevator.elevators m)) m).
Proof.
  intros (Hlock & Hcons & Hns & Hspf & Hlen & Hels) He Hfl.
  destruct (Hels n e He) as (Hq & Hfe & Hcf).
  pose proof (lookup_lt_Some _ _ _ He) as Hn.
  unfold Elevator._assign_floor. unfold bind at 1, get at 1.
  unfold bind at 1, lift at 1. rewrite (dict_get_nat _ _ _ He).
  destruct (Z.eqb_spec fl (Elevator.floor e)); [lia|].
  unfold bind at 1. rewrite (update_nat _ _ _ _ He).
  unfold bind at 1. erewrite update_nat; last first.
  { cbn. apply list_lookup_insert_eq. lia. }
  unfold try_except. unfold bind at 1.
  unfold Elevator.lift_motor, zoom. cbn [Elevator.motors Elevator.with_elevators].
  rewrite (move_to_floor_bad_floor _ n _ fl None Hcf ltac:(lia) Hfl).
  unfold Elevator.with_lock, Elevator.acquire, Elevator.release, try_finally.
  unfold bind at 1. unfold bind at 1, get at 1.
  cbn [Elevator.lock_held Elevator.with_motors Elevator.with_elevators]. rewrite Hlock.
  unfold put at 1. unfold bind.
  repeat (erewrite update_nat;
          [| cbn; rewrite ?list_insert_insert_eq; apply list_lookup_insert_eq; lia]).
  unfold modify. cbn. rewrite !list_insert_insert_eq.
  destruct m as [mc els cq lk]. cbn in *. by subst lk.
Qed.

Lemma sound_with_elevator (m : Elevator.manager) (n : nat)
    (e e' : Elevator.elevator) :
  manager_sound m ->
  Elevator.elevators m !! n = Some e ->
  Elevator.queue e' = [] -> Elevator.floor e' = Elevator.floor e ->
  manager_sound (Elevator.with_elevators (<[n := e']> (Elevator.elevators m)) m).
Proof.
  intros (Hlock & Hcons & Hns & Hspf & Hlen & Hels) He Hq Hf.
  pose proof (lookup_lt_Some _ _ _ He) as Hn.
  split; [done|]. split; [done|]. split; [done|]. split; [done|].
  split; [cbn; by rewrite length_insert|].
  intros i e0 H. cbn in H |- *.
  destruct (decide (i = n)) as [->|Hi].
  - rewrite list_lookup_insert_eq in H by lia. injection H as <-.
    rewrite Hf. split; [done|]. by apply (Hels n e).
  - rewrite list_lookup_insert_ne in H by done. by apply Hels.
Qed.

Lemma sound_after_move (m : Elevator.manager) (n : nat)
    (e e' : Elevator.elevator) (c' : Motor.controller) (fl : Z) :
  manager_sound m ->
  Elevator.elevators m !! n = Some e ->
  1 <= fl <= 3 ->
  Motor.move_to_floor (Z.of_nat n) fl None (Elevator.motors m) = (Ok tt, c') ->
  Elevator.queue e' = [] -> Elevator.floor e' = fl ->
  manager_sound
    (Elevator.with_motors c'
       (Elevator.with_elevators (<[n := e']> (Elevator.elevators m)) m))
  /\ Motor.current_floor c' !! n = Some fl.
Proof.
  intros (Hlock & Hcons & Hns & Hspf & Hlen & Hels) He Hfl Hmove Hq Hf.
  pose proof (lookup_lt_Some _ _ _ He) as Hn.
  destruct (Hels n e He) as (_ & _ & Hcf).
  destruct (move_to_floor_keeps_order _ n _ fl Hcons Hns Hcf Hspf Hfl)
    as (c1 & Hmove1 & Hc1 & Hn1 & Hs1 & Hl1 & Hf1).
  rewrite Hmove in Hmove1. injection Hmove1 as <-.
  pose proof (lookup_lt_Some _ _ _ Hcf) as Hn'.
  split.
  - split; [done|]. split; [done|]. split; [done|]. split; [cbn; lia|].
    split; [cbn; rewrite length_insert; lia|].
    intros i e0 H. cbn in H |- *. rewrite Hf1.
    destruct (decide (i = n)) as [->|Hi].
    + rewrite list_lookup_insert_eq in H by lia. injection H as <-.
      rewrite list_lookup_insert_eq by lia. rewrite Hf. done.
    + rewrite list_lookup_insert_ne in H by done.
      rewrite list_lookup_insert_ne by done. by apply Hels.
  - rewrite Hf1. by apply list_lookup_insert_eq.
Qed.

Lemma assign_floor_in_building (m : Elevator.manager) (n : nat)
    (e : Elevator.elevator) (fl : Z) :
  manager_sound m ->
  Elevator.elevators m !! n = Some e ->
  1 <= fl <= 3 ->
  exists m' e',
    Elevator._assign_floor (Z.of_nat n) fl m = (Ok tt, m')
    /\ Elevator.elevators m' = <[n := e']> (Elevator.elevators m)
    /\ Elevator.floor e' = fl /\ Elevator.active e' = true
    /\ (fl <> Elevator.floor e ->
        Elevator.status e' = Elevator.Idle /\ Elevator.target e' = None)
    /\ (fl = Elevator.floor e ->
        Elevator.status e' = Elevator.status e
        /\ Elevator.motors m' = Elevator.motors m)
    /\ Motor.current_floor (Elevator.motors m') !! n = Some fl
    /\ manager_sound m'.
Proof.
  intros Hs He Hfl.
  pose proof Hs as (Hlock & Hcons & Hns & Hspf & Hlen & Hels).
  destruct (Hels n e He) as (Hq & Hfe & Hcf).
  destruct (Z.eq_dec fl (Elevator.floor e)) as [->|Hne].
  - eexists _, (Elevator.set_active true e).
    split; [by apply assign_same_floor|].
    split; [done|]. split; [done|]. split; [done|]. split; [done|].
    split; [done|]. split; [done|]. by eapply sound_with_elevator.
  - destruct (assign_other_floor m n e fl Hs He Hfl Hne) as (c' & Hmove & Hrun).
    eexists _, _. split; [exact Hrun|].
    split; [done|]. split; [done|]. split; [done|]. split; [done|].
    split; [done|].
    destruct (sound_after_move m n e
                {| Elevator.floor := fl; Elevator.target := None;
                   Elevator.status := Elevator.Idle;
                   Elevator.queue := Elevator.queue e; Elevator.active := true |}
                c' fl Hs He Hfl Hmove Hq eq_refl) as [Hsound Hfloor].
    split; [exact Hfloor | exact Hsound].
Qed.

(** X6.  [_assign_floor] for an elevator of the table and a floor of the
    building, on a scheduler at rest: it returns normally; the elevator is
    on that floor, in the table and in the controller, and is active; if it
    came from another floor its status is idle and its target is cleared; if
    it was there already its status is kept and the controller is not
    touched.  The scheduler is at rest again. *)
Theorem assign_floor_services_the_floor (m : Elevator.manager) (n : nat)
    (e : Elevator.elevator) (fl : Z) :
  manager_sound m ->
  Elevator.elevators m !! n = Some e ->
  1 <= fl <= 3 ->
  exists m' e',
    Elevator._assign_floor (Z.of_nat n) fl m = (Ok tt, m')
    /\ Elevator.elevators m' = <[n := e']> (Elevator.elevators m)
    /\ Elevator.floor e' = fl /\ Elevator.active e' = true
    /\ (fl <> Elevator.floor e ->
        Elevator.status e' = Elevator.Idle /\ Elevator.target e' = None)
    /\ (fl = Elevator.floor e ->
        Elevator.status e' = Elevator.status e
        /\ Elevator.motors m' = Elevator.motors m)
    /\ Motor.current_floor (Elevator.motors m') !! n = Some fl
    /\ manager_sound m'.
Proof. apply assign_floor_in_building. Qed.

(** X7.  [_assign_floor] for a floor outside 1..3: the ValueError of the
    controller is caught, the call returns normally, and the elevator is
    left with status error, inactive, the refused floor as its target and
    its floor unchanged; the controller is not touched and the scheduler is
    at rest again. *)
Theorem assign_floor_swallows_unknown_floor (m : Elevator.manager) (n : nat)
    (e : Elevator.elevator) (fl : Z) :
  manager_sound m ->
  Elevator.elevators m !! n = Some e ->
  fl < 1 \/ 3 < fl ->
  exists m',
    Elevator._assign_floor (Z.of_nat n) fl m = (Ok tt, m')
    /\ Elevator.elevators m'
       = <[n := {| Elevator.floor := Elevator.floor e; Elevator.target := Some fl;
                   Elevator.status := Elevator.Error;
                   Elevator.queue := Elevator.queue e;
                   Elevator.active := false |}]> (Elevator.elevators m)
    /\ Elevator.motors m' = Elevator.motors m
    /\ manager_sound m'.
Proof.
  intros Hs He Hfl.
  pose proof Hs as (Hlock & Hcons & Hns & Hspf & Hlen & Hels).
  destruct (Hels n e He) as (Hq & Hfe & Hcf).
  eexists. split; [by apply assign_unknown_floor|].
  split; [done|]. split; [done|]. by eapply sound_with_elevator.
Qed.

(** A key that the table does not have. *)
Lemma assign_unknown_elevator (m : Elevator.manager) (elevator_id fl : Z) :
  Elevator.has_key (Elevator.elevators m) elevator_id = false ->
  Elevator._assign_floor elevator_id fl m = (Raise KeyError, m).
Proof.
  intros H. unfold Elevator._assign_floor, bind, get, lift. cbv beta iota.
  by rewrite (dict_get_missing _ _ H).
Qed.

(** Whatever its arguments, [_assign_floor] leaves the scheduler in order
    and does not wait. *)
Lemma assign_floor_sound (m : Elevator.manager) (elevator_id fl : Z) :
  manager_sound m ->
  exists r m',
    Elevator._assign_floor elevator_id fl m = (r, m')
    /\ r <> Blocked /\ manager_sound m'
    /\ (Elevator.has_key (Elevator.elevators m) elevator_id = true -> r = Ok tt)
    /\ length (Elevator.elevators m') = length (Elevator.elevators m).
Proof.
  intros Hs.
  destruct (Elevator.has_key (Elevator.elevators m) elevator_id) eqn:Hkey.
  - destruct (has_key_inv _ _ Hkey) as (n & -> & Hn).
    destruct (lookup_lt_is_Some_2 _ _ Hn) as [e He].
    destruct (Z.le_gt_cases 1 fl) as [H1|H1]; [destruct (Z.le_gt_cases fl 3) as [H3|H3]|].
    + destruct (assign_floor_in_building m n e fl Hs He (conj H1 H3))
        as (m' & e' & Hrun & Hel & _ & _ & _ & _ & _ & Hs').
      exists (Ok tt), m'. split; [done|]. split; [done|]. split; [done|].
      split; [done|]. by rewrite Hel, length_insert.
    + pose proof Hs as (_ & _ & _ & _ & _ & Hels). destruct (Hels n e He) as (Hq & _).
      eexists (Ok tt), _. split; [apply assign_unknown_floor; [done|done|lia]|].
      split; [done|]. split; [by eapply sound_with_elevator|].
      split; [done|]. cbn. by rewrite length_insert.
    + pose proof Hs as (_ & _ & _ & _ & _ & Hels). destruct (Hels n e He) as (Hq & _).
      eexists (Ok tt), _. split; [apply assign_unknown_floor; [done|done|lia]|].
      split; [done|]. split; [by eapply sound_with_elevator|].
      split; [done|]. cbn. by rewrite length_insert.
  - exists (Raise KeyError), m. split; [by apply assign_unknown_elevator|].
    split; [done|]. split; [done|]. split; [done|]. done.
Qed.

Lemma set_queue_back (e : Elevator.elevator) (q : list Z) :
  Elevator.queue e = [] -> Elevator.set_queue [] (Elevator.set_queue q e) = e.
Proof. intros H. destruct e. cbn in *. by subst. Qed.

Lemma with_elevators_id (m : Elevator.manager) :
  Elevator.with_elevators (Elevator.elevators m) m = m.
Proof. by destruct m. Qed.

(** [send_elevator] on an elevator of the table whose queue is empty comes
    down to one [_assign_floor]. *)
Lemma send_elevator_is_assign (m : Elevator.manager) (n : nat)
    (e : Elevator.elevator) (fl : Z) :
  manager_sound m ->
  Elevator.elevators m !! n = Some e ->
  Elevator.send_elevator (Z.of_nat n) fl m
  = Elevator._assign_floor (Z.of_nat n) fl m.
Proof.
  intros Hs He. pose proof Hs as (_ & _ & _ & _ & _ & Hels).
  destruct (Hels n e He) as (Hq & _).
  pose proof (lookup_lt_Some _ _ _ He) as Hn.
  unfold Elevator.send_elevator. unfold bind at 1, get at 1.
  rewrite has_key_nat by done. cbn [negb].
  unfold bind at 1. rewrite (update_nat _ _ _ _ He).
  unfold Elevator._process_elevator_queue. unfold bind at 1, get at 1.
  unfold bind at 1, lift at 1.
  erewrite dict_get_nat by (cbn; apply list_lookup_insert_eq; lia).
  cbn [Elevator.queue Elevator.set_queue]. rewrite Hq. cbn [app Elevator.process_destinations].
  unfold bind at 1. erewrite update_nat by (cbn; apply list_lookup_insert_eq; lia).
  cbn [Elevator.elevators Elevator.with_elevators].
  rewrite list_insert_insert_eq.
  replace (Elevator.set_queue [] _) with e.
  2:{ destruct e. cbn in *. by subst. }
  rewrite list_insert_id by done.
  replace (Elevator.with_elevators (Elevator.elevators m) _) with m by (by destruct m).
  unfold bind, ret.
  destruct (Elevator._assign_floor (Z.of_nat n) fl m) as [[[]| |] m']; done.
Qed.

Lemma send_elevator_unknown (m : Elevator.manager) (elevator_id fl : Z) :
  Elevator.has_key (Elevator.elevators m) elevator_id = false ->
  Elevator.send_elevator elevator_id fl m
  = (Raise (ValueError "Invalid elevator ID"), m).
Proof.
  intros H. unfold Elevator.send_elevator, bind, get. cbv beta iota.
  by rewrite H.
Qed.

(** Whatever its arguments, [send_elevator] leaves the scheduler in order
    and does not wait. *)
Lemma send_elevator_sound (m : Elevator.manager) (elevator_id fl : Z) :
  manager_sound m ->
  exists r m',
    Elevator.send_elevator elevator_id fl m = (r, m')
    /\ r <> Blocked /\ manager_sound m'
    /\ length (Elevator.elevators m') = length (Elevator.elevators m).
Proof.
  intros Hs.
  destruct (Elevator.has_key (Elevator.elevators m) elevator_id) eqn:Hkey.
  - destruct (has_key_inv _ _ Hkey) as (n & -> & Hn).
    destruct (lookup_lt_is_Some_2 _ _ Hn) as [e He].
    rewrite (send_elevator_is_assign m n e fl Hs He).
    destruct (assign_floor_sound m (Z.of_nat n) fl Hs) as (r & m' & Hrun & ? & ? & _ & ?).
    by exists r, m'.
  - exists (Raise (ValueError "Invalid elevator ID")), m.
    split; [by apply send_elevator_unknown|]. done.
Qed.

(** X8.  [send_elevator] for an elevator of the table and a floor of the
    building, on a scheduler at rest: the floor is queued and served at
    once; the call returns normally with the elevator on that floor, in the
    table and in the controller, active and with an empty queue, and the
    scheduler at rest again. *)
Theorem send_elevator_moves_the_elevator (m : Elevator.manager) (n : nat)
    (e : Elevator.elevator) (fl : Z) :
  manager_sound m ->
  Elevator.elevators m !! n = Some e ->
  1 <= fl <= 3 ->
  exists m' e',
    Elevator.send_elevator (Z.of_nat n) fl m = (Ok tt, m')
    /\ Elevator.elevators m' = <[n := e']> (Elevator.elevators m)
    /\ Elevator.floor e' = fl /\ Elevator.queue e' = []
    /\ Elevator.active e' = true
    /\ Motor.current_floor (Elevator.motors m') !! n = Some fl
    /\ manager_sound m'.
Proof.
  intros Hs He Hfl. rewrite (send_elevator_is_assign m n e fl Hs He).
  destruct (assign_floor_in_building m n e fl Hs He Hfl)
    as (m' & e' & Hrun & Hel & Hf & Ha & _ & _ & Hcf & Hs').
  exists m', e'. split; [done|]. split; [done|]. split; [done|].
  split.
  { destruct Hs' as (_ & _ & _ & _ & _ & Hels').
    apply (Hels' n e'). rewrite Hel. apply list_lookup_insert_eq.
    by eapply lookup_lt_Some. }
  done.
Qed.

(** X9.  An elevator id that is not a key of the table, negative ones
    included, makes [send_elevator] raise ValueError before it touches
    anything. *)
Theorem send_elevator_rejects_unknown_elevator (m : Elevator.manager)
    (elevator_id fl : Z) :
  elevator_id < 0 \/ Z.of_nat (length (Elevator.elevators m)) <= elevator_id ->
  Elevator.send_elevator elevator_id fl m
  = (Raise (ValueError "Invalid elevator ID"), m).
Proof.
  intros H. apply send_elevator_unknown. unfold Elevator.has_key.
  destruct (Z.leb_spec 0 elevator_id); [|done].
  destruct (Z.ltb_spec elevator_id (Z.of_nat (length (Elevator.elevators m))));
    [lia | done].
Qed.

Lemma elevator_reset_from_run (k : nat) :
  forall (i : nat) (m : Elevator.manager),
    motor_consistent (Elevator.motors m) ->
    no_stop_pending (Elevator.motors m) ->
    0 < Motor.STEPS_PER_FLOOR (Elevator.motors m) ->
    length (Elevator.elevators m) = length (Motor.motors (Elevator.motors m)) ->
    (i + k = length (Elevator.elevators m))%nat ->
    exists m',
      Elevator.reset_from i k m = (Ok tt, m')
      /\ motor_consistent (Elevator.motors m')
      /\ no_stop_pending (Elevator.motors m')
      /\ 0 < Motor.STEPS_PER_FLOOR (Elevator.motors m')
      /\ length (Motor.motors (Elevator.motors m'))
         = length (Motor.motors (Elevator.motors m))
      /\ Elevator.elevators m'
         = take i (Elevator.elevators m) ++ replicate k Elevator.fresh
      /\ Motor.current_floor (Elevator.motors m')
         = take i (Motor.current_floor (Elevator.motors m)) ++ replicate k 1
      /\ Elevator.lock_held m' = Elevator.lock_held m
      /\ Elevator.call_queue m' = Elevator.call_queue m.
Proof.
  induction k as [|k IH]; intros i m Hcons Hns Hspf Hlen Hik.
  - exists m. split; [done|]. cbn. rewrite !app_nil_r.
    pose proof Hcons as (_ & _ & Hl3).
    rewrite !take_ge by lia. done.
  - pose proof Hcons as (Hl1 & Hl2 & Hl3).
    destruct (lookup_lt_is_Some_2 (Elevator.elevators m) i ltac:(lia)) as [e He].
    destruct (lookup_lt_is_Some_2 (Motor.current_floor (Elevator.motors m)) i ltac:(lia))
      as [cf Hcf].
    destruct (move_to_floor_keeps_order _ i cf 1 Hcons Hns Hcf Hspf ltac:(lia))
      as (c1 & Hmove & Hc1 & Hn1 & Hs1 & Hlen1 & Hf1).
    cbn [Elevator.reset_from].
    unfold bind at 1. rewrite (update_nat _ _ _ _ He).
    unfold bind at 1. erewrite update_nat by (cbn; apply list_lookup_insert_eq; rewrite ?length_insert; lia).
    unfold bind at 1. erewrite update_nat by (cbn; apply list_lookup_insert_eq; rewrite ?length_insert; lia).
    unfold bind at 1. unfold Elevator.lift_motor, zoom.
    cbn [Elevator.motors Elevator.with_elevators]. rewrite Hmove.
    unfold bind at 1. erewrite update_nat by (cbn; apply list_lookup_insert_eq;
                                               rewrite !length_insert; lia).
    unfold bind at 1. erewrite update_nat by (cbn; apply list_lookup_insert_eq;
                                               rewrite !length_insert; lia).
    cbn [Elevator.elevators Elevator.with_elevators Elevator.with_motors
         Elevator.motors Elevator.call_queue Elevator.lock_held
         Elevator.set_queue Elevator.set_target Elevator.set_status
         Elevator.set_floor Elevator.set_active Elevator.floor Elevator.target
         Elevator.status Elevator.queue Elevator.active].
    rewrite !list_insert_insert_eq.
    match goal with
    | |- context [Elevator.reset_from (S i) k ?m1] =>
        destruct (IH (S i) m1) as (m' & Hrun & ? & ? & ? & Hl' & Hel & Hfl & Hlk & Hcq)
    end; cbn; try done; try (rewrite ?length_insert; lia).
    exists m'. split; [done|]. cbn in *.
    split; [done|]. split; [done|]. split; [done|]. split; [lia|].
    split.
    { rewrite Hel. rewrite (take_S_r _ _ Elevator.fresh)
        by (apply list_lookup_insert_eq; lia).
      rewrite take_insert_ge by lia. by rewrite <- app_assoc. }
    split; [|done].
    rewrite Hfl, Hf1. rewrite (take_S_r _ _ 1) by (apply list_lookup_insert_eq; lia).
    rewrite take_insert_ge by lia. by rewrite <- app_assoc.
Qed.

Lemma elevator_reset_all_run (m : Elevator.manager) :
  motor_consistent (Elevator.motors m) ->
  no_stop_pending (Elevator.motors m) ->
  0 < Motor.STEPS_PER_FLOOR (Elevator.motors m) ->
  length (Elevator.elevators m) = length (Motor.motors (Elevator.motors m)) ->
  exists m',
    Elevator.reset_all m = (Ok tt, m')
    /\ Elevator.elevators m'
       = replicate (length (Elevator.elevators m)) Elevator.fresh
    /\ Motor.current_floor (Elevator.motors m')
       = replicate (length (Elevator.elevators m)) 1
    /\ Elevator.call_queue m' = Elevator.call_queue m
    /\ (Elevator.lock_held m = false -> manager_sound m').
Proof.
  intros Hcons Hns Hspf Hlen.
  destruct (elevator_reset_from_run (length (Elevator.elevators m)) 0 m
              Hcons Hns Hspf Hlen eq_refl)
    as (m' & Hrun & Hc & Hn & Hs & Hl & Hel & Hfl & Hlk & Hcq).
  exists m'. split; [done|]. change (take 0 (Elevator.elevators m)) with (@nil Elevator.elevator) in Hel.
  change (take 0 (Motor.current_floor (Elevator.motors m))) with (@nil Z) in Hfl.
  cbn [app] in Hel, Hfl.
  split; [done|]. split; [done|]. split; [done|].
  intros Hlock. split; [congruence|]. split; [done|]. split; [done|]. split; [done|].
  split; [rewrite Hel, length_replicate; lia|].
  intros i e H. rewrite Hel in H. apply lookup_replicate in H as [-> Hi].
  split; [done|]. split; [cbn; lia|].
  rewrite Hfl. cbn. by apply lookup_replicate_2.
Qed.

(** X10.  [ElevatorManager.reset_all], whatever the entries of the table
    hold (moving or error status, queued floors), provided the controller is
    in order and has a channel per elevator: it returns normally, every
    entry is as [__init__] made it (floor 1, no target, idle, empty queue,
    inactive), every channel is on floor 1, and the global call queue is
    left as it was.  It does not take the lock. *)
Theorem reset_all_restores_every_elevator (m : Elevator.manager) :
  motor_consistent (Elevator.motors m) ->
  no_stop_pending (Elevator.motors m) ->
  0 < Motor.STEPS_PER_FLOOR (Elevator.motors m) ->
  length (Elevator.elevators m) = length (Motor.motors (Elevator.motors m)) ->
  exists m',
    Elevator.reset_all m = (Ok tt, m')
    /\ Elevator.elevators m'
       = replicate (length (Elevator.elevators m)) Elevator.fresh
    /\ Motor.current_floor (Elevator.motors m')
       = replicate (length (Elevator.elevators m)) 1
    /\ Elevator.call_queue m' = Elevator.call_queue m
    /\ (Elevator.lock_held m = false -> manager_sound m').
Proof. apply elevator_reset_all_run. Qed.

Lemma travel_nonneg (from : Z) (dests : list Z) : 0 <= travel from dests.
Proof. revert from. induction dests as [|d rest IH]; intros from; cbn; [lia|]. specialize (IH d). lia. Qed.

Lemma last_default (l : list Z) (a x y : Z) :
  List.last (a :: l) x = List.last (a :: l) y.
Proof.
  revert a. induction l as [|b l IH]; intros a; [done|].
  change (List.last (b :: l) x = List.last (b :: l) y). apply IH.
Qed.

(** An uninterrupted move makes one pulse per step of the way. *)
Lemma move_to_floor_pulses (c : Motor.controller) (n : nat) (cf target_floor : Z) :
  motor_consistent c -> no_stop_pending c ->
  Motor.current_floor c !! n = Some cf ->
  0 < Motor.STEPS_PER_FLOOR c ->
  1 <= target_floor <= 3 ->
  exists c',
    Motor.move_to_floor (Z.of_nat n) target_floor None c = (Ok tt, c')
    /\ motor_consistent c' /\ no_stop_pending c'
    /\ Motor.STEPS_PER_FLOOR c' = Motor.STEPS_PER_FLOOR c
    /\ Motor.current_floor c' = <[n := target_floor]> (Motor.current_floor c)
    /\ Motor.pulses (Motor.trace c')
       = (Motor.pulses (Motor.trace c)
          + Z.to_nat (Z.abs (target_floor - cf) * Motor.STEPS_PER_FLOOR c))%nat.
Proof.
  intros Hcons Hns Hcf Hspf Ht.
  destruct (move_to_floor_keeps_order c n cf target_floor Hcons Hns Hcf Hspf Ht)
    as (c' & Hmove & Hc' & Hn' & Hs' & _ & Hfl).
  exists c'. split; [done|]. split; [done|]. split; [done|]. split; [done|].
  split; [done|].
  destruct (Z.eq_dec target_floor cf) as [->|Hne].
  - assert (Hsame : Motor.move_to_floor (Z.of_nat n) cf None c = (Ok tt, c)).
    { pose proof Hcons as (Hl1 & Hl2 & Hl3).
      pose proof (lookup_lt_Some _ _ _ Hcf) as Hn.
      unfold Motor.move_to_floor, bind, get, lift, ret. cbv beta iota.
      rewrite (py_get_nat _ _ _ Hcf).
      destruct (Z.geb_spec (Z.of_nat n) (Z.of_nat (length (Motor.motors c)))); [lia|].
      destruct (Z.ltb_spec cf 1); [lia|]. destruct (Z.gtb_spec cf 3); [lia|].
      cbn [orb]. by rewrite Z.eqb_refl. }
    rewrite Hsame in Hmove. injection Hmove as <-.
    rewrite Z.sub_diag. cbn. lia.
  - pose proof Hcons as (Hl1 & Hl2 & Hl3).
    pose proof (lookup_lt_Some _ _ _ Hcf) as Hn.
    destruct (lookup_lt_is_Some_2 (Motor.motors c) n ltac:(lia)) as [ch Hch].
    destruct (move_to_floor_run c n ch cf target_floor None Hcons Hch Hcf
                (no_stop_lookup c n Hns ltac:(lia)) Hspf Ht Hne)
      as (c2 & Hrun & Htr & _).
    rewrite Hrun in Hmove. injection Hmove as <-.
    rewrite Htr, pulses_app, pulses_steps, length_seq. done.
Qed.

(** [_assign_floor] for a floor of the building, whatever the queue of the
    elevator holds: the queue is neither read nor written. *)
Lemma assign_floor_ready (m : Elevator.manager) (n : nat) (e : Elevator.elevator)
    (fl : Z) :
  ready_for n e m -> 1 <= fl <= 3 ->
  exists m' e',
    Elevator._assign_floor (Z.of_nat n) fl m = (Ok tt, m')
    /\ ready_for n e' m'
    /\ Elevator.elevators m' = <[n := e']> (Elevator.elevators m)
    /\ Elevator.floor e' = fl /\ Elevator.queue e' = Elevator.queue e
    /\ Elevator.active e' = true
    /\ Motor.STEPS_PER_FLOOR (Elevator.motors m')
       = Motor.STEPS_PER_FLOOR (Elevator.motors m)
    /\ Motor.pulses (Motor.trace (Elevator.motors m'))
       = (Motor.pulses (Motor.trace (Elevator.motors m))
          + Z.to_nat (Z.abs (fl - Elevator.floor e)
                      * Motor.STEPS_PER_FLOOR (Elevator.motors m)))%nat.
Proof.
  intros (Hlock & Hcons & Hns & Hspf & He & Hcf) Hfl.
  pose proof (lookup_lt_Some _ _ _ He) as Hn.
  destruct (Z.eq_dec fl (Elevator.floor e)) as [->|Hne].
  - exists (Elevator.with_elevators
              (<[n := Elevator.set_active true e]> (Elevator.elevators m)) m),
      (Elevator.set_active true e).
    split; [by apply assign_same_floor|].
    split.
    { split; [done|]. split; [done|]. split; [done|]. split; [done|].
      split; [cbn; by apply list_lookup_insert_eq|done]. }
    split; [done|]. split; [done|]. split; [done|]. split; [done|]. split; [done|].
    cbn. rewrite Z.sub_diag. cbn. lia.
  - destruct (move_to_floor_pulses _ n _ fl Hcons Hns Hcf Hspf Hfl)
      as (c' & Hmove & Hc' & Hn' & Hs' & Hfl' & Hp).
    exists (Elevator.with_motors c'
              (Elevator.with_elevators
                 (<[n := {| Elevator.floor := fl; Elevator.target := None;
                            Elevator.status := Elevator.Idle;
                            Elevator.queue := Elevator.queue e;
                            Elevator.active := true |}]> (Elevator.elevators m)) m)),
      {| Elevator.floor := fl; Elevator.target := None;
         Elevator.status := Elevator.Idle;
         Elevator.queue := Elevator.queue e;
         Elevator.active := true |}.
    split.
    { unfold Elevator._assign_floor. unfold bind at 1, get at 1.
      unfold bind at 1, lift at 1. rewrite (dict_get_nat _ _ _ He).
      destruct (Z.eqb_spec fl (Elevator.floor e)); [done|].
      unfold bind at 1. rewrite (update_nat _ _ _ _ He).
      unfold bind at 1. erewrite update_nat; last first.
      { cbn. apply list_lookup_insert_eq. lia. }
      unfold try_except. unfold bind at 1.
      unfold Elevator.lift_motor, zoom. cbn [Elevator.motors Elevator.with_elevators].
      rewrite Hmove.
      unfold Elevator.with_lock, Elevator.acquire, Elevator.release, try_finally.
      unfold bind at 1. unfold bind at 1, get at 1.
      cbn [Elevator.lock_held Elevator.with_motors Elevator.with_elevators]. rewrite Hlock.
      unfold put at 1. unfold bind.
      repeat (erewrite update_nat;
              [| cbn; rewrite ?list_insert_insert_eq; apply list_lookup_insert_eq; lia]).
      unfold modify. cbn. rewrite !list_insert_insert_eq.
      destruct m as [mc els cq lk]. cbn in Hlock |- *. by subst lk. }
    split.
    { split; [done|]. split; [done|]. split; [done|]. split; [cbn; lia|].
      split; [cbn; by apply list_lookup_insert_eq|].
      cbn. rewrite Hfl'. apply list_lookup_insert_eq.
      by eapply lookup_lt_Some. }
    split; [done|]. split; [done|]. split; [done|]. split; [done|]. split; [done|].
    done.
Qed.

(** The loop of [_process_elevator_queue] on the destinations [dests]. *)
Lemma process_destinations_run (n : nat) (dests : list Z) :
  forall (m : Elevator.manager) (e : Elevator.elevator),
    ready_for n e m ->
    Forall (fun d => 1 <= d <= 3) dests ->
    exists m' e',
      Elevator.process_destinations (Z.of_nat n) dests m = (Ok tt, m')
      /\ ready_for n e' m'
      /\ Elevator.elevators m' = <[n := e']> (Elevator.elevators m)
      /\ Elevator.floor e' = List.last dests (Elevator.floor e)
      /\ (dests <> [] -> Elevator.queue e' = [] /\ Elevator.active e' = true)
      /\ (dests = [] -> e' = e)
      /\ Motor.STEPS_PER_FLOOR (Elevator.motors m')
         = Motor.STEPS_PER_FLOOR (Elevator.motors m)
      /\ Motor.pulses (Motor.trace (Elevator.motors m'))
         = (Motor.pulses (Motor.trace (Elevator.motors m))
            + Z.to_nat (travel (Elevator.floor e) dests
                        * Motor.STEPS_PER_FLOOR (Elevator.motors m)))%nat.
Proof.
  induction dests as [|d rest IH]; intros m e Hready Hdests.
  - exists m, e. split; [done|]. split; [done|].
    destruct Hready as (_ & _ & _ & _ & He & _).
    split; [by rewrite list_insert_id|]. split; [done|]. split; [done|].
    split; [done|]. split; [done|]. cbn. lia.
  - apply Forall_cons in Hdests as [Hd Hrest].
    pose proof Hready as (Hlock & Hcons & Hns & Hspf & He & Hcf).
    pose proof (lookup_lt_Some _ _ _ He) as Hn.
    cbn [Elevator.process_destinations]. unfold bind at 1.
    rewrite (update_nat _ _ _ _ He).
    set (m1 := Elevator.with_elevators _ m).
    assert (Hready1 : ready_for n (Elevator.set_queue rest e) m1).
    { split; [done|]. split; [done|]. split; [done|]. split; [done|].
      split; [cbn; by apply list_lookup_insert_eq|done]. }
    destruct (assign_floor_ready m1 n _ d Hready1 Hd)
      as (m2 & e2 & Hrun2 & Hready2 & Hel2 & Hf2 & Hq2 & Ha2 & Hs2 & Hp2).
    unfold bind at 1. rewrite Hrun2.
    destruct (IH m2 e2 Hready2 Hrest)
      as (m' & e' & Hrun & Hready' & Hel & Hf & Hne & Hnil & Hs & Hp).
    exists m', e'. split; [done|]. split; [done|].
    split.
    { rewrite Hel, Hel2. subst m1. cbn. by rewrite !list_insert_insert_eq. }
    split.
    { rewrite Hf, Hf2. destruct rest as [|d' rest']; [done|].
      change (List.last (d :: d' :: rest') (Elevator.floor e))
        with (List.last (d' :: rest') (Elevator.floor e)).
      apply last_default. }
    split.
    { intros _. destruct rest as [|d' rest'].
      - rewrite (Hnil eq_refl). by rewrite Hq2.
      - by apply Hne. }
    split; [done|].
    split; [by rewrite Hs, Hs2|].
    rewrite Hp, Hp2, Hs2, Hf2. subst m1. cbn [Elevator.motors Elevator.with_elevators
      Elevator.floor Elevator.set_queue travel].
    pose proof (travel_nonneg d rest).
    rewrite <- Nat.add_assoc, <- Z2Nat.inj_add by nia. f_equal. f_equal. lia.
Qed.

(** X11.  [_process_elevator_queue] for an elevator whose queue holds floors
    of the building, the lock being free and the controller in order and on
    the floor of the entry: the floors are visited in the order of the
    queue.  The call returns normally with the queue empty and the elevator
    on the last floor of the queue, in the table and in the controller, and
    the motor has made STEPS_PER_FLOOR pulses for every floor passed on the
    way from stop to stop. *)
Theorem process_elevator_queue_serves_in_order (m : Elevator.manager) (n : nat)
    (e : Elevator.elevator) :
  ready_for n e m ->
  Forall (fun d => 1 <= d <= 3) (Elevator.queue e) ->
  exists m' e',
    Elevator._process_elevator_queue (Z.of_nat n) m = (Ok tt, m')
    /\ Elevator.elevators m' = <[n := e']> (Elevator.elevators m)
    /\ Elevator.queue e' = []
    /\ Elevator.floor e' = List.last (Elevator.queue e) (Elevator.floor e)
    /\ Motor.current_floor (Elevator.motors m') !! n = Some (Elevator.floor e')
    /\ Motor.pulses (Motor.trace (Elevator.motors m'))
       = (Motor.pulses (Motor.trace (Elevator.motors m))
          + Z.to_nat (travel (Elevator.floor e) (Elevator.queue e)
                      * Motor.STEPS_PER_FLOOR (Elevator.motors m)))%nat.
Proof.
  intros Hready Hq. pose proof Hready as (_ & _ & _ & _ & He & _).
  destruct (process_destinations_run n (Elevator.queue e) m e Hready Hq)
    as (m' & e' & Hrun & Hready' & Hel & Hf & Hne & Hnil & _ & Hp).
  exists m', e'. split.
  { unfold Elevator._process_elevator_queue, bind, get, lift.
    by rewrite (dict_get_nat _ _ _ He). }
  split; [done|]. split.
  { destruct (Elevator.queue e) eqn:Hqe; [by rewrite (Hnil eq_refl)|by apply Hne]. }
  split; [done|]. split; [|done].
  by destruct Hready' as (_ & _ & _ & _ & _ & Hcf').
Qed.

Lemma process_elevator_queue_serves_in_order_witness :
  exists m' e',
    Elevator._process_elevator_queue 0
      (Elevator.with_elevators
         [Elevator.set_queue [3; 1; 2] Elevator.fresh; Elevator.fresh; Elevator.fresh]
         (Elevator.init (Motor.init MOTOR_PINS))) = (Ok tt, m')
    /\ Elevator.elevators m' !! 0%nat = Some e'
    /\ Elevator.queue e' = [] /\ Elevator.floor e' = 2
    /\ Motor.pulses (Motor.trace (Elevator.motors m')) = 2750%nat.
Proof.
  destruct (process_elevator_queue_serves_in_order
              (Elevator.with_elevators
                 [Elevator.set_queue [3; 1; 2] Elevator.fresh; Elevator.fresh;
                  Elevator.fresh]
                 (Elevator.init (Motor.init MOTOR_PINS)))
              0 (Elevator.set_queue [3; 1; 2] Elevator.fresh))
    as (m' & e' & Hrun & Hel & Hq & Hf & _ & Hp).
  - split; [reflexivity|]. split; [unfold motor_consistent; cbn; lia|].
    split; [repeat constructor|]. split; [cbn; lia|]. split; reflexivity.
  - repeat constructor; cbn; lia.
  - exists m', e'. split; [exact Hrun|]. split; [by rewrite Hel|].
    split; [exact Hq|]. split; [exact Hf | exact Hp].
Defined.

(** ** The choice of an elevator *)

(** [min(xs, key=...)] returns the first element whose key is least. *)
Lemma py_min_by_spec {A : Type} (key : A -> Z) (xs : list A) :
  forall best : A,
  exists pre post,
    best :: xs = pre ++ Elevator.py_min_by key best xs :: post
    /\ Forall (fun y => key (Elevator.py_min_by key best xs) < key y) pre
    /\ Forall (fun y => key (Elevator.py_min_by key best xs) <= key y) post.
Proof.
  induction xs as [|x xs IH]; intros best.
  - exists [], []. cbn. by repeat split.
  - cbn [Elevator.py_min_by]. destruct (Z.ltb_spec (key x) (key best)) as [Hlt|Hge].
    + destruct (IH x) as (pre & post & Heq & Hpre & Hpost).
      exists (best :: pre), post. split; [cbn; congruence|]. split; [|done].
      constructor; [|done].
      destruct pre as [|y pre'].
      * cbn in Heq. injection Heq as Hx _. rewrite <- Hx. lia.
      * cbn in Heq. injection Heq as Hx _. subst y.
        apply Forall_cons in Hpre as [Hy _]. lia.
    + destruct (IH best) as (pre & post & Heq & Hpre & Hpost).
      destruct pre as [|y pre'].
      * cbn in Heq. injection Heq as Hb Hxs.
        exists [], (x :: post). cbn. split; [congruence|].
        split; [done|]. constructor; [|done]. rewrite <- Hb. lia.
      * cbn in Heq. injection Heq as Hb Hxs. subst y.
        apply Forall_cons in Hpre as [Hy Hpre].
        exists (best :: x :: pre'), post. cbn. split; [congruence|].
        split; [|done]. constructor; [done|]. constructor; [lia|done].
Qed.

Lemma find_split {A : Type} (f : A -> bool) (xs : list A) (x : A) :
  List.find f xs = Some x ->
  exists pre post,
    xs = pre ++ x :: post /\ f x = true /\ Forall (fun y => f y = false) pre.
Proof.
  induction xs as [|y xs IH]; [done|]. cbn. destruct (f y) eqn:Hy.
  - intros [= ->]. exists [], xs. by repeat split.
  - intros H. destruct (IH H) as (pre & post & -> & Hx & Hpre).
    exists (y :: pre), post. repeat split; [done|]. by constructor.
Qed.

Lemma find_none_all {A : Type} (f : A -> bool) (xs : list A) (x : A) :
  List.find f xs = None -> x ∈ xs -> f x = false.
Proof.
  intros H Hin. apply list_elem_of_In in Hin. by eapply find_none.
Qed.

Lemma items_lookup_nat (l : list Elevator.elevator) (n : nat) :
  Elevator.items l !! n = (fun e => (Z.of_nat n, e)) <$> l !! n.
Proof. unfold Elevator.items. by rewrite list_lookup_imap. Qed.

Lemma items_elem (l : list Elevator.elevator) (n : nat) (e : Elevator.elevator) :
  l !! n = Some e -> (Z.of_nat n, e) ∈ Elevator.items l.
Proof.
  intros H. apply list_elem_of_lookup. exists n. by rewrite items_lookup_nat, H.
Qed.

Lemma items_split (l : list Elevator.elevator) (pre post : list (Z * Elevator.elevator))
    (i : Z) (e : Elevator.elevator) :
  Elevator.items l = pre ++ (i, e) :: post ->
  i = Z.of_nat (length pre) /\ l !! length pre = Some e
  /\ forall j e', l !! j = Some e' -> (j < length pre)%nat -> (Z.of_nat j, e') ∈ pre.
Proof.
  intros Heq.
  assert (H : Elevator.items l !! length pre = Some (i, e))
    by (rewrite Heq; apply list_lookup_middle; done).
  rewrite items_lookup_nat in H.
  destruct (l !! length pre) as [e1|] eqn:Hl; [|done]. cbn in H.
  injection H as <- ->. split; [done|]. split; [done|].
  intros j e' Hj Hlt.
  assert (H : Elevator.items l !! j = Some (Z.of_nat j, e'))
    by (by rewrite items_lookup_nat, Hj).
  rewrite Heq, lookup_app_l in H by done.
  by eapply list_elem_of_lookup_2.
Qed.

(** The keys of [items()] increase, and so do those of the idle entries. *)
Lemma items_from_sorted (l : list Elevator.elevator) :
  forall k : nat,
    StronglySorted by_key (imap (fun i e => (Z.of_nat (k + i), e)) l).
Proof.
  induction l as [|e l IH]; intros k; [constructor|].
  cbn [imap]. constructor.
  - erewrite imap_ext; [apply (IH (S k))|].
    intros i x _. cbn. f_equal. lia.
  - apply Forall_forall. intros [j e'] Hin.
    apply elem_of_lookup_imap in Hin as (n & e'' & [= -> ->] & _).
    unfold by_key. cbn. lia.
Qed.

Lemma items_sorted (l : list Elevator.elevator) :
  StronglySorted by_key (Elevator.items l).
Proof. apply (items_from_sorted l 0). Qed.

Lemma sorted_filter_map {B C : Type} (f : Z * B -> bool) (g : Z * B -> Z * C)
    (xs : list (Z * B)) :
  (forall p, fst (g p) = fst p) ->
  StronglySorted by_key xs ->
  StronglySorted by_key (map g (List.filter f xs)).
Proof.
  intros Hg. induction 1 as [|x xs Hs IH Hall]; [constructor|].
  cbn. destruct (f x); [|done]. cbn. constructor; [done|].
  apply Forall_forall. intros y Hy.
  apply list_elem_of_In, in_map_iff in Hy as (p & <- & Hp).
  apply filter_In in Hp as [Hp _]. apply list_elem_of_In in Hp.
  rewrite Forall_forall in Hall. specialize (Hall _ Hp).
  unfold by_key in *. by rewrite !Hg.
Qed.

Lemma sorted_after {A : Type} (R : A -> A -> Prop) (pre post : list A) (r y : A) :
  StronglySorted R (pre ++ r :: post) -> y ∈ post -> R r y.
Proof.
  induction pre as [|x pre IH]; cbn; intros Hs Hy.
  - apply StronglySorted_inv in Hs as [_ Hall].
    rewrite Forall_forall in Hall. by apply Hall.
  - apply StronglySorted_inv in Hs as [Hs _]. by apply IH.
Qed.

(** With an idle elevator in the table, the selection is an idle elevator
    at the least distance, the lowest key among those. *)
Lemma select_best_idle (l : list Elevator.elevator) (fl : Z) (j0 : nat)
    (e0 : Elevator.elevator) :
  l !! j0 = Some e0 -> Elevator.status e0 = Elevator.Idle ->
  exists (i : nat) (e : Elevator.elevator),
    Elevator.select_best l fl = Ok (Some (Z.of_nat i))
    /\ l !! i = Some e /\ Elevator.status e = Elevator.Idle
    /\ forall (j : nat) (e' : Elevator.elevator),
         l !! j = Some e' -> Elevator.status e' = Elevator.Idle ->
         Z.abs (Elevator.floor e - fl) <= Z.abs (Elevator.floor e' - fl)
         /\ (Z.abs (Elevator.floor e' - fl) = Z.abs (Elevator.floor e - fl)
             -> (i <= j)%nat).
Proof.
  intros Hj0 Hidle0. unfold Elevator.select_best.
  destruct (List.find _ (Elevator.items l)) as [[i e]|] eqn:Hfind.
  - apply find_split in Hfind as (pre & post & Heq & Hf & Hpre).
    apply items_split in Heq as (-> & Hl & Hbefore). cbn in Hf.
    apply andb_true_iff in Hf as [Hfloor Hst].
    apply Z.eqb_eq in Hfloor. apply bool_decide_eq_true in Hst.
    exists (length pre), e. split; [done|]. split; [done|]. split; [done|].
    intros j e' Hj Hst'. split; [lia|]. intros Hd.
    destruct (decide (j < length pre)%nat) as [Hlt|]; [|lia].
    specialize (Hbefore _ _ Hj Hlt).
    rewrite Forall_forall in Hpre. specialize (Hpre _ Hbefore). cbn in Hpre.
    apply andb_false_iff in Hpre as [Hne|Hne].
    + apply Z.eqb_neq in Hne. lia.
    + apply bool_decide_eq_false in Hne. done.
  - set (idle := fun p : Z * Elevator.elevator =>
                   bool_decide (Elevator.status (snd p) = Elevator.Idle)).
    set (g := fun p : Z * Elevator.elevator =>
                (fst p, Z.abs (Elevator.floor (snd p) - fl))).
    assert (Hin : forall j e', l !! j = Some e' ->
              Elevator.status e' = Elevator.Idle ->
              (Z.of_nat j, Z.abs (Elevator.floor e' - fl))
                ∈ map g (List.filter idle (Elevator.items l))).
    { intros j e' Hj Hst. apply list_elem_of_In, in_map_iff.
      exists (Z.of_nat j, e'). split; [done|]. apply filter_In. split.
      - apply list_elem_of_In. by apply items_elem.
      - unfold idle. cbn. by apply bool_decide_eq_true. }
    assert (Hsorted : StronglySorted by_key (map g (List.filter idle (Elevator.items l))))
      by (apply sorted_filter_map; [done|apply items_sorted]).
    destruct (map g (List.filter idle (Elevator.items l))) as [|a rest] eqn:Havail.
    { specialize (Hin _ _ Hj0 Hidle0). by apply elem_of_nil in Hin. }
    destruct (py_min_by_spec snd rest a) as (pre & post & Heq & Hpre & Hpost).
    set (r := Elevator.py_min_by snd a rest) in *.
    assert (Hr : r ∈ map g (List.filter idle (Elevator.items l))).
    { rewrite Havail, Heq. apply elem_of_app. right. left. }
    apply list_elem_of_In, in_map_iff in Hr as ([i' e] & Hgr & Hp).
    apply filter_In in Hp as [Hp Hst]. unfold idle in Hst. cbn in Hst.
    apply bool_decide_eq_true in Hst.
    apply items_lookup in Hp as [Hi' Hl].
    exists (Z.to_nat i'), e. rewrite <- Hgr. cbn [fst g].
    rewrite Z2Nat.id by done. split; [done|]. split; [done|]. split; [done|].
    intros j e' Hj Hst'. specialize (Hin _ _ Hj Hst').
    rewrite Heq in Hin, Hsorted.
    apply elem_of_app in Hin as [Hin|Hin].
    + rewrite Forall_forall in Hpre. specialize (Hpre _ Hin).
      rewrite <- Hgr in Hpre. cbn in Hpre. lia.
    + apply elem_of_cons in Hin as [Hin|Hin].
      * rewrite <- Hgr in Hin. unfold g in Hin. cbn in Hin.
        injection Hin as Hji Hd. lia.
      * rewrite Forall_forall in Hpost. pose proof (Hpost _ Hin) as Hle.
        rewrite <- Hgr in Hle. cbn in Hle. split; [done|]. intros _.
        pose proof (sorted_after _ _ _ _ _ Hsorted Hin) as Hall.
        rewrite <- Hgr in Hall. unfold by_key in Hall. cbn in Hall. lia.
Qed.

(** With no idle elevator, the selection is an elevator with the shortest
    queue, the lowest key among those. *)
Lemma select_best_busy (l : list Elevator.elevator) (fl : Z) :
  l <> [] ->
  Forall (fun e => Elevator.status e <> Elevator.Idle) l ->
  exists (i : nat) (e : Elevator.elevator),
    Elevator.select_best l fl = Ok (Some (Z.of_nat i))
    /\ l !! i = Some e
    /\ forall (j : nat) (e' : Elevator.elevator),
         l !! j = Some e' ->
         (length (Elevator.queue e) <= length (Elevator.queue e'))%nat
         /\ (length (Elevator.queue e') = length (Elevator.queue e)
             -> (i <= j)%nat).
Proof.
  intros Hne Hall. unfold Elevator.select_best.
  assert (Hidle : forall p, In p (Elevator.items l) ->
            bool_decide (Elevator.status (snd p) = Elevator.Idle) = false).
  { intros [i e] Hin. apply items_lookup in Hin as [_ Hl].
    rewrite Forall_lookup in Hall. specialize (Hall _ _ Hl). simpl.
    by apply bool_decide_eq_false. }
  destruct (List.find _ (Elevator.items l)) as [[i e]|] eqn:Hfind.
  { apply find_some in Hfind as [Hin Hf]. specialize (Hidle _ Hin).
    cbn in Hf, Hidle. rewrite Hidle, andb_false_r in Hf. done. }
  clear Hfind.
  replace (List.filter _ (Elevator.items l)) with (@nil (Z * Elevator.elevator)).
  2:{ symmetry. induction (Elevator.items l) as [|p ps IH]; [done|].
      cbn. rewrite (Hidle p) by (by left). apply IH.
      intros q Hq. apply Hidle. by right. }
  cbn [map].
  destruct (map (fun e => Z.of_nat (length (Elevator.queue e))) l) as [|n ns] eqn:Hmap.
  { by destruct l. }
  destruct (py_min_by_spec id ns n) as (pre & post & Heq & Hpre & Hpost).
  set (r := Elevator.py_min_by id n ns) in *.
  assert (Hleast : forall j e', l !! j = Some e' ->
            r <= Z.of_nat (length (Elevator.queue e'))).
  { intros j e' Hj.
    assert (Hin : Z.of_nat (length (Elevator.queue e')) ∈ n :: ns).
    { rewrite <- Hmap. apply list_elem_of_In, in_map_iff. exists e'.
      split; [done|]. apply list_elem_of_In. by eapply list_elem_of_lookup_2. }
    rewrite Heq in Hin. rewrite Forall_forall in Hpre, Hpost.
    apply elem_of_app in Hin as [Hin|Hin].
    - specialize (Hpre _ Hin). unfold id in Hpre. lia.
    - apply elem_of_cons in Hin as [Hin|Hin]; [lia|].
      specialize (Hpost _ Hin). unfold id in Hpost. lia. }
  assert (Hr : r ∈ map (fun e => Z.of_nat (length (Elevator.queue e))) l).
  { rewrite Hmap, Heq. apply elem_of_app. right. left. }
  apply list_elem_of_In, in_map_iff in Hr as (e1 & Hr1 & Hin1).
  apply list_elem_of_In, list_elem_of_lookup in Hin1 as [i1 Hi1].
  destruct (List.find _ (Elevator.items l)) as [[i e]|] eqn:Hfind.
  - apply find_split in Hfind as (pre' & post' & Heq' & Hf & Hpre').
    apply items_split in Heq' as (-> & Hl & Hbefore). cbn in Hf.
    apply Z.eqb_eq in Hf.
    exists (length pre'), e. split; [done|]. split; [done|].
    intros j e' Hj. pose proof (Hleast _ _ Hj). split; [lia|]. intros Hlen.
    destruct (decide (j < length pre')%nat) as [Hlt|]; [|lia].
    specialize (Hbefore _ _ Hj Hlt).
    rewrite Forall_forall in Hpre'. specialize (Hpre' _ Hbefore). cbn in Hpre'.
    apply Z.eqb_neq in Hpre'. lia.
  - apply (find_none_all _ _ (Z.of_nat i1, e1)) in Hfind; [|by apply items_elem].
    cbn in Hfind. apply Z.eqb_neq in Hfind. done.
Qed.

Lemma with_lock_free {A : Type} (body : M Elevator.manager A) (m m1 : Elevator.manager)
    (a : A) :
  Elevator.lock_held m = false ->
  body (Elevator.with_lock_held true m) = (Ok a, Elevator.with_lock_held true m1) ->
  Elevator.lock_held m1 = false ->
  Elevator.with_lock body m = (Ok a, m1).
Proof.
  intros Hm Hbody Hm1.
  unfold Elevator.with_lock, Elevator.acquire, bind, get, put, try_finally,
    Elevator.release, modify.
  rewrite Hm, Hbody. destruct m1. cbn in *. by subst.
Qed.

Lemma select_best_elevator_free (m : Elevator.manager) (fl : Z) (r : option Z) :
  Elevator.lock_held m = false ->
  Elevator.select_best (Elevator.elevators m) fl = Ok r ->
  Elevator._select_best_elevator fl m = (Ok r, m).
Proof.
  intros Hm Hsel. unfold Elevator._select_best_elevator.
  apply with_lock_free; [done| |done].
  unfold bind, get, lift. cbn. by rewrite Hsel.
Qed.

(** X12.  When the lock is free and some elevator is idle,
    [_select_best_elevator] returns an idle elevator whose distance to the
    floor is least among the idle ones, and the lowest id among those at
    that distance; an idle elevator on the floor itself is the case of
    distance 0.  The scheduler is left as it was. *)
Theorem select_best_elevator_takes_nearest_idle (m : Elevator.manager) (fl : Z)
    (j0 : nat) (e0 : Elevator.elevator) :
  Elevator.lock_held m = false ->
  Elevator.elevators m !! j0 = Some e0 -> Elevator.status e0 = Elevator.Idle ->
  exists (i : nat) (e : Elevator.elevator),
    Elevator._select_best_elevator fl m = (Ok (Some (Z.of_nat i)), m)
    /\ Elevator.elevators m !! i = Some e /\ Elevator.status e = Elevator.Idle
    /\ forall (j : nat) (e' : Elevator.elevator),
         Elevator.elevators m !! j = Some e' ->
         Elevator.status e' = Elevator.Idle ->
         Z.abs (Elevator.floor e - fl) <= Z.abs (Elevator.floor e' - fl)
         /\ (Z.abs (Elevator.floor e' - fl) = Z.abs (Elevator.floor e - fl)
             -> (i <= j)%nat).
Proof.
  intros Hlock Hj0 Hidle.
  destruct (select_best_idle _ fl _ _ Hj0 Hidle) as (i & e & Hsel & Hrest).
  exists i, e. split; [|done]. by apply select_best_elevator_free.
Qed.

(** X13.  When the lock is free and no elevator is idle,
    [_select_best_elevator] returns an elevator whose queue is shortest, the
    lowest id among those; the fallback [return 0] is not reached.  The
    scheduler is left as it was. *)
Theorem select_best_elevator_all_busy_takes_shortest_queue
    (m : Elevator.manager) (fl : Z) :
  Elevator.lock_held m = false ->
  Elevator.elevators m <> [] ->
  Forall (fun e => Elevator.status e <> Elevator.Idle) (Elevator.elevators m) ->
  exists (i : nat) (e : Elevator.elevator),
    Elevator._select_best_elevator fl m = (Ok (Some (Z.of_nat i)), m)
    /\ Elevator.elevators m !! i = Some e
    /\ forall (j : nat) (e' : Elevator.elevator),
         Elevator.elevators m !! j = Some e' ->
         (length (Elevator.queue e) <= length (Elevator.queue e'))%nat
         /\ (length (Elevator.queue e') = length (Elevator.queue e)
             -> (i <= j)%nat).
Proof.
  intros Hlock Hne Hall.
  destruct (select_best_busy _ fl Hne Hall) as (i & e & Hsel & Hrest).
  exists i, e. split; [|done]. by apply select_best_elevator_free.
Qed.

Lemma select_best_valid (l : list Elevator.elevator) (fl : Z) :
  l <> [] ->
  exists (i : nat) (e : Elevator.elevator),
    Elevator.select_best l fl = Ok (Some (Z.of_nat i)) /\ l !! i = Some e.
Proof.
  intros Hne.
  destruct (decide (Exists (fun e => Elevator.status e = Elevator.Idle) l)) as [Hex|Hnex].
  - apply Exists_exists in Hex as (e0 & Hin & Hidle).
    apply list_elem_of_lookup in Hin as [j0 Hj0].
    destruct (select_best_idle l fl j0 e0 Hj0 Hidle) as (i & e & Hsel & Hl & _).
    by exists i, e.
  - apply not_Exists_Forall in Hnex; [|intros e; apply _].
    destruct (select_best_busy l fl Hne Hnex) as (i & e & Hsel & Hl & _).
    by exists i, e.
Qed.

Lemma select_best_not_blocked (l : list Elevator.elevator) (fl : Z) :
  Elevator.select_best l fl <> Blocked.
Proof.
  unfold Elevator.select_best.
  destruct (List.find _ _) as [[]|]; [done|].
  destruct (map _ (List.filter _ _)); [|done].
  destruct (map _ l); [done|].
  destruct (List.find _ _) as [[]|]; done.
Qed.

Lemma select_best_elevator_run (m : Elevator.manager) (fl : Z) :
  Elevator.lock_held m = false ->
  Elevator._select_best_elevator fl m
  = (Elevator.select_best (Elevator.elevators m) fl, m).
Proof.
  intros Hlock. destruct m as [mc els cq lk]. cbn in Hlock. subst lk.
  unfold Elevator._select_best_elevator, Elevator.with_lock, Elevator.acquire,
    bind, get, put, try_finally, Elevator.release, modify, lift. cbn.
  pose proof (select_best_not_blocked els fl).
  by destruct (Elevator.select_best els fl).
Qed.

(** [call_elevator] with the lock free: the call is appended to the global
    queue, nothing else changes, and the answer is that of the selection
    unless the preferred elevator exists and is idle. *)
Lemma call_elevator_run (m : Elevator.manager) (fl : Z) (preferred : option Z) :
  Elevator.lock_held m = false ->
  exists r,
    Elevator.call_elevator fl preferred m
    = (r, Elevator.with_call_queue (Elevator.call_queue m ++ [(fl, preferred)]) m)
    /\ r <> Blocked
    /\ (Elevator.elevators m <> [] ->
        exists (i : nat) (e : Elevator.elevator),
          r = Ok (Some (Z.of_nat i)) /\ Elevator.elevators m !! i = Some e)
    /\ (forall p e, preferred = Some p ->
          Elevator.dict_get (Elevator.elevators m) p = Ok e ->
          Elevator.status e = Elevator.Idle -> r = Ok (Some p)).
Proof.
  intros Hlock.
  set (m1 := Elevator.with_call_queue (Elevator.call_queue m ++ [(fl, preferred)]) m).
  assert (Hm1 : Elevator.lock_held m1 = false) by done.
  assert (Hstart : forall (B : Type) (k : unit -> M Elevator.manager B),
            bind (Elevator.with_lock (modify (fun m =>
              Elevator.with_call_queue
                (Elevator.call_queue m ++ [(fl, preferred)]) m))) k m
            = k tt m1).
  { intros B k. destruct m as [mc els cq lk]. cbn in Hlock. subst lk. reflexivity. }
  unfold Elevator.call_elevator. rewrite Hstart. unfold bind at 1, get at 1.
  change (Elevator.elevators m1) with (Elevator.elevators m).
  assert (Hsel : exists r,
            Elevator._select_best_elevator fl m1 = (r, m1) /\ r <> Blocked
            /\ (Elevator.elevators m <> [] ->
                exists (i : nat) (e : Elevator.elevator),
                  r = Ok (Some (Z.of_nat i)) /\ Elevator.elevators m !! i = Some e)).
  { rewrite select_best_elevator_run by done.
    eexists. split; [done|]. split; [apply select_best_not_blocked|].
    intros Hne. destruct (select_best_valid _ fl Hne) as (i & e & Hs & Hl).
    by exists i, e. }
  destruct Hsel as (r & Hr & Hnb & Hvalid).
  destruct preferred as [p|].
  - destruct (Elevator.has_key (Elevator.elevators m) p) eqn:Hkey.
    + destruct (has_key_inv _ _ Hkey) as (n & -> & Hn).
      destruct (lookup_lt_is_Some_2 _ _ Hn) as [e Hl].
      unfold bind at 1, lift at 1. rewrite (dict_get_nat _ _ _ Hl).
      destruct (bool_decide (Elevator.status e = Elevator.Idle)) eqn:Hidle.
      * exists (Ok (Some (Z.of_nat n))). split; [done|]. split; [done|].
        split; [intros _; by exists n, e|]. by intros p' e' [= <-] _ _.
      * exists r. split; [done|]. split; [done|]. split; [done|].
        intros p' e' [= <-] Hget Hst. rewrite (dict_get_nat _ _ _ Hl) in Hget.
        injection Hget as <-. apply bool_decide_eq_false in Hidle. done.
    + exists r. split; [done|]. split; [done|]. split; [done|].
      intros p' e' [= <-] Hget _. unfold Elevator.dict_get in Hget.
      by rewrite Hkey in Hget.
  - exists r. split; [done|]. split; [done|]. split; [done|]. by intros.
Qed.

(** X14.  [call_elevator] with the lock free on a table that is not empty:
    it appends the call to the global queue and changes nothing else, moves
    no elevator, and returns the id of an elevator of the table: the
    preferred one whenever that exists and is idle. *)
Theorem call_elevator_queues_the_call_and_names_an_elevator
    (m : Elevator.manager) (fl : Z) (preferred : option Z) :
  Elevator.lock_held m = false ->
  Elevator.elevators m <> [] ->
  exists (i : nat) (e : Elevator.elevator),
    Elevator.call_elevator fl preferred m
    = (Ok (Some (Z.of_nat i)),
       Elevator.with_call_queue (Elevator.call_queue m ++ [(fl, preferred)]) m)
    /\ Elevator.elevators m !! i = Some e
    /\ (forall p e', preferred = Some p ->
          Elevator.dict_get (Elevator.elevators m) p = Ok e' ->
          Elevator.status e' = Elevator.Idle -> Z.of_nat i = p).
Proof.
  intros Hlock Hne.
  destruct (call_elevator_run m fl preferred Hlock) as (r & Hrun & _ & Hvalid & Hpref).
  destruct (Hvalid Hne) as (i & e & -> & Hl).
  exists i, e. split; [done|]. split; [done|].
  intros p e' Hp Hget Hst. specialize (Hpref _ _ Hp Hget Hst). by injection Hpref.
Qed.

(** X15.  One turn of the loop of [_process_queues] entered with the lock
    free.  On an empty call queue it sleeps and leaves the scheduler as it
    was.  On any other queue it takes the first call off and then waits for
    ever: [_select_best_elevator] asks for the lock that the turn already
    holds, and an [asyncio.Lock] is not re-entrant.  No turn reaches
    [_assign_floor]. *)
Theorem process_queues_turn_never_assigns (m : Elevator.manager) :
  Elevator.lock_held m = false ->
  match Elevator.call_queue m with
  | [] => Elevator._process_queues_turn m = (Ok Elevator.Waited, m)
  | _ :: rest =>
      Elevator._process_queues_turn m
      = (Blocked, Elevator.with_call_queue rest (Elevator.with_lock_held true m))
  end.
Proof.
  intros Hlock. destruct (Elevator.call_queue m) as [|[fl preferred] rest] eqn:Hq.
  - by apply process_queues_turn_waits.
  - by eapply process_queues_turn_blocks.
Qed.

(** ** The session: every message is answered *)

Lemma answering_steady {A : Type} (m : M WebSocketServer.server A) :
  answering m -> steady m.
Proof.
  intros H s Hs. destruct (H s Hs) as (r & s' & ws & ? & ? & ? & ? & ? & _).
  by exists r, s', ws.
Qed.

Lemma steady_lift {A : Type} (r : outcome A) :
  r <> Blocked -> steady (lift r).
Proof.
  intros Hr s Hs. exists r, s, []. rewrite app_nil_r. by split_and!.
Qed.

Lemma steady_ret {A : Type} (a : A) : steady (ret a).
Proof. intros s Hs. exists (Ok a), s, []. rewrite app_nil_r. by split_and!. Qed.

Lemma steady_raise {A : Type} (e : exn) :
  steady (raise e : M WebSocketServer.server A).
Proof. intros s Hs. exists (Raise e), s, []. rewrite app_nil_r. by split_and!. Qed.

Lemma answering_raise {A : Type} (e : exn) :
  answering (raise e : M WebSocketServer.server A).
Proof. intros s Hs. exists (Raise e), s, []. rewrite app_nil_r. by split_and!. Qed.

Lemma steady_bind {A B : Type} (m : M WebSocketServer.server A)
    (k : A -> M WebSocketServer.server B) :
  steady m -> (forall a, steady (k a)) -> steady (bind m k).
Proof.
  intros Hm Hk s Hs. destruct (Hm s Hs) as (r & s1 & ws1 & Hrun & Hr & Hw & Hs1 & Hl).
  unfold bind. rewrite Hrun. destruct r as [a|e|]; [|by exists (Raise e), s1, ws1|done].
  destruct (Hk a s1 Hs1) as (r2 & s2 & ws2 & Hrun2 & Hr2 & Hw2 & Hs2 & Hl2).
  exists r2, s2, (ws1 ++ ws2). rewrite Hrun2, Hw2, Hw, app_assoc.
  split_and!; try done. congruence.
Qed.

Lemma answering_bind_l {A B : Type} (m : M WebSocketServer.server A)
    (k : A -> M WebSocketServer.server B) :
  answering m -> (forall a, steady (k a)) -> answering (bind m k).
Proof.
  intros Hm Hk s Hs.
  destruct (Hm s Hs) as (r & s1 & ws1 & Hrun & Hr & Hw & Hs1 & Hl & Hne).
  unfold bind. rewrite Hrun. destruct r as [a|e|]; [|by exists (Raise e), s1, ws1|done].
  destruct (Hk a s1 Hs1) as (r2 & s2 & ws2 & Hrun2 & Hr2 & Hw2 & Hs2 & Hl2).
  exists r2, s2, (ws1 ++ ws2). rewrite Hrun2, Hw2, Hw, app_assoc.
  split_and!; try done; [congruence|].
  intros b _ Happ. apply app_eq_nil in Happ as [H1 _]. by eapply Hne.
Qed.

Lemma answering_bind_r {A B : Type} (m : M WebSocketServer.server A)
    (k : A -> M WebSocketServer.server B) :
  steady m -> (forall a, answering (k a)) -> answering (bind m k).
Proof.
  intros Hm Hk s Hs.
  destruct (Hm s Hs) as (r & s1 & ws1 & Hrun & Hr & Hw & Hs1 & Hl).
  unfold bind. rewrite Hrun. destruct r as [a|e|]; [|by exists (Raise e), s1, ws1|done].
  destruct (Hk a s1 Hs1) as (r2 & s2 & ws2 & Hrun2 & Hr2 & Hw2 & Hs2 & Hl2 & Hne).
  exists r2, s2, (ws1 ++ ws2). rewrite Hrun2, Hw2, Hw, app_assoc.
  split_and!; try done; [congruence|].
  intros b Hb Happ. apply app_eq_nil in Happ as [_ H2]. by eapply Hne.
Qed.

Lemma answering_write (w : WebSocketServer.wire) :
  answering (WebSocketServer.write w).
Proof.
  intros s Hs. exists (Ok tt), (snd (WebSocketServer.write w s)), [w].
  by split_and!.
Qed.

Lemma steady_create_task (t : option Z * Z) :
  steady (WebSocketServer.create_task t).
Proof.
  intros s Hs. exists (Ok tt), (snd (WebSocketServer.create_task t s)), [].
  cbn. rewrite app_nil_r. by split_and!.
Qed.

Lemma steady_get : steady (get : M WebSocketServer.server _).
Proof. intros s Hs. exists (Ok s), s, []. rewrite app_nil_r. by split_and!. Qed.

Lemma steady_on_elevator {A : Type} (m : M Elevator.manager A) :
  (forall mg, manager_sound mg ->
     exists r mg', m mg = (r, mg') /\ r <> Blocked /\ manager_sound mg'
                   /\ length (Elevator.elevators mg') = length (Elevator.elevators mg)) ->
  steady (WebSocketServer.on_elevator m).
Proof.
  intros Hm s Hs. destruct (Hm _ Hs) as (r & mg' & Hrun & Hr & Hs' & Hl).
  exists r, (WebSocketServer.with_elevator mg' s), [].
  unfold WebSocketServer.on_elevator, zoom. rewrite Hrun. cbn.
  rewrite app_nil_r. by split_and!.
Qed.

Lemma call_elevator_sound (fl : Z) (preferred : option Z) (mg : Elevator.manager) :
  manager_sound mg ->
  exists r mg',
    Elevator.call_elevator fl preferred mg = (r, mg') /\ r <> Blocked
    /\ manager_sound mg'
    /\ length (Elevator.elevators mg') = length (Elevator.elevators mg).
Proof.
  intros Hs. pose proof Hs as (Hlock & ?).
  destruct (call_elevator_run mg fl preferred Hlock) as (r & Hrun & Hr & _).
  eexists r, _. split; [exact Hrun|]. split; [done|]. split; [|done].
  destruct mg. exact Hs.
Qed.

Lemma reset_all_sound (mg : Elevator.manager) :
  manager_sound mg ->
  exists r mg',
    Elevator.reset_all mg = (r, mg') /\ r <> Blocked
    /\ manager_sound mg'
    /\ length (Elevator.elevators mg') = length (Elevator.elevators mg).
Proof.
  intros (Hlock & Hcons & Hns & Hspf & Hlen & _).
  destruct (elevator_reset_all_run mg Hcons Hns Hspf Hlen)
    as (mg' & Hrun & Hel & _ & _ & Hsound).
  exists (Ok tt), mg'. split; [done|]. split; [done|]. split; [by apply Hsound|].
  by rewrite Hel, length_replicate.
Qed.

Lemma py_item_not_blocked (d : json) (k : list Z) : py_item d k <> Blocked.
Proof. destruct d; try done. cbn. by destruct (assoc k d). Qed.

Lemma py_in_not_blocked (k : list Z) (d : json) : py_in k d <> Blocked.
Proof. by destruct d. Qed.

Lemma py_dict_get_not_blocked (d : json) (k : list Z) (v : json) :
  py_dict_get d k v <> Blocked.
Proof. by destruct d. Qed.

Create HintDb steady.

Section Answers.

Variable loads : list Z -> option json.
Variable int_of_str : list Z -> option Z.

Lemma to_int_not_blocked (v : json) :
  WebSocketServer.to_int int_of_str v <> Blocked.
Proof. destruct v; try done. cbn. by destruct (int_of_str s). Qed.

Lemma json_loads_not_blocked (text : list Z) :
  WebSocketServer.json_loads loads text <> Blocked.
Proof. unfold WebSocketServer.json_loads. by destruct (loads text). Qed.

#[local] Hint Resolve py_item_not_blocked py_in_not_blocked py_dict_get_not_blocked
  to_int_not_blocked json_loads_not_blocked : steady.

Ltac steady_step :=
  first
    [ apply steady_ret | apply steady_raise | apply steady_get
    | apply steady_create_task
    | apply steady_lift; auto with steady
    | apply answering_steady; apply answering_write
    | apply steady_bind; [|intros ?] ].

Ltac answering_lift :=
  apply answering_bind_r; [apply steady_lift; auto with steady | intros ?].

Lemma handle_call_answering (d : json) :
  answering (WebSocketServer.handle_call int_of_str d).
Proof.
  unfold WebSocketServer.handle_call.
  do 4 answering_lift.
  apply answering_bind_l; [apply answering_write|intros _].
  apply steady_bind.
  { apply steady_on_elevator. intros mg Hmg. by apply call_elevator_sound. }
  intros r. repeat steady_step.
Qed.

Lemma handle_task_answering (d : json) :
  answering (WebSocketServer.handle_task int_of_str d).
Proof.
  unfold WebSocketServer.handle_task.
  do 4 answering_lift.
  apply answering_bind_l; [apply answering_write|intros _].
  apply steady_bind.
  { apply steady_on_elevator. intros mg Hmg. by apply send_elevator_sound. }
  intros r. repeat steady_step.
Qed.

Lemma handle_status_answering (d : json) :
  answering (WebSocketServer.handle_status d).
Proof.
  unfold WebSocketServer.handle_status.
  answering_lift.
  apply answering_bind_r; [apply steady_get|intros s0].
  destruct (negb (hashable a)); [apply answering_raise|].
  destruct (lookup_key a (WebSocketServer.tasks s0)).
  - do 4 answering_lift. apply answering_write.
  - apply answering_write.
Qed.

Lemma handle_reset_answering : answering WebSocketServer.handle_reset.
Proof.
  unfold WebSocketServer.handle_reset.
  apply answering_bind_l; [apply answering_write|intros _].
  apply steady_bind.
  { apply steady_on_elevator. intros mg Hmg. by apply reset_all_sound. }
  intros r. repeat steady_step.
Qed.

Lemma process_message_body_answering (message : list Z) :
  answering
    (do data <- lift (WebSocketServer.json_loads loads message);
     do c <- lift (py_in (str_of "call") data);
     if (c : bool) then
       do d <- lift (py_item data (str_of "call"));
       WebSocketServer.handle_call int_of_str d
     else
       do c <- lift (py_in (str_of "task") data);
       if (c : bool) then
         do d <- lift (py_item data (str_of "task"));
         WebSocketServer.handle_task int_of_str d
       else
         do c <- lift (py_in (str_of "status") data);
         if (c : bool) then
           do d <- lift (py_item data (str_of "status"));
           WebSocketServer.handle_status d
         else
           do c <- lift (py_in (str_of "reset") data);
           if (c : bool) then WebSocketServer.handle_reset
           else WebSocketServer.write (WebSocketServer.Doc WebSocketServer.invalid_request)).
Proof.
  do 2 answering_lift.
  destruct a0; [answering_lift; apply handle_call_answering|].
  answering_lift.
  destruct a0; [answering_lift; apply handle_task_answering|].
  answering_lift.
  destruct a0; [answering_lift; apply handle_status_answering|].
  answering_lift.
  destruct a0; [apply handle_reset_answering|apply answering_write].
Qed.

Lemma process_message_run (message : list Z) (s : WebSocketServer.server) :
  manager_sound (WebSocketServer.elevator s) ->
  exists s' ws,
    WebSocketServer.process_message loads int_of_str message s = (Ok tt, s')
    /\ WebSocketServer.written s' = WebSocketServer.written s ++ ws
    /\ ws <> []
    /\ manager_sound (WebSocketServer.elevator s')
    /\ length (Elevator.elevators (WebSocketServer.elevator s'))
       = length (Elevator.elevators (WebSocketServer.elevator s)).
Proof.
  intros Hs. unfold WebSocketServer.process_message, try_except.
  destruct (process_message_body_answering message s Hs)
    as (r & s1 & ws & Hrun & Hr & Hw & Hs1 & Hl & Hne).
  rewrite Hrun. destruct r as [[]|e|]; [|clear Hne|done].
  - exists s1, ws. split_and!; try done. by eapply Hne.
  - exists (snd (WebSocketServer.write (WebSocketServer.ErrorDoc e) s1)),
      (ws ++ [WebSocketServer.ErrorDoc e]).
    split; [done|]. cbn. rewrite Hw, app_assoc. split; [done|].
    split; [by destruct ws|]. done.
Qed.

End Answers.

(** X16.  Whatever the text of a message and whatever [json.loads] and [int]
    make of it, [process_message] on a server whose scheduler is at rest
    returns normally, without waiting, after it has written at least one
    frame; the scheduler is at rest again and has as many elevators as
    before.  The tasks handed to [create_task] are not run by the handler. *)
Theorem process_message_always_answers (loads : list Z -> option json)
    (int_of_str : list Z -> option Z) (message : list Z)
    (s : WebSocketServer.server) :
  manager_sound (WebSocketServer.elevator s) ->
  exists s' ws,
    WebSocketServer.process_message loads int_of_str message s = (Ok tt, s')
    /\ WebSocketServer.written s' = WebSocketServer.written s ++ ws
    /\ ws <> []
    /\ manager_sound (WebSocketServer.elevator s')
    /\ length (Elevator.elevators (WebSocketServer.elevator s'))
       = length (Elevator.elevators (WebSocketServer.elevator s)).
Proof. apply process_message_run. Qed.

Section Dispatch.

Import WebSocketServer.

Variable loads : list Z -> option json.
Variable int_of_str : list Z -> option Z.

(** A task command whose [send_elevator] returns. *)
Lemma process_task_run (message : list Z) (id motor floor : Z) (s : server)
    (mg' : Elevator.manager) :
  loads message = Some (task_command id motor floor) ->
  Elevator.send_elevator motor floor (elevator s) = (Ok tt, mg') ->
  process_message loads int_of_str message s
  = (Ok tt, wrote [Doc (task_response motor floor "processing");
                   Doc (task_response motor floor "completed")]
              (with_elevator mg' s)).
Proof.
  intros Hloads Hsend.
  unfold process_message, try_except, bind, lift, json_loads. rewrite Hloads.
  cbn [of_option].
  change (py_in (str_of "call") (task_command id motor floor)) with (Ok (A := bool) false).
  change (py_in (str_of "task") (task_command id motor floor)) with (Ok (A := bool) true).
  change (py_item (task_command id motor floor) (str_of "task"))
    with (Ok (JDict [(str_of "id", JInt id); (str_of "motor", JInt motor);
                     (str_of "floor", JInt floor);
                     (str_of "action", JStr (str_of "move"))])).
  cbv beta iota. unfold handle_task, bind, lift.
  change (py_dict_get (JDict _) (str_of "motor") (JInt 0)) with (Ok (JInt motor)).
  change (py_item (JDict _) (str_of "floor")) with (Ok (JInt floor)).
  cbn [to_int]. destruct s as [mgr tk cc ld sp rd wr wc]. cbn [elevator] in Hsend.
  unfold write, modify, on_elevator, zoom, wrote.
  cbn [elevator tasks client_connected led spawned reader written writer_closed].
  rewrite Hsend.
  cbn [with_elevator elevator tasks client_connected led spawned
       reader written writer_closed].
  by rewrite <- app_assoc.
Qed.

(** A reset command whose [reset_all] returns. *)
Lemma process_reset_run (message : list Z) (d : list (list Z * json)) (v : json)
    (s : server) (mg' : Elevator.manager) :
  loads message = Some (JDict d) ->
  assoc (str_of "call") d = None -> assoc (str_of "task") d = None ->
  assoc (str_of "status") d = None -> assoc (str_of "reset") d = Some v ->
  Elevator.reset_all (elevator s) = (Ok tt, mg') ->
  process_message loads int_of_str message s
  = (Ok tt, wrote [Doc (reset_response "processing");
                   Doc (reset_response "completed")]
              (with_elevator mg' s)).
Proof.
  intros Hloads Hc Ht Hst Hr Hreset.
  unfold process_message, try_except, bind, lift, json_loads. rewrite Hloads.
  cbn [of_option py_in]. rewrite Hc, Ht, Hst, Hr.
  rewrite !(bool_decide_eq_false_2 (is_Some None)) by (by intros [? ?]).
  rewrite (bool_decide_eq_true_2 (is_Some (Some v))) by done.
  cbv beta iota.
  destruct s as [mgr tk cc ld sp rd wr wc]. cbn [elevator] in Hreset.
  unfold handle_reset, bind, write, modify, on_elevator, zoom, wrote.
  cbn [elevator tasks client_connected led spawned reader written writer_closed].
  rewrite Hreset.
  cbn [with_elevator elevator tasks client_connected led spawned
       reader written writer_closed].
  by rewrite <- app_assoc.
Qed.

(** A call command whose [call_elevator] returns. *)
Lemma process_call_run (message : list Z) (floor elevator_id : Z) (s : server)
    (r : option Z) (mg' : Elevator.manager) :
  loads message = Some (call_command floor elevator_id) ->
  Elevator.call_elevator floor (Some elevator_id) (elevator s) = (Ok r, mg') ->
  process_message loads int_of_str message s
  = (Ok tt,
     snd (create_task (r, floor)
            (wrote [Doc (call_response floor elevator_id "processing");
                    Doc (call_response floor elevator_id "completed")]
               (with_elevator mg' s)))).
Proof.
  intros Hloads Hcall.
  unfold process_message, try_except, bind, lift, json_loads. rewrite Hloads.
  cbn [of_option].
  change (py_in (str_of "call") (call_command floor elevator_id)) with (Ok (A := bool) true).
  change (py_item (call_command floor elevator_id) (str_of "call"))
    with (Ok (JDict [(str_of "floor", JInt floor); (str_of "elevator", JInt elevator_id)])).
  cbv beta iota. unfold handle_call, bind, lift.
  change (py_item (JDict _) (str_of "floor")) with (Ok (JInt floor)).
  change (py_dict_get (JDict _) (str_of "elevator") (JInt 0)) with (Ok (JInt elevator_id)).
  cbn [to_int]. destruct s as [mgr tk cc ld sp rd wr wc]. cbn [elevator] in Hcall.
  unfold write, create_task, modify, on_elevator, zoom, wrote.
  cbn [elevator tasks client_connected led spawned reader written writer_closed].
  rewrite Hcall.
  cbn [with_elevator elevator tasks client_connected led spawned
       reader written writer_closed snd].
  by rewrite <- app_assoc.
Qed.

(** X17.  A task command for an elevator of the table and a floor of the
    building, on a scheduler at rest: the server writes the processing and
    then the completed response, and between the two the elevator has gone
    to the floor: it is there in the table and in the controller, and
    active. *)
Theorem task_command_moves_the_elevator (message : list Z) (id floor : Z)
    (n : nat) (e : Elevator.elevator) (s : server) :
  manager_sound (elevator s) ->
  Elevator.elevators (elevator s) !! n = Some e ->
  1 <= floor <= 3 ->
  loads message = Some (task_command id (Z.of_nat n) floor) ->
  exists s' e',
    process_message loads int_of_str message s = (Ok tt, s')
    /\ written s'
       = written s ++ [Doc (task_response (Z.of_nat n) floor "processing");
                       Doc (task_response (Z.of_nat n) floor "completed")]
    /\ Elevator.elevators (elevator s') = <[n := e']> (Elevator.elevators (elevator s))
    /\ Elevator.floor e' = floor /\ Elevator.active e' = true
    /\ Motor.current_floor (Elevator.motors (elevator s')) !! n = Some floor
    /\ manager_sound (elevator s').
Proof.
  intros Hs He Hfl Hloads.
  destruct (assign_floor_in_building _ n e floor Hs He Hfl)
    as (mg' & e' & Hrun & Hel & Hf & Ha & _ & _ & Hcf & Hs').
  rewrite <- (send_elevator_is_assign _ n e floor Hs He) in Hrun.
  exists (wrote [Doc (task_response (Z.of_nat n) floor "processing");
                 Doc (task_response (Z.of_nat n) floor "completed")]
            (with_elevator mg' s)), e'.
  split; [by eapply process_task_run|]. by destruct s.
Qed.

(** X18.  A task command for an elevator of the table and a floor outside
    1..3 is answered like a task that succeeded, with the processing and
    then the completed response and no error document: [_assign_floor] has
    swallowed the ValueError.  The elevator has not moved; it is left with
    status error, inactive, the refused floor as its target. *)
Theorem task_command_for_unknown_floor_is_completed (message : list Z)
    (id floor : Z) (n : nat) (e : Elevator.elevator) (s : server) :
  manager_sound (elevator s) ->
  Elevator.elevators (elevator s) !! n = Some e ->
  floor < 1 \/ 3 < floor ->
  loads message = Some (task_command id (Z.of_nat n) floor) ->
  exists s',
    process_message loads int_of_str message s = (Ok tt, s')
    /\ written s'
       = written s ++ [Doc (task_response (Z.of_nat n) floor "processing");
                       Doc (task_response (Z.of_nat n) floor "completed")]
    /\ Elevator.elevators (elevator s')
       = <[n := {| Elevator.floor := Elevator.floor e;
                   Elevator.target := Some floor;
                   Elevator.status := Elevator.Error;
                   Elevator.queue := [];
                   Elevator.active := false |}]> (Elevator.elevators (elevator s))
    /\ Elevator.motors (elevator s') = Elevator.motors (elevator s).
Proof.
  intros Hs He Hfl Hloads.
  pose proof Hs as (Hlock & Hcons & Hns & Hspf & Hlen & Hels).
  destruct (Hels n e He) as (Hq & Hfe & Hcf).
  pose proof (assign_unknown_floor _ n e floor Hs He Hfl) as Hrun.
  rewrite <- (send_elevator_is_assign _ n e floor Hs He) in Hrun.
  eexists. split; [by eapply process_task_run|].
  rewrite Hq. by destruct s.
Qed.

(** X19.  A message with the key reset and none of the keys call, task and
    status: the server writes the processing and then the completed reset
    response, and between the two every elevator has been put back as
    [__init__] made it and every channel on floor 1; the global call queue
    is not cleared. *)
Theorem reset_command_restores_every_elevator (message : list Z)
    (d : list (list Z * json)) (v : json) (s : server) :
  motor_consistent (Elevator.motors (elevator s)) ->
  no_stop_pending (Elevator.motors (elevator s)) ->
  0 < Motor.STEPS_PER_FLOOR (Elevator.motors (elevator s)) ->
  length (Elevator.elevators (elevator s))
  = length (Motor.motors (Elevator.motors (elevator s))) ->
  loads message = Some (JDict d) ->
  assoc (str_of "call") d = None -> assoc (str_of "task") d = None ->
  assoc (str_of "status") d = None -> assoc (str_of "reset") d = Some v ->
  exists s',
    process_message loads int_of_str message s = (Ok tt, s')
    /\ written s'
       = written s ++ [Doc (reset_response "processing");
                       Doc (reset_response "completed")]
    /\ Elevator.elevators (elevator s')
       = replicate (length (Elevator.elevators (elevator s))) Elevator.fresh
    /\ Motor.current_floor (Elevator.motors (elevator s'))
       = replicate (length (Elevator.elevators (elevator s))) 1
    /\ Elevator.call_queue (elevator s') = Elevator.call_queue (elevator s).
Proof.
  intros Hcons Hns Hspf Hlen Hloads Hc Ht Hst Hr.
  destruct (elevator_reset_all_run _ Hcons Hns Hspf Hlen)
    as (mg' & Hrun & Hel & Hfl & Hcq & _).
  eexists. split; [by eapply process_reset_run|]. by destruct s.
Qed.

(** X20.  A call command on a server whose scheduler has its lock free: the
    server writes the processing and then the completed response although no
    elevator has moved; the call is appended to the global queue, one
    [_assign_floor] for an elevator of the table and the floor is handed to
    [create_task], and the table and the controller are left as they were. *)
Theorem call_command_queues_and_spawns (message : list Z) (floor elevator_id : Z)
    (s : server) :
  Elevator.lock_held (elevator s) = false ->
  Elevator.elevators (elevator s) <> [] ->
  loads message = Some (call_command floor elevator_id) ->
  exists s' (i : nat) (e : Elevator.elevator),
    process_message loads int_of_str message s = (Ok tt, s')
    /\ written s'
       = written s ++ [Doc (call_response floor elevator_id "processing");
                       Doc (call_response floor elevator_id "completed")]
    /\ spawned s' = spawned s ++ [(Some (Z.of_nat i), floor)]
    /\ Elevator.elevators (elevator s) !! i = Some e
    /\ Elevator.call_queue (elevator s')
       = Elevator.call_queue (elevator s) ++ [(floor, Some elevator_id)]
    /\ Elevator.elevators (elevator s') = Elevator.elevators (elevator s)
    /\ Elevator.motors (elevator s') = Elevator.motors (elevator s).
Proof.
  intros Hlock Hne Hloads.
  destruct (call_elevator_run _ floor (Some elevator_id) Hlock)
    as (r & Hrun & _ & Hvalid & _).
  destruct (Hvalid Hne) as (i & e & -> & Hl).
  eexists _, i, e. split; [by eapply process_call_run|]. by destruct s.
Qed.

End Dispatch.









Section Sessions.

Import WebSocketServer.

Variable loads : list Z -> option json.
Variable int_of_str : list Z -> option Z.






End Sessions.

(** ** Masked frames and the two directions of the codec *)

Lemma lxor_twice (b k : Z) : Z.lxor (Z.lxor b k) k = b.
Proof. by rewrite Z.lxor_assoc, Z.lxor_nilpotent, Z.lxor_0_r. Qed.

Lemma py_get_key (key : list Z) (k : nat) :
  length key = 4%nat ->
  py_get key (Z.of_nat k mod 4) = Ok (nth (k mod 4) key 0).
Proof.
  intros Hkey. change 4 with (Z.of_nat 4). rewrite <- Nat2Z.inj_mod.
  pose proof (Nat.mod_upper_bound k 4 ltac:(lia)) as Hlt.
  destruct (lookup_lt_is_Some_2 key (k mod 4)%nat ltac:(lia)) as [x Hx].
  rewrite (py_get_nat _ _ _ Hx). f_equal. rewrite nth_lookup. by rewrite Hx.
Qed.

(** Unmasking a payload that was masked with the same key gives it back. *)
Lemma unmask_masked (key payload : list Z) :
  length key = 4%nat ->
  forall k : nat,
    unmask key (imap (fun i b => Z.lxor b (nth ((k + i) mod 4) key 0)) payload)
      (Z.of_nat k)
    = Ok payload.
Proof.
  intros Hkey. induction payload as [|b payload IH]; intros k; [done|].
  cbn [imap unmask]. rewrite py_get_key by done. cbn [obind].
  replace (Z.of_nat k + 1) with (Z.of_nat (S k)) by lia.
  erewrite imap_ext; [rewrite (IH (S k))|].
  - cbn [obind]. by rewrite Nat.add_0_r, lxor_twice.
  - intros i x _. unfold compose. by replace (k + S i)%nat with (S k + i)%nat by lia.
Qed.

Lemma mask_bit_set (n : Z) :
  0 <= n < 128 ->
  Z.land (Z.lor 0x80 n) 0x7F = n
  /\ Z.shiftr (Z.land (Z.lor 0x80 n) 0x80) 7 = 1.
Proof.
  intros Hn. rewrite !Z.land_lor_distr_l.
  rewrite (land_low7 n), (land_mask_bit_clear n) by done.
  split; [apply Z.lor_0_l | reflexivity].
Qed.

(** X22.  The decoder of the server takes a masked text frame as RFC 6455
    has clients send them: mask bit set, a key of four bytes after the
    header, a payload of fewer than 126 bytes each XORed with the key byte
    of its index modulo 4.  It returns the text of the payload and leaves
    what follows the frame in the stream. *)
Theorem receive_frame_unmasks (key payload text rest : list Z) :
  length key = 4%nat ->
  (length payload < 126)%nat ->
  decode payload = Ok text ->
  WebSocketServer.receive_frame (spec_masked_frame key payload ++ rest)
  = (Ok (Some text), rest).
Proof.
  intros Hkey Hlen Hdec. unfold spec_masked_frame. cbn [app].
  rewrite receive_frame_header.
  destruct (mask_bit_set (Z.of_nat (length payload)) ltac:(lia)) as [-> ->].
  destruct (Z.eqb_spec (Z.of_nat (length payload)) 126); [lia|].
  destruct (Z.eqb_spec (Z.of_nat (length payload)) 127); [lia|].
  change (1 =? 0) with false.
  change (Z.land 0x81 0x0F =? WebSocketServer.WS_OPCODE_TEXT) with true.
  cbv beta iota. unfold bind at 1, ret at 1.
  unfold bind at 1. rewrite <- !app_assoc. rewrite read_exact by (by rewrite Hkey).
  unfold bind at 1. rewrite read_exact by (rewrite length_imap; lia).
  unfold bind at 1, lift at 1.
  pose proof (unmask_masked key payload Hkey 0) as Hun.
  cbn [Nat.add] in Hun. change (Z.of_nat 0) with 0 in Hun. rewrite Hun.
  unfold bind, lift, ret. by rewrite Hdec.
Qed.

Lemma receive_frame_unmasks_witness :
  WebSocketServer.receive_frame
    (spec_masked_frame [1; 2; 3; 4] (str_of "reset") ++ [0x81])
  = (Ok (Some (str_of "reset")), [0x81]).
Proof.
  apply (receive_frame_unmasks [1; 2; 3; 4] (str_of "reset") (str_of "reset") [0x81]);
    [reflexivity | simpl; lia | reflexivity].
Defined.

(** X23.  A text of ASCII characters, shorter than 2^64, that the client
    frames with its [send_frame] is read back by the [receive_frame] of the
    server, which consumes the whole frame; this holds for the three forms
    of the length field. *)
Theorem client_frame_reaches_the_server (m : list Z) :
  ascii_text m -> Z.of_nat (length m) < 2 ^ 64 ->
  exists frame,
    WebSocketClient.send_frame m [] = (Ok tt, frame)
    /\ WebSocketServer.receive_frame frame = (Ok (Some m), []).
Proof.
  intros Hm Hlen.
  exists (frame_header (Z.of_nat (length m)) ++ m).
  split; [by apply (client_send_frame_bytes m m []); [apply encode_ascii|]|].
  unfold frame_header. set (n := Z.of_nat (length m)) in *.
  assert (0 <= n) by lia.
  destruct (Z.ltb_spec n 126).
  - apply receive_frame_short; [lia | done | by apply decode_ascii].
  - destruct (Z.ltb_spec n 65536).
    + rewrite <- app_assoc.
      apply (receive_frame_medium n); [lia | done | by apply decode_ascii].
    + rewrite <- app_assoc.
      apply (receive_frame_long n); [lia | done | by apply decode_ascii].
Qed.

Lemma client_frame_reaches_the_server_witness :
  exists frame,
    WebSocketClient.send_frame (str_of "reset") [] = (Ok tt, frame)
    /\ WebSocketServer.receive_frame frame = (Ok (Some (str_of "reset")), []).
Proof.
  apply (client_frame_reaches_the_server (str_of "reset")).
  - apply ascii_text_check. reflexivity.
  - vm_compute. reflexivity.
Defined.

Lemma utf8_char_length (c : Z) (bs : list Z) :
  utf8_char c = Ok bs ->
  (1 <= length bs)%nat /\ (128 <= c -> (2 <= length bs)%nat).
Proof.
  unfold utf8_char.
  destruct ((c <? 0) || (1114111 <? c)); [done|].
  destruct ((55296 <=? c) && (c <=? 57343)); [done|].
  destruct (Z.ltb_spec c 128).
  { intros [= <-]. cbn. lia. }
  destruct (c <? 2048); [intros [= <-]; cbn; lia|].
  destruct (c <? 65536); intros [= <-]; cbn; lia.
Qed.

(** The encoding has at least one byte per character, and more when a
    character is not ASCII. *)
Lemma encode_length (s payload : list Z) :
  encode s = Ok payload ->
  (length s <= length payload)%nat
  /\ (Exists (fun c => 128 <= c) s -> (length s < length payload)%nat).
Proof.
  revert payload. induction s as [|c s IH]; intros payload.
  - intros [= <-]. split; [done|]. intros H. by apply Exists_nil in H.
  - cbn [encode]. destruct (utf8_char c) as [bs| |] eqn:Hc; [|done|done].
    destruct (encode s) as [rest| |] eqn:Hs; [|done|done].
    cbn. intros [= <-]. destruct (utf8_char_length _ _ Hc) as [H1 H2].
    destruct (IH rest eq_refl) as [H3 H4].
    rewrite length_app. cbn [length]. split; [lia|].
    intros Hex. apply Exists_cons in Hex as [Hex|Hex].
    + specialize (H2 Hex). lia.
    + specialize (H4 Hex). lia.
Qed.

Lemma server_send_frame_bytes (data payload w : list Z) :
  encode data = Ok payload -> Z.of_nat (length data) < 2 ^ 64 ->
  WebSocketServer.send_frame data w
  = (Ok tt, w ++ frame_header (Z.of_nat (length data)) ++ payload).
Proof.
  intros Henc Hlen. unfold WebSocketServer.send_frame, frame_header.
  set (n := Z.of_nat (length data)) in *.
  assert (0 <= n) by lia.
  unfold bind, ret, modify, lift, to_bytes.
  destruct (Z.ltb_spec n 126).
  - rewrite Henc. by rewrite <- app_assoc.
  - destruct (Z.ltb_spec n 65536).
    + destruct (Z.leb_spec 0 n); [|lia].
      destruct (Z.ltb_spec n (256 ^ Z.of_nat 2)); [|lia].
      cbn [andb]. rewrite Henc. by rewrite <- app_assoc.
    + destruct (Z.leb_spec 0 n); [|lia].
      destruct (Z.ltb_spec n (256 ^ Z.of_nat 8)); [|lia].
      cbn [andb]. rewrite Henc. by rewrite <- app_assoc.
Qed.

(** A short unmasked frame: the decoder takes as many bytes as the header
    announces. *)
Lemma receive_frame_short_takes (h0 n : Z) (rest : list Z) :
  0 <= n < 126 ->
  exists r,
    WebSocketServer.receive_frame ([h0; n] ++ rest) = (r, drop (Z.to_nat n) rest).
Proof.
  intros Hn. cbn [app]. rewrite receive_frame_header.
  rewrite land_low7, land_mask_bit_clear by lia.
  destruct (Z.eqb_spec n 126); [lia|]. destruct (Z.eqb_spec n 127); [lia|].
  change (Z.shiftr 0 7 =? 0) with true. cbv beta iota.
  unfold bind, ret, read, lift.
  destruct (Z.land h0 15 =? WebSocketServer.WS_OPCODE_TEXT); [|by eexists].
  destruct (decode (take (Z.to_nat n) rest)); by eexists.
Qed.

(** X29.  The length field that [send_frame] writes is the number of
    characters of the text, while the payload is its UTF-8 encoding: for a
    text of fewer than 126 characters, one of them not ASCII, the payload is
    longer than the header announces, and [receive_frame] takes the
    announced number of bytes and leaves the others in the stream, where the
    next header is expected. *)
Theorem send_frame_announces_characters_not_bytes (data payload : list Z) :
  encode data = Ok payload ->
  Exists (fun c => 128 <= c) data ->
  (length data < 126)%nat ->
  exists r,
    WebSocketServer.send_frame data []
    = (Ok tt, [0x81; Z.of_nat (length data)] ++ payload)
    /\ (length data < length payload)%nat
    /\ WebSocketServer.receive_frame ([0x81; Z.of_nat (length data)] ++ payload)
       = (r, drop (length data) payload)
    /\ drop (length data) payload <> [].
Proof.
  intros Henc Hex Hlen.
  destruct (encode_length _ _ Henc) as [_ Hlt]. specialize (Hlt Hex).
  destruct (receive_frame_short_takes 0x81 (Z.of_nat (length data)) payload ltac:(lia))
    as [r Hr].
  rewrite Nat2Z.id in Hr. exists r.
  split.
  { rewrite (server_send_frame_bytes data payload []) by (done || lia).
    unfold frame_header. destruct (Z.ltb_spec (Z.of_nat (length data)) 126); [done|lia]. }
  split; [done|]. split; [done|].
  intros H. apply (f_equal length) in H. rewrite length_drop in H. cbn in H. lia.
Qed.

Lemma send_frame_announces_characters_not_bytes_witness :
  exists r,
    WebSocketServer.send_frame [0xE9] [] = (Ok tt, [0x81; 1] ++ [0xC3; 0xA9])
    /\ (1 < 2)%nat
    /\ WebSocketServer.receive_frame ([0x81; 1] ++ [0xC3; 0xA9]) = (r, [0xA9])
    /\ [0xA9] <> [].
Proof.
  apply (send_frame_announces_characters_not_bytes [0xE9] [0xC3; 0xA9]).
  - reflexivity.
  - constructor. lia.
  - simpl. lia.
Defined.

(** ** Discovery: the client with an answer *)

Section PairingAnswer.

Import Pairing.

Variable loads : list Z -> option json.

(** One round of [_wait_for_response] that finds something other than a
    hello at the head of the inbox. *)
Lemma poll_round_skips (p : pairing) (x : poll) (rest : list poll) :
  inbox p = x :: rest ->
  is_hello loads x = false ->
  try_except (poll_once loads) (fun _ => ret None) p
  = (Ok None, {| ip := ip p; mac := mac p; inbox := rest;
                 events := events p ++ [Recv] |}).
Proof.
  intros Hbox Hx. unfold try_except, poll_once, recvfrom, bind, emit, modify, get, put,
    raise, ret, lift. simpl. rewrite Hbox. simpl.
  destruct x as [|data addr]; [done|].
  unfold is_hello, obind, decode, json_loads in *.
  destruct (utf8_decode data) as [text|]; simpl in *; try reflexivity.
  destruct (loads text) as [message|]; simpl in *; try reflexivity.
  destruct message; simpl; try reflexivity.
  destruct (assoc (str_of "type") d) as [t|]; simpl.
  - rewrite Hx. reflexivity.
  - reflexivity.
Qed.

(** The round that finds a hello carrying an address. *)
Lemma poll_round_hello (p : pairing) (data addr text : list Z)
    (d : list (list Z * json)) (t v : json) (rest : list poll) :
  inbox p = Datagram data addr :: rest ->
  decode data = Ok text -> loads text = Some (JDict d) ->
  assoc (str_of "type") d = Some t -> key_eqb t (JStr (str_of "hello")) = true ->
  assoc (str_of "ip") d = Some v ->
  try_except (poll_once loads) (fun _ => ret None) p
  = (Ok (Some v), {| ip := ip p; mac := mac p; inbox := rest;
                     events := events p ++ [Recv] |}).
Proof.
  intros Hbox Hdec Hloads Ht Hhello Hip.
  unfold try_except, poll_once, recvfrom, bind, emit, modify, get, put,
    raise, ret, lift. simpl. rewrite Hbox. simpl.
  rewrite Hdec. unfold json_loads. rewrite Hloads. simpl.
  rewrite Ht, Hhello, Hip. reflexivity.
Qed.

(** The rounds before the hello: each is a [recvfrom] and a sleep. *)
Lemma wait_rounds_skips (pre : list poll) :
  forall (n : nat) (p : pairing) (rest : list poll),
    inbox p = pre ++ rest ->
    Forall (fun x => is_hello loads x = false) pre ->
    wait_rounds loads (length pre + n) p
    = wait_rounds loads n
        {| ip := ip p; mac := mac p; inbox := rest;
           events := events p ++ concat (replicate (length pre) [Recv; Sleep 1]) |}.
Proof.
  induction pre as [|x pre IH]; intros n p rest Hbox Hpre.
  - cbn in *. rewrite app_nil_r. destruct p; cbn in *. by subst.
  - apply Forall_cons in Hpre as [Hx Hpre].
    cbn [length Nat.add wait_rounds]. unfold bind at 1.
    rewrite (poll_round_skips p x (pre ++ rest)) by done.
    unfold bind at 1. unfold emit, modify. cbn [ip mac inbox events].
    rewrite (IH n _ rest) by done. cbn [ip mac inbox events replicate concat].
    by rewrite <- !app_assoc.
Qed.

Lemma wait_rounds_hello (p : pairing) (pre : list poll) (data addr text : list Z)
    (d : list (list Z * json)) (t v : json) (rest : list poll) :
  inbox p = pre ++ Datagram data addr :: rest ->
  Forall (fun x => is_hello loads x = false) pre ->
  (length pre < 10)%nat ->
  decode data = Ok text -> loads text = Some (JDict d) ->
  assoc (str_of "type") d = Some t -> key_eqb t (JStr (str_of "hello")) = true ->
  assoc (str_of "ip") d = Some v ->
  _wait_for_response loads p
  = (Ok (Some v),
     {| ip := ip p; mac := mac p; inbox := rest;
        events := events p ++ concat (replicate (length pre) [Recv; Sleep 1])
                  ++ [Recv] |}).
Proof.
  intros Hbox Hpre Hlen Hdec Hloads Ht Hhello Hip.
  unfold _wait_for_response.
  replace 10%nat with (length pre + S (9 - length pre))%nat by lia.
  rewrite (wait_rounds_skips pre _ p _ Hbox Hpre).
  cbn [wait_rounds]. unfold bind at 1.
  erewrite poll_round_hello; [|reflexivity|done..].
  cbn [ip mac inbox events]. unfold ret. by rewrite <- app_assoc.
Qed.

(** X24.  When the first hello arrives within the ten polls and carries a
    non-empty address, [start] returns that address after the five
    broadcasts, one fruitless round (a [recvfrom] and a sleep of one second)
    per datagram before the hello, and the [recvfrom] that finds it; its
    last act is to send the paired confirmation, holding the address, to
    that address on port 5000.  Nothing behind the hello is read. *)
Theorem pairing_answers_the_first_hello (p : pairing) (pre : list poll)
    (data addr text server_ip : list Z) (d : list (list Z * json)) (t : json)
    (rest : list poll) :
  inbox p = pre ++ Datagram data addr :: rest ->
  Forall (fun x => is_hello loads x = false) pre ->
  (length pre < 10)%nat ->
  decode data = Ok text -> loads text = Some (JDict d) ->
  assoc (str_of "type") d = Some t -> key_eqb t (JStr (str_of "hello")) = true ->
  assoc (str_of "ip") d = Some (JStr server_ip) -> server_ip <> [] ->
  exists p',
    start loads p = (Ok (Some (JStr server_ip)), p')
    /\ events p' =
         events p ++ [SetMode "pairing"]
         ++ concat (replicate 5 [SendTo (pairing_request p) (str_of "255.255.255.255") 5000;
                                 Sleep 1])
         ++ concat (replicate (length pre) [Recv; Sleep 1])
         ++ [Recv;
             SendTo (JDict [(str_of "type", JStr (str_of "paired"));
                            (str_of "ip", JStr server_ip)]) server_ip 5000]
    /\ inbox p' = rest.
Proof.
  intros Hbox Hpre Hlen Hdec Hloads Ht Hhello Hip Hne.
  unfold start. unfold bind at 1. unfold emit at 1, modify.
  unfold bind at 1. rewrite broadcast_events.
  unfold bind at 1.
  erewrite wait_rounds_hello; [|exact Hbox|done..].
  cbn [truthy]. rewrite bool_decide_eq_false_2 by done. cbn [negb].
  unfold _send_paired_confirmation, sendto, bind, emit, modify, ret.
  eexists. split; [reflexivity|]. cbn. split; [|done].
  by rewrite <- !app_assoc.
Qed.

(** X25.  A hello whose address is falsy (null, an empty string) ends the
    wait at once: [start] returns None without the remaining polls and
    without sending a confirmation. *)
Theorem pairing_ignores_a_hello_without_address (p : pairing) (pre : list poll)
    (data addr text : list Z) (d : list (list Z * json)) (t v : json)
    (rest : list poll) :
  inbox p = pre ++ Datagram data addr :: rest ->
  Forall (fun x => is_hello loads x = false) pre ->
  (length pre < 10)%nat ->
  decode data = Ok text -> loads text = Some (JDict d) ->
  assoc (str_of "type") d = Some t -> key_eqb t (JStr (str_of "hello")) = true ->
  assoc (str_of "ip") d = Some v -> truthy v = false ->
  exists p',
    start loads p = (Ok None, p')
    /\ events p' =
         events p ++ [SetMode "pairing"]
         ++ concat (replicate 5 [SendTo (pairing_request p) (str_of "255.255.255.255") 5000;
                                 Sleep 1])
         ++ concat (replicate (length pre) [Recv; Sleep 1])
         ++ [Recv]
    /\ inbox p' = rest.
Proof.
  intros Hbox Hpre Hlen Hdec Hloads Ht Hhello Hip Hfalsy.
  unfold start. unfold bind at 1. unfold emit at 1, modify.
  unfold bind at 1. rewrite broadcast_events.
  unfold bind at 1.
  erewrite wait_rounds_hello; [|exact Hbox|done..].
  rewrite Hfalsy. unfold ret.
  eexists. split; [reflexivity|]. cbn. split; [|done].
  by rewrite <- !app_assoc.
Qed.

End PairingAnswer.

Section PairingWindow.

Import Pairing.

Variable loads : list Z -> option json.

Lemma wait_rounds_window (p : pairing) :
  Forall (fun x => is_hello loads x = false) (take 10 (inbox p)) ->
  exists p',
    _wait_for_response loads p = (Ok None, p')
    /\ ip p' = ip p /\ mac p' = mac p
    /\ inbox p' = drop 10 (inbox p)
    /\ events p' = events p ++ concat (replicate 10 [Recv; Sleep 1]).
Proof.
  intros Hwin. unfold _wait_for_response.
  destruct (Nat.le_gt_cases 10 (length (inbox p))) as [Hlen|Hlen].
  - pose proof (wait_rounds_skips loads (take 10 (inbox p)) 0 p (drop 10 (inbox p))
                  ltac:(by rewrite take_drop) Hwin) as Hrun.
    rewrite length_take, Nat.min_l in Hrun by done. cbn [Nat.add] in Hrun.
    rewrite Hrun. eexists. split; [reflexivity|]. done.
  - rewrite take_ge in Hwin by lia.
    by apply wait_rounds_without_hello.
Qed.

(** X30.  Only the first ten datagrams count: when none of them is a hello,
    [start] returns None after the five broadcasts and ten rounds, and a
    hello that comes later is left unread. *)
Theorem pairing_polls_ten_times_only (p : pairing) :
  Forall (fun x => is_hello loads x = false) (take 10 (inbox p)) ->
  exists p',
    start loads p = (Ok None, p')
    /\ events p' =
         events p ++ [SetMode "pairing"]
         ++ concat (replicate 5 [SendTo (pairing_request p) (str_of "255.255.255.255") 5000;
                                 Sleep 1])
         ++ concat (replicate 10 [Recv; Sleep 1])
    /\ inbox p' = drop 10 (inbox p).
Proof.
  intros Hwin. unfold start. unfold bind at 1. unfold emit at 1, modify.
  unfold bind at 1. rewrite broadcast_events.
  unfold bind at 1.
  set (p1 := logged _ _).
  destruct (wait_rounds_window p1) as (p' & Hrun & _ & _ & Hbox & Hev); [done|].
  exists p'. rewrite Hrun. unfold ret. split; [done|].
  rewrite Hev, Hbox. subst p1. simpl. by rewrite <- !app_assoc.
Qed.

End PairingWindow.

Lemma pairing_polls_ten_times_only_witness :
  exists p',
    Pairing.start
      (fun _ => Some (JDict [(str_of "type", JStr (str_of "hello"));
                             (str_of "ip", JStr (str_of "192.168.4.1"))]))
      {| Pairing.ip := str_of "192.168.4.2"; Pairing.mac := str_of "3c71bf5a5414";
         Pairing.inbox := replicate 10 Pairing.NoData
                          ++ [Pairing.Datagram [104; 105] (str_of "192.168.4.1")];
         Pairing.events := [] |}
    = (Ok None, p')
    /\ Pairing.inbox p' = [Pairing.Datagram [104; 105] (str_of "192.168.4.1")].
Proof.
  destruct (pairing_polls_ten_times_only
              (fun _ => Some (JDict [(str_of "type", JStr (str_of "hello"));
                                     (str_of "ip", JStr (str_of "192.168.4.1"))]))
              {| Pairing.ip := str_of "192.168.4.2"; Pairing.mac := str_of "3c71bf5a5414";
                 Pairing.inbox := replicate 10 Pairing.NoData
                                  ++ [Pairing.Datagram [104; 105] (str_of "192.168.4.1")];
                 Pairing.events := [] |})
    as (p' & Hrun & _ & Hbox).
  - repeat constructor.
  - exists p'. split; [exact Hrun | exact Hbox].
Defined.

(** ** The handshake of the two ends *)

Lemma line_of_app (l rest : list Z) :
  Forall (fun c => c <> 10) l -> line_of (l ++ 10 :: rest) = l ++ [10].
Proof.
  induction 1 as [|c l Hc _ IH]; [done|].
  cbn. destruct (Z.eqb_spec c 10); [done|]. by rewrite IH.
Qed.

Lemma readline_crlf (l rest : list Z) :
  Forall (fun c => c <> 10) l ->
  readline (l ++ [13; 10] ++ rest) = (Ok (l ++ [13; 10]), rest).
Proof.
  intros Hl. unfold readline.
  replace (l ++ [13; 10] ++ rest) with ((l ++ [13]) ++ 10 :: rest)
    by (by rewrite <- app_assoc).
  rewrite line_of_app by (apply Forall_app; split; [done|by repeat constructor]).
  rewrite <- !app_assoc. cbn [app]. f_equal.
  replace (l ++ 13 :: 10 :: rest) with ((l ++ [13; 10]) ++ rest)
    by (by rewrite <- app_assoc).
  by rewrite drop_app_length.
Qed.

Lemma printable_not_space (c : Z) : 32 < c < 127 -> is_space c = false.
Proof.
  intros Hc. unfold is_space.
  destruct (Z.eqb_spec c 32); [lia|].
  destruct (Z.leb_spec 9 c); [|done].
  destruct (Z.leb_spec c 13); [lia|done].
Qed.

(** Stripping a header line takes its line end off. *)
Lemma strip_line (l : list Z) :
  header_line l -> strip (l ++ [13; 10]) = l.
Proof.
  intros (_ & _ & (c & s & -> & Hc) & (y & Hlast & Hy)).
  unfold strip. cbn [app lstrip]. rewrite Hc.
  change (c :: s ++ [13; 10]) with ((c :: s) ++ [13; 10]).
  apply last_Some in Hlast as [l' Hl']. rewrite Hl'.
  rewrite !rev_app_distr. cbn [rev app lstrip].
  change (is_space 10) with true. change (is_space 13) with true. cbv iota.
  rewrite Hy. cbn [rev]. by rewrite rev_involutive.
Qed.

(** One header line that holds ": ". *)
Lemma read_headers_line (fuel : nat) (hs : gmap (list Z) (list Z))
    (l key value rest : list Z) :
  header_line l ->
  split_once 58 32 l = Some (key, value) ->
  WebSocketServer.read_headers (S fuel) hs (l ++ [13; 10] ++ rest)
  = WebSocketServer.read_headers fuel (<[key := value]> hs) rest.
Proof.
  intros Hl Hsplit. pose proof Hl as (Hascii & Hnl & (c & s & -> & Hc) & _).
  cbn [WebSocketServer.read_headers]. unfold bind at 1.
  rewrite readline_crlf by done.
  rewrite bool_decide_eq_false_2; last first.
  { intros H. apply (f_equal length) in H. rewrite length_app in H. cbn in H. lia. }
  rewrite bool_decide_eq_false_2 by done. cbn [orb].
  unfold bind at 1, lift at 1.
  rewrite decode_ascii by (apply Forall_app; split; [done|repeat constructor; lia]).
  by rewrite (strip_line _ Hl), Hsplit.
Qed.

Lemma read_headers_end (fuel : nat) (hs : gmap (list Z) (list Z)) (rest : list Z) :
  WebSocketServer.read_headers (S fuel) hs ([13; 10] ++ rest) = (Ok hs, rest).
Proof. reflexivity. Qed.

Ltac header_line_check :=
  split_and!;
  [ apply ascii_text_check; reflexivity
  | repeat constructor; done
  | by eexists _, _
  | by eexists ].

Lemma host_line (server_ip : list Z) :
  printable server_ip -> server_ip <> [] ->
  header_line (str_of "Host: " ++ server_ip).
Proof.
  intros Hp Hne. split_and!.
  - apply Forall_app. split; [apply ascii_text_check; reflexivity|].
    eapply Forall_impl; [exact Hp|]. intros c Hc. cbn in Hc. lia.
  - apply Forall_app. split; [repeat constructor; done|].
    eapply Forall_impl; [exact Hp|]. intros c Hc. cbn in Hc. lia.
  - by eexists _, _.
  - destruct (last server_ip) as [y|] eqn:Hlast.
    + exists y. split.
      * apply last_Some in Hlast as [l' ->]. rewrite app_assoc. apply last_snoc.
      * apply printable_not_space. apply last_Some in Hlast as [l' ->].
        unfold printable in Hp. rewrite Forall_app in Hp. destruct Hp as [_ Hy].
        by apply Forall_cons in Hy as [Hy _].
    + apply last_None in Hlast. done.
Qed.

Lemma request_ascii (server_ip : list Z) :
  printable server_ip -> ascii_text (WebSocketClient.request server_ip).
Proof.
  intros Hp. unfold WebSocketClient.request.
  repeat (apply Forall_app; split); try (apply ascii_text_check; reflexivity).
  eapply Forall_impl; [exact Hp|]. intros c Hc. cbn in Hc. lia.
Qed.

Lemma server_handshake_run (server_ip : list Z) (s : WebSocketServer.server) :
  printable server_ip -> server_ip <> [] ->
  WebSocketServer.handshake
    (WebSocketServer.accept (WebSocketClient.request server_ip) s)
  = (Ok tt, WebSocketServer.wrote [WebSocketServer.Raw switching_protocols]
              (WebSocketServer.accept [] s)).
Proof.
  intros Hp Hne. unfold WebSocketServer.handshake.
  unfold bind at 1, WebSocketServer.on_reader at 1, zoom at 1.
  cbn [WebSocketServer.reader WebSocketServer.accept].
  unfold WebSocketClient.request.
  rewrite readline_crlf by (repeat constructor; done).
  unfold bind at 1, get at 1.
  unfold bind at 1, WebSocketServer.on_reader at 1, zoom at 1.
  cbn [WebSocketServer.reader WebSocketServer.with_reader].
  match goal with
  | |- context [WebSocketServer.read_headers (S (length ?b))] =>
      assert (Hfuel : exists f, length b = S (S (S (S (S f)))))
  end.
  { rewrite !length_app. cbn [length]. eexists. repeat rewrite <- Nat.add_succ_comm.
    cbn [Nat.add]. reflexivity. }
  destruct Hfuel as [f ->].
  rewrite app_assoc.
  rewrite (read_headers_line _ _ _ (str_of "Host") server_ip)
    by (by apply host_line || reflexivity).
  rewrite (read_headers_line _ _ _ (str_of "Upgrade") (str_of "websocket"))
    by (header_line_check || reflexivity).
  rewrite (read_headers_line _ _ _ (str_of "Connection") (str_of "Upgrade"))
    by (header_line_check || reflexivity).
  rewrite (read_headers_line _ _ _ (str_of "Sec-WebSocket-Key")
             (str_of "dGhlIHNhbXBsZSBub25jZQ=="))
    by (header_line_check || reflexivity).
  change [13; 10; 13; 10] with ([13; 10] ++ [13; 10] ++ []).
  rewrite (read_headers_line _ _ _ (str_of "Sec-WebSocket-Version") (str_of "13"))
    by (header_line_check || reflexivity).
  rewrite read_headers_end.
  rewrite lookup_insert_ne by done. rewrite lookup_insert_eq.
  unfold bind, lift.
  replace (WebSocketServer.accept_key (str_of "dGhlIHNhbXBsZSBub25jZQ=="))
    with (Ok (A := list Z) (str_of "s3pPLMBiTxaQ9kYGzzhZRbK+xOo="))
    by (vm_compute; reflexivity).
  replace (decode (str_of "s3pPLMBiTxaQ9kYGzzhZRbK+xOo="))
    with (Ok (A := list Z) (str_of "s3pPLMBiTxaQ9kYGzzhZRbK+xOo="))
    by (vm_compute; reflexivity).
  replace (encode (WebSocketServer.response (str_of "s3pPLMBiTxaQ9kYGzzhZRbK+xOo=")))
    with (Ok (A := list Z) switching_protocols)
    by (vm_compute; reflexivity).
  by destruct s.
Qed.

Lemma client_handshake_run (server_ip : list Z) (c : WebSocketClient.connection) :
  printable server_ip ->
  WebSocketClient.reader c = switching_protocols ->
  WebSocketClient.handshake server_ip c
  = (Ok tt, {| WebSocketClient.reader := [];
               WebSocketClient.writer :=
                 WebSocketClient.writer c ++ WebSocketClient.request server_ip |}).
Proof.
  intros Hp Hr. unfold WebSocketClient.handshake.
  unfold bind at 1, lift at 1.
  rewrite (encode_ascii _ (request_ascii _ Hp)).
  unfold bind, WebSocketClient.write, modify, WebSocketClient.on_reader, zoom, read.
  cbn [WebSocketClient.reader WebSocketClient.writer]. rewrite Hr.
  replace (take (Z.to_nat 1024) switching_protocols) with switching_protocols
    by (vm_compute; reflexivity).
  replace (drop (Z.to_nat 1024) switching_protocols) with (@nil Z)
    by (vm_compute; reflexivity).
  replace (contains (str_of "101 Switching Protocols") switching_protocols)
    with true by (vm_compute; reflexivity).
  reflexivity.
Qed.

(** X26.  The handshake of the repository's client and server succeeds for
    every server address made of printable characters other than the space:
    the server answers the request that the client writes with a response
    that holds 101 Switching Protocols, and the client, which reads that
    response in one piece, returns normally.  The response is the same for
    every address. *)
Theorem handshake_of_client_and_server (server_ip : list Z)
    (s : WebSocketServer.server) :
  printable server_ip -> server_ip <> [] ->
  exists response,
    WebSocketServer.handshake
      (WebSocketServer.accept (WebSocketClient.request server_ip) s)
    = (Ok tt, WebSocketServer.wrote [WebSocketServer.Raw response]
                (WebSocketServer.accept [] s))
    /\ WebSocketClient.handshake server_ip
         {| WebSocketClient.reader := response; WebSocketClient.writer := [] |}
       = (Ok tt, {| WebSocketClient.reader := [];
                    WebSocketClient.writer := WebSocketClient.request server_ip |}).
Proof.
  intros Hp Hne. exists switching_protocols.
  split; [by apply server_handshake_run|].
  exact (client_handshake_run server_ip
           {| WebSocketClient.reader := switching_protocols;
              WebSocketClient.writer := [] |} Hp eq_refl).
Qed.

(** X27.  A response whose first 1024 bytes do not hold 101 Switching
    Protocols makes the client's [handshake] raise ValueError; the request
    has been written by then and the 1024 bytes are consumed. *)
Theorem client_handshake_needs_101 (server_ip response : list Z)
    (c : WebSocketClient.connection) :
  printable server_ip ->
  WebSocketClient.reader c = response ->
  contains (str_of "101 Switching Protocols") (take 1024 response) = false ->
  WebSocketClient.handshake server_ip c
  = (Raise (ValueError "WebSocket handshake failed"),
     {| WebSocketClient.reader := drop 1024 response;
        WebSocketClient.writer :=
          WebSocketClient.writer c ++ WebSocketClient.request server_ip |}).
Proof.
  intros Hp Hr Hno. unfold WebSocketClient.handshake.
  unfold bind at 1, lift at 1.
  rewrite (encode_ascii _ (request_ascii _ Hp)).
  unfold bind, WebSocketClient.write, modify, WebSocketClient.on_reader, zoom, read.
  cbn [WebSocketClient.reader WebSocketClient.writer]. rewrite Hr.
  change (Z.to_nat 1024) with 1024%nat. by rewrite Hno.
Qed.

(** The frame decoder of the client is that of the server. *)
Lemma client_receive_frame_is_server (buf : list Z) :
  WebSocketClient.receive_frame buf = WebSocketServer.receive_frame buf.
Proof. reflexivity. Qed.

(** X28.  A text of ASCII characters, shorter than 2^64, that the server
    frames with its [send_frame] is read back by the [receive_frame] of the
    client, which consumes the whole frame. *)
Theorem server_frame_reaches_the_client (m : list Z) :
  ascii_text m -> Z.of_nat (length m) < 2 ^ 64 ->
  exists frame,
    WebSocketServer.send_frame m [] = (Ok tt, frame)
    /\ WebSocketClient.receive_frame frame = (Ok (Some m), []).
Proof.
  intros Hm Hlen. destruct (frame_roundtrip_ascii m Hm Hlen) as (frame & Hs & Hr).
  exists frame. split; [done|]. by rewrite client_receive_frame_is_server.
Qed.

(** ** The configuration of server/main.py *)

(** The controller and the scheduler that server/main.py builds are in
    order. *)
Lemma motor_consistent_init (pins : list (Z * Z * Z)) :
  motor_consistent (Motor.init pins).
Proof.
  unfold motor_consistent. cbn. by rewrite !length_replicate, length_map.
Qed.

Lemma no_stop_pending_init (pins : list (Z * Z * Z)) :
  no_stop_pending (Motor.init pins).
Proof.
  unfold no_stop_pending. cbn. apply Forall_forall. intros b Hb.
  by apply elem_of_replicate in Hb as [-> _].
Qed.

Lemma manager_sound_init : manager_sound (Elevator.init (Motor.init MOTOR_PINS)).
Proof.
  split; [done|]. split; [apply motor_consistent_init|].
  split; [apply no_stop_pending_init|]. split; [done|]. split; [done|].
  intros i e H. destruct i as [|[|[|i]]]; cbn in H; try done;
    injection H as <-; by cbn.
Qed.

Lemma motor_reset_all_returns_to_floor_one_witness :
  exists c',
    Motor.reset_all (Motor.with_floor [3; 1; 2] (Motor.init MOTOR_PINS)) = (Ok tt, c')
    /\ Motor.current_floor c' = [1; 1; 1].
Proof.
  destruct (motor_reset_all_returns_to_floor_one
              (Motor.with_floor [3; 1; 2] (Motor.init MOTOR_PINS)))
    as (c' & Hrun & Hfl & _).
  - unfold motor_consistent. cbn. lia.
  - apply no_stop_pending_init.
  - cbn. lia.
  - exists c'. split; [exact Hrun | exact Hfl].
Defined.

Lemma assign_floor_services_the_floor_witness :
  exists m' e',
    Elevator._assign_floor 1 3 (Elevator.init (Motor.init MOTOR_PINS)) = (Ok tt, m')
    /\ Elevator.elevators m' !! 1%nat = Some e'
    /\ Elevator.floor e' = 3 /\ Elevator.status e' = Elevator.Idle
    /\ Motor.current_floor (Elevator.motors m') !! 1%nat = Some 3.
Proof.
  destruct (assign_floor_services_the_floor (Elevator.init (Motor.init MOTOR_PINS))
              1 Elevator.fresh 3 manager_sound_init eq_refl ltac:(lia))
    as (m' & e' & Hrun & Hel & Hf & _ & Hmoved & _ & Hcf & _).
  exists m', e'. split; [exact Hrun|]. split; [by rewrite Hel|].
  split; [exact Hf|]. split; [|exact Hcf].
  apply Hmoved. cbn. lia.
Defined.

Lemma assign_floor_swallows_unknown_floor_witness :
  exists m',
    Elevator._assign_floor 0 7 (Elevator.init (Motor.init MOTOR_PINS)) = (Ok tt, m')
    /\ (Elevator.status <$> Elevator.elevators m' !! 0%nat) = Some Elevator.Error
    /\ Elevator.motors m' = Motor.init MOTOR_PINS.
Proof.
  destruct (assign_floor_swallows_unknown_floor (Elevator.init (Motor.init MOTOR_PINS))
              0 Elevator.fresh 7 manager_sound_init eq_refl ltac:(lia))
    as (m' & Hrun & Hel & Hm & _).
  exists m'. split; [exact Hrun|]. split; [by rewrite Hel | exact Hm].
Defined.

Lemma send_elevator_moves_the_elevator_witness :
  exists m',
    Elevator.send_elevator 2 2 (Elevator.init (Motor.init MOTOR_PINS)) = (Ok tt, m')
    /\ Motor.current_floor (Elevator.motors m') !! 2%nat = Some 2.
Proof.
  destruct (send_elevator_moves_the_elevator (Elevator.init (Motor.init MOTOR_PINS))
              2 Elevator.fresh 2 manager_sound_init eq_refl ltac:(lia))
    as (m' & e' & Hrun & _ & _ & _ & _ & Hcf & _).
  exists m'. split; [exact Hrun | exact Hcf].
Defined.

Lemma send_elevator_rejects_unknown_elevator_witness :
  Elevator.send_elevator 5 2 (Elevator.init (Motor.init MOTOR_PINS))
  = (Raise (ValueError "Invalid elevator ID"), Elevator.init (Motor.init MOTOR_PINS)).
Proof.
  apply (send_elevator_rejects_unknown_elevator (Elevator.init (Motor.init MOTOR_PINS)) 5 2).
  right. simpl. lia.
Defined.

Lemma reset_all_restores_every_elevator_witness :
  exists m',
    Elevator.reset_all all_moving = (Ok tt, m')
    /\ Elevator.elevators m' = [Elevator.fresh; Elevator.fresh; Elevator.fresh]
    /\ Motor.current_floor (Elevator.motors m') = [1; 1; 1].
Proof.
  destruct (reset_all_restores_every_elevator all_moving)
    as (m' & Hrun & Hel & Hfl & _).
  - apply motor_consistent_init.
  - apply no_stop_pending_init.
  - cbn. lia.
  - reflexivity.
  - exists m'. split; [exact Hrun|]. split; [exact Hel | exact Hfl].
Defined.

Lemma select_best_elevator_takes_nearest_idle_witness :
  exists (i : nat) (e : Elevator.elevator),
    Elevator._select_best_elevator 3 (Elevator.init (Motor.init MOTOR_PINS))
    = (Ok (Some (Z.of_nat i)), Elevator.init (Motor.init MOTOR_PINS))
    /\ Elevator.elevators (Elevator.init (Motor.init MOTOR_PINS)) !! i = Some e
    /\ Elevator.status e = Elevator.Idle.
Proof.
  destruct (select_best_elevator_takes_nearest_idle
              (Elevator.init (Motor.init MOTOR_PINS)) 3 0 Elevator.fresh
              eq_refl eq_refl eq_refl)
    as (i & e & Hrun & Hl & Hst & _).
  exists i, e. split; [exact Hrun|]. split; [exact Hl | exact Hst].
Defined.

Lemma select_best_elevator_all_busy_takes_shortest_queue_witness :
  exists (i : nat) (e : Elevator.elevator),
    Elevator._select_best_elevator 2 all_moving = (Ok (Some (Z.of_nat i)), all_moving)
    /\ Elevator.elevators all_moving !! i = Some e.
Proof.
  destruct (select_best_elevator_all_busy_takes_shortest_queue all_moving 2)
    as (i & e & Hrun & Hl & _).
  - reflexivity.
  - discriminate.
  - repeat constructor; discriminate.
  - exists i, e. split; [exact Hrun | exact Hl].
Defined.

Lemma call_elevator_queues_the_call_and_names_an_elevator_witness :
  exists (i : nat),
    Elevator.call_elevator 2 (Some 1) (Elevator.init (Motor.init MOTOR_PINS))
    = (Ok (Some (Z.of_nat i)),
       Elevator.with_call_queue [(2, Some 1)] (Elevator.init (Motor.init MOTOR_PINS)))
    /\ Z.of_nat i = 1.
Proof.
  destruct (call_elevator_queues_the_call_and_names_an_elevator
              (Elevator.init (Motor.init MOTOR_PINS)) 2 (Some 1))
    as (i & e & Hrun & _ & Hpref).
  - reflexivity.
  - discriminate.
  - exists i. split; [exact Hrun|].
    apply (Hpref 1 Elevator.fresh); reflexivity.
Defined.

Lemma process_queues_turn_never_assigns_witness :
  Elevator._process_queues_turn all_moving
  = (Blocked, Elevator.with_call_queue [] (Elevator.with_lock_held true all_moving)).
Proof. exact (process_queues_turn_never_assigns all_moving eq_refl). Defined.

Lemma process_message_always_answers_witness :
  exists s' ws,
    WebSocketServer.process_message (fun _ => None) (fun _ => None) (str_of "reset") server0
    = (Ok tt, s')
    /\ WebSocketServer.written s' = WebSocketServer.written server0 ++ ws
    /\ ws <> [].
Proof.
  destruct (process_message_always_answers (fun _ => None) (fun _ => None)
              (str_of "reset") server0 manager_sound_init)
    as (s' & ws & Hrun & Hw & Hne & _).
  exists s', ws. split; [exact Hrun|]. split; [exact Hw | exact Hne].
Defined.

Lemma task_command_moves_the_elevator_witness :
  exists s',
    WebSocketServer.process_message (fun _ => Some (task_command 417 1 3)) (fun _ => None)
      (str_of "task") server0 = (Ok tt, s')
    /\ WebSocketServer.written s'
       = [WebSocketServer.Doc (WebSocketServer.task_response 1 3 "processing");
          WebSocketServer.Doc (WebSocketServer.task_response 1 3 "completed")]
    /\ Motor.current_floor (Elevator.motors (WebSocketServer.elevator s')) !! 1%nat
       = Some 3.
Proof.
  destruct (task_command_moves_the_elevator (fun _ => Some (task_command 417 1 3))
              (fun _ => None) (str_of "task") 417 3 1 Elevator.fresh server0
              manager_sound_init eq_refl ltac:(lia) eq_refl)
    as (s' & e' & Hrun & Hw & _ & _ & _ & Hcf & _).
  exists s'. split; [exact Hrun|]. split; [exact Hw | exact Hcf].
Defined.

Lemma task_command_for_unknown_floor_is_completed_witness :
  exists s',
    WebSocketServer.process_message (fun _ => Some (task_command 417 1 9)) (fun _ => None)
      (str_of "task") server0 = (Ok tt, s')
    /\ WebSocketServer.written s'
       = [WebSocketServer.Doc (WebSocketServer.task_response 1 9 "processing");
          WebSocketServer.Doc (WebSocketServer.task_response 1 9 "completed")]
    /\ (Elevator.status <$> Elevator.elevators (WebSocketServer.elevator s') !! 1%nat)
       = Some Elevator.Error.
Proof.
  destruct (task_command_for_unknown_floor_is_completed
              (fun _ => Some (task_command 417 1 9))
              (fun _ => None) (str_of "task") 417 9 1 Elevator.fresh server0
              manager_sound_init eq_refl ltac:(lia) eq_refl)
    as (s' & Hrun & Hw & Hel & _).
  exists s'. split; [exact Hrun|]. split; [exact Hw | by rewrite Hel].
Defined.

Lemma reset_command_restores_every_elevator_witness :
  exists s',
    WebSocketServer.process_message
      (fun _ => Some (JDict [(str_of "reset", JDict [])])) (fun _ => None)
      (str_of "reset") (WebSocketServer.init all_moving) = (Ok tt, s')
    /\ Elevator.elevators (WebSocketServer.elevator s')
       = [Elevator.fresh; Elevator.fresh; Elevator.fresh].
Proof.
  destruct (reset_command_restores_every_elevator
              (fun _ => Some (JDict [(str_of "reset", JDict [])])) (fun _ => None)
              (str_of "reset") [(str_of "reset", JDict [])] (JDict [])
              (WebSocketServer.init all_moving))
    as (s' & Hrun & _ & Hel & _); try reflexivity.
  - apply motor_consistent_init.
  - apply no_stop_pending_init.
  - exists s'. split; [exact Hrun | exact Hel].
Defined.

Lemma call_command_queues_and_spawns_witness :
  exists s' (i : nat),
    WebSocketServer.process_message (fun _ => Some (call_command 2 1)) (fun _ => None)
      (str_of "call") server0 = (Ok tt, s')
    /\ WebSocketServer.spawned s' = [(Some (Z.of_nat i), 2)]
    /\ Elevator.call_queue (WebSocketServer.elevator s') = [(2, Some 1)].
Proof.
  destruct (call_command_queues_and_spawns (fun _ => Some (call_command 2 1))
              (fun _ => None) (str_of "call") 2 1 server0)
    as (s' & i & e & Hrun & _ & Hsp & _ & Hcq & _).
  - reflexivity.
  - discriminate.
  - reflexivity.
  - exists s', i. split; [exact Hrun|]. split; [exact Hsp | exact Hcq].
Defined.


Lemma pairing_answers_the_first_hello_witness :
  exists p',
    Pairing.start
      (fun _ => Some (JDict [(str_of "type", JStr (str_of "hello"));
                             (str_of "ip", JStr (str_of "192.168.4.1"))]))
      {| Pairing.ip := str_of "192.168.4.2"; Pairing.mac := str_of "3c71bf5a5414";
         Pairing.inbox := [Pairing.NoData;
                           Pairing.Datagram [104; 105] (str_of "192.168.4.1")];
         Pairing.events := [] |}
    = (Ok (Some (JStr (str_of "192.168.4.1"))), p')
    /\ Pairing.inbox p' = [].
Proof.
  destruct (pairing_answers_the_first_hello
              (fun _ => Some (JDict [(str_of "type", JStr (str_of "hello"));
                                     (str_of "ip", JStr (str_of "192.168.4.1"))]))
              {| Pairing.ip := str_of "192.168.4.2"; Pairing.mac := str_of "3c71bf5a5414";
                 Pairing.inbox := [Pairing.NoData;
                                   Pairing.Datagram [104; 105] (str_of "192.168.4.1")];
                 Pairing.events := [] |}
              [Pairing.NoData] [104; 105] (str_of "192.168.4.1") [104; 105]
              (str_of "192.168.4.1")
              [(str_of "type", JStr (str_of "hello"));
               (str_of "ip", JStr (str_of "192.168.4.1"))]
              (JStr (str_of "hello")) [])
    as (p' & Hrun & _ & Hbox); try reflexivity.
  - repeat constructor.
  - simpl. lia.
  - discriminate.
  - exists p'. split; [exact Hrun | exact Hbox].
Defined.

Lemma pairing_ignores_a_hello_without_address_witness :
  exists p',
    Pairing.start
      (fun _ => Some (JDict [(str_of "type", JStr (str_of "hello"));
                             (str_of "ip", JStr [])]))
      {| Pairing.ip := str_of "192.168.4.2"; Pairing.mac := str_of "3c71bf5a5414";
         Pairing.inbox := [Pairing.Datagram [104; 105] (str_of "192.168.4.1")];
         Pairing.events := [] |}
    = (Ok None, p')
    /\ Pairing.inbox p' = [].
Proof.
  destruct (pairing_ignores_a_hello_without_address
              (fun _ => Some (JDict [(str_of "type", JStr (str_of "hello"));
                                     (str_of "ip", JStr [])]))
              {| Pairing.ip := str_of "192.168.4.2"; Pairing.mac := str_of "3c71bf5a5414";
                 Pairing.inbox := [Pairing.Datagram [104; 105] (str_of "192.168.4.1")];
                 Pairing.events := [] |}
              [] [104; 105] (str_of "192.168.4.1") [104; 105]
              [(str_of "type", JStr (str_of "hello")); (str_of "ip", JStr [])]
              (JStr (str_of "hello")) (JStr []) [])
    as (p' & Hrun & _ & Hbox); try reflexivity.
  - constructor.
  - simpl. lia.
  - exists p'. split; [exact Hrun | exact Hbox].
Defined.

Lemma handshake_of_client_and_server_witness :
  exists response,
    WebSocketServer.handshake
      (WebSocketServer.accept (WebSocketClient.request (str_of "192.168.4.1")) server0)
    = (Ok tt, WebSocketServer.wrote [WebSocketServer.Raw response]
                (WebSocketServer.accept [] server0))
    /\ WebSocketClient.handshake (str_of "192.168.4.1")
         {| WebSocketClient.reader := response; WebSocketClient.writer := [] |}
       = (Ok tt, {| WebSocketClient.reader := [];
                    WebSocketClient.writer :=
                      WebSocketClient.request (str_of "192.168.4.1") |}).
Proof.
  apply (handshake_of_client_and_server (str_of "192.168.4.1") server0).
  - repeat constructor.
  - discriminate.
Defined.

Lemma client_handshake_needs_101_witness :
  WebSocketClient.handshake (str_of "192.168.4.1")
    {| WebSocketClient.reader := str_of "HTTP/1.1 400 Bad Request";
       WebSocketClient.writer := [] |}
  = (Raise (ValueError "WebSocket handshake failed"),
     {| WebSocketClient.reader := [];
        WebSocketClient.writer := WebSocketClient.request (str_of "192.168.4.1") |}).
Proof.
  apply (client_handshake_needs_101 (str_of "192.168.4.1")
           (str_of "HTTP/1.1 400 Bad Request")
           {| WebSocketClient.reader := str_of "HTTP/1.1 400 Bad Request";
              WebSocketClient.writer := [] |}).
  - repeat constructor.
  - reflexivity.
  - reflexivity.
Defined.

Lemma server_frame_reaches_the_client_witness :
  exists frame,
    WebSocketServer.send_frame (str_of "ok") [] = (Ok tt, frame)
    /\ WebSocketClient.receive_frame frame = (Ok (Some (str_of "ok")), []).
Proof.
  apply (server_frame_reaches_the_client (str_of "ok")).
  - apply ascii_text_check. reflexivity.
  - vm_compute. reflexivity.
Defined.
